(** * A shallow embedding of the go-source RCON client

    The development follows the Go sources: the packet codec ([newPkt],
    [WriteTo], [ReadFrom]), the command model ([Cmd], [String]) and the
    client ([auth], [ExecCmd], [readSingle], [readMulti], [writePkt],
    [writeMulti]).

    Conventions.
    - A Go [int32] is a [Z]; every arithmetic operation that can leave the
      32-bit range is wrapped by [Int32.wrap].
    - A Go [string] and a Go [[]byte] are both sequences of bytes: [bytes].
    - A function returning [(T, error)] returns a [result T]; a run-time panic
      is the outcome [Panic]; loops that Go does not bound take a [fuel]
      argument and give [OutOfFuel] when it is used up.
    - The connection is explicit state: what was sent, what the peer delivers
      (a [stream] of read events) and whether the transport is failing. *)

From Stdlib Require Import ZArith Ascii String DecimalString Lia Bool List.
Import ListNotations.
Local Open Scope Z_scope.

(** ** Machine integers *)

Module Int32.

Definition min : Z := - 2 ^ 31.
Definition max : Z := 2 ^ 31 - 1.

(** The value of [int32(z)]: reduction modulo [2^32] into the signed range. *)
Definition wrap (z : Z) : Z := (z + 2 ^ 31) mod 2 ^ 32 - 2 ^ 31.

Definition InRange (z : Z) : Prop := min <= z <= max.

Definition add (a b : Z) : Z := wrap (a + b).
Definition sub (a b : Z) : Z := wrap (a - b).

End Int32.

(** ** Bytes *)

Definition byte := ascii.
Definition bytes := list byte.

(** The numeric value of a byte, [0..255]. *)
Definition byte_val (b : byte) : Z := Z.of_N (N_of_ascii b).

(** Go's conversion [byte(z)]: the low eight bits. *)
Definition to_byte (z : Z) : byte := ascii_of_N (Z.to_N (Z.land z 255)).

Definition zero_byte : byte := to_byte 0.

(** A Go string literal. *)
Definition lit (s : string) : bytes := list_ascii_of_string s.

Definition byte_eqb (a b : byte) : bool := Ascii.eqb a b.

(** [bytes.Equal]. *)
Fixpoint bytes_Equal (a b : bytes) : bool :=
  match a, b with
  | [], [] => true
  | x :: a', y :: b' => byte_eqb x y && bytes_Equal a' b'
  | _, _ => false
  end.

(** ** Errors and results *)

(** An operand of a [fmt.Sprintf] call. *)
Inductive operand :=
| OpInt32 (v : Z)
| OpString (s : bytes).

(** The text of an [ErrMalformedResponse]: a literal, or the [fmt.Sprintf]
    call that builds it (format string and operand), kept as written. *)
Inductive message :=
| Literal (s : string)
| Sprintf (format : string) (a : operand).

Inductive error :=
| io_EOF
| io_ErrUnexpectedEOF
| net_Error (what : string)
| ErrNilOption
| ErrNonASCII
| ErrAuthFailure
| ErrMalformedResponse (reason : message).

Inductive result (A : Type) :=
| Ok (a : A)
| Err (e : error)
| Panic
| OutOfFuel.

Arguments Ok {A} a.
Arguments Err {A} e.
Arguments Panic {A}.
Arguments OutOfFuel {A}.

(** ** Slices *)

(** [make([]byte, n)]: panics on a negative length. *)
Definition make (n : Z) : option bytes :=
  if n <? 0 then None else Some (repeat zero_byte (Z.to_nat n)).

(** [s[i:]]: panics unless [0 <= i <= len(s)]. *)
Definition slice_from (s : bytes) (i : Z) : option bytes :=
  if (0 <=? i) && (i <=? Z.of_nat (length s)) then Some (skipn (Z.to_nat i) s)
  else None.

(** [s[0:j]]: panics unless [0 <= j <= len(s)]. *)
Definition slice_to (s : bytes) (j : Z) : option bytes :=
  if (0 <=? j) && (j <=? Z.of_nat (length s)) then Some (firstn (Z.to_nat j) s)
  else None.

(** The effect on [s] of a read of [chunk] into the sub-slice [s[i:]]. *)
Definition store (s : bytes) (i : Z) (chunk : bytes) : bytes :=
  firstn (Z.to_nat i) s ++ chunk ++ skipn (Z.to_nat i + length chunk) s.

(** ** The transport's read side: [io.Reader] *)

(** What the peer delivers: data arriving in pieces, and transport faults
    (a deadline that expires, a reset).  When the events are used up the
    connection is closed: every further read reports [io.EOF]. *)
Inductive event :=
| Data (bs : bytes)
| Fault (e : error).

Definition stream := list event.

(** [r.Read(p)] with [len(p) = k]: at most [k] bytes of the next piece. *)
Definition Read (r : stream) (k : nat) : bytes * option error * stream :=
  match r with
  | [] => ([], Some io_EOF, [])
  | Fault e :: r' => ([], Some e, r')
  | Data bs :: r' =>
      if (length bs <=? k)%nat then (bs, None, r')
      else (firstn k bs, None, Data (skipn k bs) :: r')
  end.

(** [io.ReadFull(r, buf)] with [len(buf) = k], as [io.ReadAtLeast] runs it:
<<
    for n < min && err == nil { nn, err = r.Read(buf[n:]); n += nn }
    if n >= min { err = nil }
    else if n > 0 && err == EOF { err = ErrUnexpectedEOF }
>>
    [got] is what has been read so far. *)
Fixpoint io_ReadFull (fuel : nat) (r : stream) (k : nat) (got : bytes)
  : result bytes * stream :=
  match fuel with
  | O => (OutOfFuel, r)
  | S fuel' =>
      if (length got <? k)%nat then
        match Read r (k - length got) with
        | (chunk, None, r') => io_ReadFull fuel' r' k (got ++ chunk)
        | (chunk, Some e, r') =>
            let got' := got ++ chunk in
            if (k <=? length got')%nat then (Ok got', r')
            else if (0 <? length got')%nat then
              match e with
              | io_EOF => (Err io_ErrUnexpectedEOF, r')
              | _ => (Err e, r')
              end
            else (Err e, r')
        end
      else (Ok got, r)
  end.

(** ** [encoding/binary], little endian, for [int32] *)

(** [binary.LittleEndian.PutUint32(bs, uint32(v))]. *)
Definition le32 (v : Z) : bytes :=
  [ to_byte v; to_byte (Z.shiftr v 8); to_byte (Z.shiftr v 16);
    to_byte (Z.shiftr v 24) ].

(** [int32(binary.LittleEndian.Uint32(bs))]. *)
Definition le32_decode (bs : bytes) : Z :=
  match bs with
  | [b0; b1; b2; b3] =>
      Int32.wrap
        (Z.lor (Z.lor (Z.lor (byte_val b0) (Z.shiftl (byte_val b1) 8))
                      (Z.shiftl (byte_val b2) 16))
               (Z.shiftl (byte_val b3) 24))
  | _ => 0
  end.

(** [binary.Read(r, binary.LittleEndian, &x)] for [x] an [int32]. *)
Definition binary_Read (fuel : nat) (r : stream) : result Z * stream :=
  match io_ReadFull fuel r 4 [] with
  | (Ok bs, r') => (Ok (le32_decode bs), r')
  | (Err e, r') => (Err e, r')
  | (Panic, r') => (Panic, r')
  | (OutOfFuel, r') => (OutOfFuel, r')
  end.

(** ** Packets *)

Definition responseValue : Z := 0.
Definition execCommand : Z := 2.
Definition auth_type : Z := 3.
Definition authResponse : Z := 2.

Record pkt := mkPkt { Size : Z; ID : Z; Type_ : Z; body : bytes }.

Definition newPkt (t id : Z) (b : bytes) : pkt :=
  {| Type_ := t; Size := Int32.wrap (Z.of_nat (length b) + 10); ID := id;
     body := b |}.

(** [Body] converts the body to a string; both are [bytes] here. *)
Definition Body (p : pkt) : bytes := body p.

(** The bytes [WriteTo] assembles in its buffer.  The buffer is made with
    capacity [p.Size+4], an [int32] sum: a negative capacity panics. *)
Definition encode (p : pkt) : result bytes :=
  if Int32.add (Size p) 4 <? 0 then Panic
  else Ok (le32 (Size p) ++ le32 (ID p) ++ le32 (Type_ p)
           ++ (body p ++ [zero_byte; zero_byte])).

(** The write side of the connection. *)
Record Conn := mkConn {
  deadline_err : option error;  (* what [SetDeadline] returns *)
  write_err : option error;     (* what [Write] returns; nothing is sent then *)
  sent : bytes                  (* every byte written so far *)
}.

(** [conn.Write(bs)]: all of [bs] is sent, or the transport's error comes
    back. *)
Definition conn_Write (w : Conn) (bs : bytes) : result Z * Conn :=
  match write_err w with
  | Some e => (Err e, w)
  | None =>
      (Ok (Z.of_nat (length bs)),
       {| deadline_err := deadline_err w; write_err := write_err w;
          sent := sent w ++ bs |})
  end.

(** [WriteTo]: the buffer is assembled, then written in one call. *)
Definition WriteTo (p : pkt) (w : Conn) : result Z * Conn :=
  match encode p with
  | Ok buf => conn_Write w buf
  | Err e => (Err e, w)
  | Panic => (Panic, w)
  | OutOfFuel => (OutOfFuel, w)
  end.

Definition set_body (p : pkt) (b : bytes) : pkt :=
  {| Size := Size p; ID := ID p; Type_ := Type_ p; body := b |}.

(** The end of [ReadFrom], after the payload loop: count, trailer check,
    trailer strip. *)
Definition ReadFrom_trailer (p : pkt) (n i : Z) (r : stream)
  : Z * result pkt * stream :=
  let n := n + i in
  let len := Z.of_nat (length (body p)) in
  match slice_from (body p) (len - 2) with
  | None => (n, Panic, r)
  | Some tail =>
      if negb (bytes_Equal tail [zero_byte; zero_byte]) then
        (n, Err (ErrMalformedResponse (Literal "invalid trailer")), r)
      else
        match slice_to (body p) (len - 2) with
        | None => (n, Panic, r)
        | Some b => (n, Ok (set_body p b), r)
        end
  end.

(** The payload loop of [ReadFrom]:
<<
    for i < p.Size-8 {
        n2, err2 := r.Read(p.body[i:])
        if err != nil { return n + int64(n2) + int64(i), err2 }
        i += int32(n2)
    }
>>
    [err] is the function's named result, as the loop tests it; [err2] is the
    error of the read. *)
Fixpoint ReadFrom_payload (fuel : nat) (r : stream) (err : option error)
    (p : pkt) (n i : Z) : Z * result pkt * stream :=
  match fuel with
  | O => (n, OutOfFuel, r)
  | S fuel' =>
      if i <? Int32.sub (Size p) 8 then
        match slice_from (body p) i with
        | None => (n, Panic, r)
        | Some dst =>
            match Read r (length dst) with
            | (chunk, err2, r') =>
                let n2 := Z.of_nat (length chunk) in
                let p' := set_body p (store (body p) i chunk) in
                match err with
                | Some _ =>
                    (n + n2 + i,
                     match err2 with Some e => Err e | None => Ok p' end, r')
                | None =>
                    ReadFrom_payload fuel' r' err p' n (Int32.add i n2)
                end
            end
        end
      else ReadFrom_trailer p n i r
  end.

(** [ReadFrom]: the byte count, the packet or the error, and the rest of the
    stream. *)
Definition ReadFrom (fuel : nat) (r : stream) : Z * result pkt * stream :=
  let n := 0 in
  match binary_Read fuel r with
  | (Err e, r) => (n, Err e, r)
  | (Panic, r) => (n, Panic, r)
  | (OutOfFuel, r) => (n, OutOfFuel, r)
  | (Ok size, r) =>
      let n := n + 4 in
      if size <? 10 then
        (n, Err (ErrMalformedResponse (Literal "size too small")), r)
      else
        match binary_Read fuel r with
        | (Err e, r) => (n, Err e, r)
        | (Panic, r) => (n, Panic, r)
        | (OutOfFuel, r) => (n, OutOfFuel, r)
        | (Ok id, r) =>
            let n := n + 4 in
            match binary_Read fuel r with
            | (Err e, r) => (n, Err e, r)
            | (Panic, r) => (n, Panic, r)
            | (OutOfFuel, r) => (n, OutOfFuel, r)
            | (Ok type, r) =>
                let n := n + 4 in
                (* the named result [err] is nil here: the last header read
                   assigned it and it was tested *)
                let err : option error := None in
                match make (Int32.sub size 8) with
                | None => (n, Panic, r)
                | Some buf =>
                    ReadFrom_payload fuel r err
                      {| Size := size; ID := id; Type_ := type; body := buf |}
                      n 0
                end
            end
        end
  end.

(** ** Commands *)

(** The argument values a command carries ([interface{}] in the source), by
    the kinds [fmt] prints with its default format. *)
Inductive value :=
| VString (s : bytes)
| VInt (n : Z)
| VBool (b : bool).

Record Cmd := mkCmd { cmd : bytes; args : list value }.

Definition NewCmd (c : bytes) : Cmd := {| cmd := c; args := [] |}.

Definition WithArgs (c : Cmd) (a : list value) : Cmd :=
  {| cmd := cmd c; args := a |}.

(** The default format ([%v]) of an operand. *)
Definition format_v (v : value) : bytes :=
  match v with
  | VString s => s
  | VInt n => lit (NilZero.string_of_int (Z.to_int n))
  | VBool true => lit "true"
  | VBool false => lit "false"
  end.

Definition space : bytes := [to_byte 0x20].
Definition newline : bytes := [to_byte 0x0A].

(** The loop of [fmt.Sprintln]: a space before every operand but the first. *)
Fixpoint doPrintln (argNum : nat) (operands : list value) : bytes :=
  match operands with
  | [] => []
  | v :: rest =>
      (match argNum with O => [] | S _ => space end)
        ++ format_v v ++ doPrintln (S argNum) rest
  end.

(** [fmt.Sprintln]: the operands, then a newline. *)
Definition fmt_Sprintln (operands : list value) : bytes :=
  doPrintln 0 operands ++ newline.

(** [strings.HasSuffix]. *)
Definition strings_HasSuffix (s suffix : bytes) : bool :=
  (length suffix <=? length s)%nat
  && bytes_Equal (skipn (length s - length suffix) s) suffix.

(** [strings.TrimSuffix]. *)
Definition strings_TrimSuffix (s suffix : bytes) : bytes :=
  if strings_HasSuffix s suffix then firstn (length s - length suffix) s
  else s.

(** [Cmd.String]. *)
Definition Cmd_String (c : Cmd) : bytes :=
  let args := VString (cmd c) :: args c in
  strings_TrimSuffix (fmt_Sprintln args) newline.

(** ** Ranging over a string: [unicode/utf8] *)

Module utf8.

Definition RuneError : Z := 0xFFFD.

Definition maskx : Z := 0x3F.
Definition mask2 : Z := 0x1F.
Definition mask3 : Z := 0x0F.
Definition mask4 : Z := 0x07.
Definition locb : Z := 0x80.
Definition hicb : Z := 0xBF.

(** What the table [first] says of a leading byte: one-byte ASCII, invalid,
    or the leader of [sz] bytes whose second byte lies in [lo..hi]. *)
Inductive lead :=
| Ascii1
| Invalid
| Leader (sz : nat) (lo hi : Z).

Definition first (b : Z) : lead :=
  if b <? 0x80 then Ascii1
  else if b <? 0xC2 then Invalid
  else if b <? 0xE0 then Leader 2 locb hicb
  else if b =? 0xE0 then Leader 3 0xA0 hicb
  else if b <? 0xED then Leader 3 locb hicb
  else if b =? 0xED then Leader 3 locb 0x9F
  else if b <? 0xF0 then Leader 3 locb hicb
  else if b =? 0xF0 then Leader 4 0x90 hicb
  else if b <? 0xF4 then Leader 4 locb hicb
  else if b =? 0xF4 then Leader 4 locb 0x8F
  else Invalid.

(** [utf8.DecodeRuneInString]: the rune at the head of [s] and its width. *)
Definition DecodeRuneInString (s : bytes) : Z * nat :=
  match s with
  | [] => (RuneError, 0%nat)
  | c0 :: t0 =>
      let s0 := byte_val c0 in
      match first s0 with
      | Ascii1 => (s0, 1%nat)
      | Invalid => (RuneError, 1%nat)
      | Leader sz lo hi =>
          if (length s <? sz)%nat then (RuneError, 1%nat) else
          match t0 with
          | [] => (RuneError, 1%nat)
          | c1 :: t1 =>
              let s1 := byte_val c1 in
              if (s1 <? lo) || (hi <? s1) then (RuneError, 1%nat) else
              if (sz <=? 2)%nat then
                (Z.lor (Z.shiftl (Z.land s0 mask2) 6) (Z.land s1 maskx), 2%nat)
              else
              match t1 with
              | [] => (RuneError, 1%nat)
              | c2 :: t2 =>
                  let s2 := byte_val c2 in
                  if (s2 <? locb) || (hicb <? s2) then (RuneError, 1%nat) else
                  if (sz <=? 3)%nat then
                    (Z.lor (Z.lor (Z.shiftl (Z.land s0 mask3) 12)
                                  (Z.shiftl (Z.land s1 maskx) 6))
                           (Z.land s2 maskx), 3%nat)
                  else
                  match t2 with
                  | [] => (RuneError, 1%nat)
                  | c3 :: _ =>
                      let s3 := byte_val c3 in
                      if (s3 <? locb) || (hicb <? s3) then (RuneError, 1%nat)
                      else
                        (Z.lor (Z.lor (Z.lor (Z.shiftl (Z.land s0 mask4) 18)
                                             (Z.shiftl (Z.land s1 maskx) 12))
                                      (Z.shiftl (Z.land s2 maskx) 6))
                               (Z.land s3 maskx), 4%nat)
                  end
              end
          end
      end
  end.

(** The runes [for _, r := range s] yields: a rune is decoded at the
    current byte, and the bytes it covers are passed over ([skip] of them
    are still to be passed). *)
Fixpoint range (skip : nat) (s : bytes) : list Z :=
  match s with
  | [] => []
  | _ :: t =>
      match skip with
      | S k => range k t
      | O => let (r, w) := DecodeRuneInString s in r :: range (w - 1) t
      end
  end.

End utf8.

(** ** The client *)

(** The two function-valued fields of the client, by the method they hold. *)
Inductive read_fn := readSingle_fn | readMulti_fn.
Inductive write_fn := writePkt_fn | writeMulti_fn.

Record Client := mkClient {
  conn : Conn;
  pwd : bytes;
  reader : stream;
  reqID : Z;
  read : read_fn;
  write : write_fn
}.

Definition responseBody : bytes :=
  [to_byte 0x00; to_byte 0x01; to_byte 0x00; to_byte 0x00].

Definition set_reader (c : Client) (r : stream) : Client :=
  {| conn := conn c; pwd := pwd c; reader := r; reqID := reqID c;
     read := read c; write := write c |}.

Definition set_conn (c : Client) (w : Conn) : Client :=
  {| conn := w; pwd := pwd c; reader := reader c; reqID := reqID c;
     read := read c; write := write c |}.

Definition set_reqID (c : Client) (id : Z) : Client :=
  {| conn := conn c; pwd := pwd c; reader := reader c; reqID := id;
     read := read c; write := write c |}.

(** [DisableMultiPacket], applied to a client. *)
Definition DisableMultiPacket (c : Client) : Client :=
  {| conn := conn c; pwd := pwd c; reader := reader c; reqID := reqID c;
     read := readSingle_fn; write := writePkt_fn |}.

Definition setDeadline (c : Client) : option error := deadline_err (conn c).

(** [writePkt]: the counter moves before anything can fail. *)
Definition writePkt (pktType : Z) (b : bytes) (c : Client)
  : result unit * Client :=
  let p := newPkt pktType (reqID c) b in
  let c := set_reqID c (Int32.add (reqID c) 1) in
  match setDeadline c with
  | Some e => (Err e, c)
  | None =>
      match WriteTo p (conn c) with
      | (Ok _, w) => (Ok tt, set_conn c w)
      | (Err e, w) => (Err e, set_conn c w)
      | (Panic, w) => (Panic, set_conn c w)
      | (OutOfFuel, w) => (OutOfFuel, set_conn c w)
      end
  end.

Definition writeMulti (pktType : Z) (b : bytes) (c : Client)
  : result unit * Client :=
  match writePkt pktType b c with
  | (Ok _, c) => writePkt responseValue [] c
  | other => other
  end.

Definition readPkt (fuel : nat) (c : Client) : result pkt * Client :=
  match setDeadline c with
  | Some e => (Err e, c)
  | None =>
      match ReadFrom fuel (reader c) with
      | (_, res, r) => (res, set_reader c r)
      end
  end.

Definition readSingle (fuel : nat) (expectedID : Z) (c : Client)
  : result bytes * Client :=
  match readPkt fuel c with
  | (Ok p, c) =>
      if negb (ID p =? expectedID) then
        (Err (ErrMalformedResponse
                (Sprintf "unexpected packet id %v" (OpInt32 (ID p)))), c)
      else (Ok (Body p), c)
  | (Err e, c) => (Err e, c)
  | (Panic, c) => (Panic, c)
  | (OutOfFuel, c) => (OutOfFuel, c)
  end.

(** The loop of [readMulti]; [buf] and [cnt] are its two local variables. *)
Fixpoint readMulti_loop (fuel : nat) (expectedID : Z) (buf : bytes) (cnt : Z)
    (c : Client) : result bytes * Client :=
  match fuel with
  | O => (OutOfFuel, c)
  | S fuel' =>
      match readPkt fuel c with
      | (Err e, c) => (Err e, c)
      | (Panic, c) => (Panic, c)
      | (OutOfFuel, c) => (OutOfFuel, c)
      | (Ok p, c) =>
          if negb (Type_ p =? responseValue) then
            (Err (ErrMalformedResponse (Literal "unexpected type")), c)
          else if ID p =? expectedID then
            (* [buf.Write] of a [bytes.Buffer] returns no error *)
            readMulti_loop fuel' expectedID (buf ++ body p) cnt c
          else if ID p =? Int32.add expectedID 1 then
            let cnt := cnt + 1 in
            if cnt =? 1 then
              if negb (Z.of_nat (length (body p)) =? 0) then
                (Err (ErrMalformedResponse (Literal "non-empty body")), c)
              else readMulti_loop fuel' expectedID buf cnt c
            else if cnt =? 2 then
              if negb (bytes_Equal (body p) responseBody) then
                (Err (ErrMalformedResponse
                        (Sprintf "unexpected body %q" (OpString (Body p)))), c)
              else (Ok buf, c)
            else readMulti_loop fuel' expectedID buf cnt c
          else
            (Err (ErrMalformedResponse
                    (Sprintf "unexpected packet id %v" (OpInt32 (ID p)))), c)
      end
  end.

Definition readMulti (fuel : nat) (expectedID : Z) (c : Client)
  : result bytes * Client :=
  readMulti_loop fuel expectedID [] 0 c.

Definition auth (fuel : nat) (c : Client) : result unit * Client :=
  match pwd c with
  | [] => (Ok tt, c)
  | _ :: _ =>
      match writePkt auth_type (pwd c) c with
      | (Err e, c) => (Err e, c)
      | (Panic, c) => (Panic, c)
      | (OutOfFuel, c) => (OutOfFuel, c)
      | (Ok _, c) =>
          match readPkt fuel c with
          | (Err e, c) => (Err e, c)
          | (Panic, c) => (Panic, c)
          | (OutOfFuel, c) => (OutOfFuel, c)
          | (Ok p, c) =>
              if negb (ID p =? 0) then (Err ErrAuthFailure, c)
              else if Type_ p =? responseValue then
                match readPkt fuel c with
                | (Err e, c) => (Err e, c)
                | (Panic, c) => (Panic, c)
                | (OutOfFuel, c) => (OutOfFuel, c)
                | (Ok p, c) =>
                    if negb (ID p =? 0) || negb (Type_ p =? authResponse)
                    then (Err ErrAuthFailure, c)
                    else (Ok tt, c)
                end
              else if negb (Type_ p =? authResponse) then
                (Err ErrAuthFailure, c)
              else (Ok tt, c)
          end
      end
  end.

(** The calls through the two function-valued fields. *)
Definition call_write (c : Client) (pktType : Z) (b : bytes)
  : result unit * Client :=
  match write c with
  | writePkt_fn => writePkt pktType b c
  | writeMulti_fn => writeMulti pktType b c
  end.

Definition call_read (fuel : nat) (c : Client) (expectedID : Z)
  : result bytes * Client :=
  match read c with
  | readSingle_fn => readSingle fuel expectedID c
  | readMulti_fn => readMulti fuel expectedID c
  end.

(** The validation loop of [ExecCmd] over the runes of the body. *)
Fixpoint non_ascii (runes : list Z) : bool :=
  match runes with
  | [] => false
  | r :: rest => if 0x80 <=? r then true else non_ascii rest
  end.

Definition ExecCmd (fuel : nat) (cm : Cmd) (c : Client)
  : result bytes * Client :=
  let b := Cmd_String cm in
  if non_ascii (utf8.range 0 b) then (Err ErrNonASCII, c)
  else
    let expectedID := reqID c in
    match call_write c execCommand b with
    | (Err e, c) => (Err e, c)
    | (Panic, c) => (Panic, c)
    | (OutOfFuel, c) => (OutOfFuel, c)
    | (Ok _, c) => call_read fuel c expectedID
    end.

Definition Exec (fuel : nat) (command : bytes) (c : Client)
  : result bytes * Client :=
  ExecCmd fuel (NewCmd command) c.


(** ** Constructing a client *)

(** The fields of the source's [Client] that only [NewClient] reads, next to
    the client under construction.  [timeout] is a [time.Duration], in
    nanoseconds. *)
Record Setup := mkSetup { addr : bytes; timeout : Z; client : Client }.

Definition DefaultPort : Z := 27015.
Definition DefaultTimeout : Z := 1000000000 * 10.

(** An option of [NewClient]: a function on the client that may return an
    error. *)
Definition func_option : Type := Setup -> option error * Setup.

Definition Timeout (t : Z) : func_option :=
  fun s => (None, {| addr := addr s; timeout := t; client := client s |}).

Definition Password (p : bytes) : func_option :=
  fun s =>
    (None,
     {| addr := addr s; timeout := timeout s;
        client :=
          {| conn := conn (client s); pwd := p; reader := reader (client s);
             reqID := reqID (client s); read := read (client s);
             write := write (client s) |} |}).

(** [DisableMultiPacket], as the option it is. *)
Definition DisableMultiPacket_option : func_option :=
  fun s =>
    (None,
     {| addr := addr s; timeout := timeout s;
        client := DisableMultiPacket (client s) |}).

(** The loop of [NewClient] over its options; [None] is a nil option. *)
Fixpoint apply_options (options : list (option func_option)) (s : Setup)
  : result Setup :=
  match options with
  | [] => Ok s
  | None :: _ => Err ErrNilOption
  | Some f :: rest =>
      match f s with
      | (Some e, _) => Err e
      | (None, s') => apply_options rest s'
      end
  end.

(** [strings.Contains(s, ":")]. *)
Definition contains_colon (s : bytes) : bool :=
  existsb (fun b => byte_eqb b ":"%char) s.

(** The address [NewClient] dials: [fmt.Sprintf("%v:%v", addr, DefaultPort)]
    when the address has no colon. *)
Definition dial_addr (a : bytes) : bytes :=
  if negb (contains_colon a) then
    a ++ lit ":" ++ format_v (VInt DefaultPort)
  else a.

(** What [NewClient] did to the network: the address and timeout it dialed,
    if it came to that, and whether it closed the connection it got. *)
Record net_effects := mkEffects {
  dialed : option (bytes * Z);
  closed : bool
}.

Section NewClient.

(** [net.DialTimeout("tcp", addr, timeout)]: the two sides of the connection,
    or the error. *)
Variable DialTimeout : bytes -> Z -> result (Conn * stream).

Definition NewClient (fuel : nat) (a : bytes)
    (options : list (option func_option)) : result Client * net_effects :=
  let c :=
    {| addr := a; timeout := DefaultTimeout;
       client :=
         {| conn := {| deadline_err := None; write_err := None; sent := [] |};
            pwd := []; reader := []; reqID := 0;
            read := readMulti_fn; write := writeMulti_fn |} |} in
  match apply_options options c with
  | Err e => (Err e, {| dialed := None; closed := false |})
  | Panic => (Panic, {| dialed := None; closed := false |})
  | OutOfFuel => (OutOfFuel, {| dialed := None; closed := false |})
  | Ok c =>
      let target := dial_addr (addr c) in
      match DialTimeout target (timeout c) with
      | Err e => (Err e, {| dialed := Some (target, timeout c); closed := false |})
      | Panic => (Panic, {| dialed := Some (target, timeout c); closed := false |})
      | OutOfFuel =>
          (OutOfFuel, {| dialed := Some (target, timeout c); closed := false |})
      | Ok (w, r) =>
          let cl :=
            {| conn := w; pwd := pwd (client c); reader := r;
               reqID := reqID (client c); read := read (client c);
               write := write (client c) |} in
          match auth fuel cl with
          | (Ok _, cl) =>
              (Ok cl, {| dialed := Some (target, timeout c); closed := false |})
          | (Err e, _) =>
              (Err e, {| dialed := Some (target, timeout c); closed := true |})
          | (Panic, _) =>
              (Panic, {| dialed := Some (target, timeout c); closed := false |})
          | (OutOfFuel, _) =>
              (OutOfFuel,
               {| dialed := Some (target, timeout c); closed := false |})
          end
      end
  end.

End NewClient.

(** ** The mock server of the tests *)

(** [fmt.Sprintf("%v:%v", p.Type, p.Body())]: the key of a request. *)
Definition request_key (t : Z) (b : bytes) : bytes :=
  format_v (VInt t) ++ lit ":" ++ b.

(** The map [commands]: from a request's key to the packets that answer
    it.  The packets are shared: [server.write] writes into them. *)
Definition table : Type := list (bytes * list pkt).

Definition commands : table :=
  [ (request_key execCommand (lit "echo test me"),
     [newPkt responseValue 0 (lit "test me")]);
    (request_key responseValue [],
     [newPkt responseValue 1 []; newPkt responseValue 1 responseBody]) ].

(** [commands[key]]. *)
Fixpoint lookup (key : bytes) (t : table) : option (list pkt) :=
  match t with
  | [] => None
  | (k, v) :: t' => if bytes_Equal key k then Some v else lookup key t'
  end.

(** The table after the packets under [key] were written into. *)
Fixpoint update (key : bytes) (v : list pkt) (t : table) : table :=
  match t with
  | [] => []
  | (k, v') :: t' =>
      if bytes_Equal key k then (k, v) :: t' else (k, v') :: update key v t'
  end.

Definition set_ID (p : pkt) (id : Z) : pkt :=
  {| Size := Size p; ID := id; Type_ := Type_ p; body := body p |}.

(** [server.write]: every packet gets the id, then is written; the first
    error stops the loop.  The packets come back as the loop left them. *)
Fixpoint server_write (w : Conn) (id : Z) (pkts : list pkt)
  : result unit * Conn * list pkt :=
  match pkts with
  | [] => (Ok tt, w, [])
  | p :: rest =>
      let p := set_ID p id in
      match WriteTo p w with
      | (Ok _, w) =>
          match server_write w id rest with
          | (res, w, rest) => (res, w, p :: rest)
          end
      | (Err e, w) => (Err e, w, p :: rest)
      | (Panic, w) => (Panic, w, p :: rest)
      | (OutOfFuel, w) => (OutOfFuel, w, p :: rest)
      end
  end.

(** The loop of [server.handle] on one connection: read a request, look its
    answer up or make the "unknown command" answer, write it; any error ends
    the handler. *)
Fixpoint handle_loop (fuel : nat) (r : stream) (w : Conn) (t : table)
  : result unit * stream * Conn * table :=
  match fuel with
  | O => (OutOfFuel, r, w, t)
  | S fuel' =>
      match ReadFrom fuel r with
      | (_, Err _, r) => (Ok tt, r, w, t)
      | (_, Panic, r) => (Panic, r, w, t)
      | (_, OutOfFuel, r) => (OutOfFuel, r, w, t)
      | (_, Ok p, r) =>
          let key := request_key (Type_ p) (Body p) in
          match lookup key t with
          | Some resp =>
              match server_write w (ID p) resp with
              | (Ok _, w, resp) => handle_loop fuel' r w (update key resp t)
              | (Err _, w, resp) => (Ok tt, r, w, update key resp t)
              | (Panic, w, resp) => (Panic, r, w, update key resp t)
              | (OutOfFuel, w, resp) => (OutOfFuel, r, w, update key resp t)
              end
          | None =>
              let resp :=
                [newPkt responseValue (ID p)
                   (lit "unknown command " ++ key)] in
              match server_write w (ID p) resp with
              | (Ok _, w, _) => handle_loop fuel' r w t
              | (Err _, w, _) => (Ok tt, r, w, t)
              | (Panic, w, _) => (Panic, r, w, t)
              | (OutOfFuel, w, _) => (OutOfFuel, r, w, t)
              end
          end
      end
  end.

(** [server.handle]: nothing is served when [failConn] is set. *)
Definition handle (fuel : nat) (failConn : bool) (r : stream) (w : Conn)
    (t : table) : result unit * stream * Conn * table :=
  if failConn then (Ok tt, r, w, t) else handle_loop fuel r w t.

(** * Vocabulary of the properties *)

(** The bytes a stream delivers before its first fault or its end. *)
Fixpoint available (r : stream) : bytes :=
  match r with
  | [] => []
  | Data bs :: r' => bs ++ available r'
  | Fault _ :: _ => []
  end.

(** All the bytes a stream ever delivers, faults passed over. *)
Fixpoint all_data (r : stream) : bytes :=
  match r with
  | [] => []
  | Data bs :: r' => bs ++ all_data r'
  | Fault _ :: r' => all_data r'
  end.

(** The bytes of a packet on the wire. *)
Definition wire (size id type : Z) (raw : bytes) : bytes :=
  le32 size ++ le32 id ++ le32 type ++ raw.

(** What [ReadFrom] makes of a raw payload of the right length. *)
Definition decoded (size id type : Z) (raw : bytes) : result pkt :=
  if bytes_Equal (skipn (length raw - 2) raw) [zero_byte; zero_byte] then
    Ok {| Size := size; ID := id; Type_ := type;
          body := firstn (length raw - 2) raw |}
  else Err (ErrMalformedResponse (Literal "invalid trailer")).

(** What holds of every outcome of [ReadFrom]: no panic, and a packet it
    returns satisfies the size invariant. *)
Definition ReadFrom_post (res : result pkt) : Prop :=
  match res with
  | Ok p => 10 <= Size p /\ Z.of_nat (length (body p)) = Size p - 10
  | Panic => False
  | _ => True
  end.

(** A body short enough for [Size] and for the capacity [Size + 4] to be
    positive [int32] numbers. *)
Definition fits (b : bytes) : Prop := Z.of_nat (length b) + 14 <= Int32.max.

(** [run] gives [v] for every fuel from some point on: the computation
    returns [v]. *)
Definition eventually {A : Type} (run : nat -> A) (v : A) : Prop :=
  exists f0 : nat, forall fuel : nat, (f0 <= fuel)%nat -> run fuel = v.

(** The stream [r] delivers the packet [p] and goes on as [r']: a run of
    [ReadFrom] on [r] decodes [p] and leaves [r']. *)
Definition delivers (r : stream) (p : pkt) (r' : stream) : Prop :=
  exists (fuel : nat) (n : Z), ReadFrom fuel r = (n, Ok p, r').

(** The decoded response sequence of a stream. *)
Inductive delivers_all : stream -> list pkt -> stream -> Prop :=
| delivers_nil (r : stream) : delivers_all r [] r
| delivers_cons (r r1 r2 : stream) (p : pkt) (ps : list pkt) :
    delivers r p r1 -> delivers_all r1 ps r2 -> delivers_all r (p :: ps) r2.

(** The encodings of a list of packets, one after the other. *)
Fixpoint frames (ps : list pkt) : bytes :=
  match ps with
  | [] => []
  | p :: ps' =>
      wire (Z.of_nat (length (body p)) + 10) (ID p) (Type_ p)
        (body p ++ [zero_byte; zero_byte]) ++ frames ps'
  end.

(** A packet as [newPkt] builds it, with fields in range. *)
Definition well_formed (p : pkt) : Prop :=
  Int32.InRange (ID p) /\ Int32.InRange (Type_ p) /\ fits (body p)
  /\ Size p = Z.of_nat (length (body p)) + 10.

(** A packet of the command's output, and a packet of the sentinel's echo. *)
Definition is_data (N : Z) (p : pkt) : Prop :=
  Type_ p = responseValue /\ ID p = N.

Definition is_sentinel (N : Z) (p : pkt) : Prop :=
  Type_ p = responseValue /\ ID p = Int32.add N 1.

(** White space, as [unicode.IsSpace] has it on ASCII. *)
Definition is_space (b : byte) : bool :=
  (byte_val b =? 0x20) || ((0x09 <=? byte_val b) && (byte_val b <=? 0x0D)).

(** The string ends in white space. *)
Fixpoint has_trailing_space (s : bytes) : bool :=
  match s with
  | [] => false
  | b :: t => match t with [] => is_space b | _ :: _ => has_trailing_space t end
  end.

(** A frame that announces four payload bytes, of which one arrives before
    the peer closes the connection. *)
Definition truncated : stream :=
  [Data (le32 12 ++ le32 1 ++ le32 responseValue ++ lit "a")].

(** The client after [writePkt] has sent a packet of type [t] and body [b]:
    one frame more in what was sent, the counter one further. *)
Definition after_write (c : Client) (t : Z) (b : bytes) : Client :=
  {| conn :=
       {| deadline_err := deadline_err (conn c);
          write_err := write_err (conn c);
          sent := sent (conn c)
                  ++ wire (Z.of_nat (length b) + 10) (reqID c) t
                       (b ++ [zero_byte; zero_byte]) |};
     pwd := pwd c; reader := reader c; reqID := Int32.add (reqID c) 1;
     read := read c; write := write c |}.

(** A stream without faults: data, then the end. *)
Definition no_fault (r : stream) : Prop :=
  Forall (fun ev => match ev with Data _ => True | Fault _ => False end) r.

(** A packet [server.write] can send: a type in range and a size that is
    the body's length plus ten, within [int32]. *)
Definition servable (p : pkt) : Prop :=
  Int32.InRange (Type_ p) /\ fits (body p)
  /\ Size p = Z.of_nat (length (body p)) + 10.

(** An option that returns no error. *)
Definition succeeds (o : option func_option) : Prop :=
  exists f : func_option, o = Some f /\ forall s : Setup, fst (f s) = None.

(** The options the package provides, as data. *)
Inductive setting :=
| UseTimeout (t : Z)
| UsePassword (p : bytes)
| SinglePacket.

Definition to_option (x : setting) : option func_option :=
  match x with
  | UseTimeout t => Some (Timeout t)
  | UsePassword p => Some (Password p)
  | SinglePacket => Some DisableMultiPacket_option
  end.

(** What a list of provided options leaves in the setup: the last timeout,
    the last password, single-packet mode once it was asked for. *)
Fixpoint configure (xs : list setting) (s : Setup) : Setup :=
  match xs with
  | [] => s
  | x :: xs' =>
      configure xs'
        (match x with
         | UseTimeout t =>
             {| addr := addr s; timeout := t; client := client s |}
         | UsePassword p =>
             {| addr := addr s; timeout := timeout s;
                client :=
                  {| conn := conn (client s); pwd := p;
                     reader := reader (client s); reqID := reqID (client s);
                     read := read (client s); write := write (client s) |} |}
         | SinglePacket =>
             {| addr := addr s; timeout := timeout s;
                client := DisableMultiPacket (client s) |}
         end)
  end.

(** The setup [NewClient] starts from. *)
Definition initial_setup (a : bytes) : Setup :=
  {| addr := a; timeout := DefaultTimeout;
     client :=
       {| conn := {| deadline_err := None; write_err := None; sent := [] |};
          pwd := []; reader := []; reqID := 0;
          read := readMulti_fn; write := writeMulti_fn |} |}.

(** The packets the mock server answers a request with, from the table as
    it was first: the packets under the request's key with the request's id,
    or the one "unknown command" packet. *)
Definition reply_for (t : table) (p : pkt) : list pkt :=
  match lookup (request_key (Type_ p) (Body p)) t with
  | Some resp => map (fun q => set_ID q (ID p)) resp
  | None =>
      [newPkt responseValue (ID p)
         (lit "unknown command " ++ request_key (Type_ p) (Body p))]
  end.

(** A table with the ids written into its packets forgotten. *)
Definition erase_ids (t : table) : table :=
  map (fun kv => (fst kv, map (fun q => set_ID q 0) (snd kv))) t.

(** Every packet of the table can be sent. *)
Definition table_servable (t : table) : Prop :=
  Forall (fun kv => Forall servable (snd kv)) t.

(** The stream [r] ends the handler: a decode on it fails, leaving [r']. *)
Definition closes (r r' : stream) : Prop :=
  exists (fuel : nat) (n : Z) (e : error), ReadFrom fuel r = (n, Err e, r').

(** The outcome [out] of a request with body [b] that was written by the
    client [c] and whose read failed with [e], leaving the stream [r1]: the
    error; on the wire, after what was sent before, the frame of the command
    with the request's id and, in multi-packet mode, the frame of the empty
    sentinel packet with the next id; the counter past the ids used; the
    reader at [r1]; and nothing else changed. *)
Definition written_then_failed (c : Client) (b : bytes) (e : error)
    (r1 : stream) (out : result bytes * Client) : Prop :=
  fst out = Err e
  /\ reader (snd out) = r1
  /\ pwd (snd out) = pwd c
  /\ read (snd out) = read c /\ write (snd out) = write c
  /\ deadline_err (conn (snd out)) = deadline_err (conn c)
  /\ write_err (conn (snd out)) = write_err (conn c)
  /\ match write c with
     | writePkt_fn =>
         sent (conn (snd out))
         = sent (conn c) ++ frames [newPkt execCommand (reqID c) b]
         /\ reqID (snd out) = Int32.add (reqID c) 1
     | writeMulti_fn =>
         sent (conn (snd out))
         = sent (conn c)
           ++ frames [ newPkt execCommand (reqID c) b;
                       newPkt responseValue (Int32.add (reqID c) 1) [] ]
         /\ reqID (snd out) = Int32.add (Int32.add (reqID c) 1) 1
     end.

(** ** Concrete inputs *)

(** A connection in working order on which nothing was sent yet. *)
Definition conn0 : Conn :=
  {| deadline_err := None; write_err := None; sent := [] |}.

(** Cut a byte sequence into pieces of the given sizes (the rest last). *)
Fixpoint pieces (sizes : list nat) (bs : bytes) : stream :=
  match sizes with
  | [] => [Data bs]
  | k :: sizes' => Data (firstn k bs) :: pieces sizes' (skipn k bs)
  end.

(** The test of the source: "test " and "me" for request 41, then the echo
    of the sentinel 42, arriving in pieces that respect no frame. *)
Definition reply_test_me : list pkt :=
  [ newPkt responseValue 41 (lit "test ");
    newPkt responseValue 41 (lit "me");
    newPkt responseValue 42 [];
    newPkt responseValue 42 responseBody ].

Definition client_test_me : Client :=
  {| conn := conn0; pwd := [];
     reader := pieces [3; 0; 30; 1]%nat (frames reply_test_me);
     reqID := 43; read := readMulti_fn; write := writeMulti_fn |}.

(** The echo of the sentinel comes back with a body. *)
Definition client_bad_echo : Client :=
  {| conn := conn0; pwd := [];
     reader :=
       pieces [7]%nat
         (frames [ newPkt responseValue 41 (lit "test ");
                   newPkt responseValue 42 (lit "x") ]);
     reqID := 43; read := readMulti_fn; write := writeMulti_fn |}.

(** A response-value packet with a stray id, as the first packet with
    another id than the request's and after the empty sentinel packet. *)
Definition client_stray_id : Client :=
  {| conn := conn0; pwd := [];
     reader :=
       pieces [7]%nat
         (frames [ newPkt responseValue 41 (lit "test ");
                   newPkt responseValue 40 (lit "x") ]);
     reqID := 43; read := readMulti_fn; write := writeMulti_fn |}.

Definition client_stray_id_late : Client :=
  {| conn := conn0; pwd := [];
     reader :=
       pieces [20; 9]%nat
         (frames [ newPkt responseValue 41 (lit "test ");
                   newPkt responseValue 42 [];
                   newPkt responseValue 41 (lit "me");
                   newPkt responseValue 40 (lit "x") ]);
     reqID := 43; read := readMulti_fn; write := writeMulti_fn |}.

(** Packets of the exec type: one with an id that is neither 41 nor 42;
    one with id 42 and a body, the first packet with that id; and one after
    the empty sentinel packet. *)
Definition client_exec_typed : Client :=
  {| conn := conn0; pwd := [];
     reader := pieces [7]%nat (frames [newPkt execCommand 40 (lit "x")]);
     reqID := 43; read := readMulti_fn; write := writeMulti_fn |}.

Definition client_exec_typed_echo : Client :=
  {| conn := conn0; pwd := [];
     reader :=
       pieces [7]%nat
         (frames [ newPkt responseValue 41 (lit "test ");
                   newPkt execCommand 42 (lit "x") ]);
     reqID := 43; read := readMulti_fn; write := writeMulti_fn |}.

Definition client_exec_typed_late : Client :=
  {| conn := conn0; pwd := [];
     reader :=
       pieces [20; 9]%nat
         (frames [ newPkt responseValue 41 (lit "test ");
                   newPkt responseValue 42 [];
                   newPkt execCommand 41 (lit "me") ]);
     reqID := 43; read := readMulti_fn; write := writeMulti_fn |}.

(** A response of the auth type with the expected id, in single-packet
    mode. *)
Definition client_single : Client :=
  {| conn := conn0; pwd := [];
     reader := pieces [5]%nat (frames [newPkt auth_type 3 (lit "hi")]);
     reqID := 3; read := readSingle_fn; write := writePkt_fn |}.

(** The command [echo hi]. *)
Definition echo_hi : Cmd := WithArgs (NewCmd (lit "echo")) [VString (lit "hi")].

(** The handshake with a server that echoes first. *)
Definition client_auth : Client :=
  {| conn := conn0; pwd := lit "secret";
     reader :=
       pieces [13; 2]%nat
         (frames [newPkt responseValue 0 []; newPkt authResponse 0 []]);
     reqID := 0; read := readMulti_fn; write := writeMulti_fn |}.

(** The command [echo] with an acute accent on its first letter, which
    takes the two bytes [0xC3 0xA9]. *)
Definition e_acute_cho : bytes := [to_byte 0xC3; to_byte 0xA9] ++ lit "cho".

(** A body with a zero byte in it. *)
Definition body_with_zero : bytes := lit "a" ++ [zero_byte] ++ lit "b".

(** A frame whose size field is 9, and a frame whose trailer is "b\0". *)
Definition undersized : stream := [Data (le32 9 ++ lit "rest")].

Definition bad_trailer : stream :=
  pieces [2; 11]%nat
    (wire 12 1 responseValue (lit "ab" ++ [to_byte 0x62; zero_byte])).

(** The exchange of the source's mock server: the reply "test me" to
    request 0, and the two packets that answer the sentinel 1. *)
Definition client_echo : Client :=
  {| conn := conn0; pwd := [];
     reader :=
       pieces [4; 4; 4; 9; 14]%nat
         (frames [ newPkt responseValue 0 (lit "test me");
                   newPkt responseValue 1 [];
                   newPkt responseValue 1 responseBody ]);
     reqID := 0; read := readMulti_fn; write := writeMulti_fn |}.

(** The sentinel is answered with "done" where the marker should be. *)
Definition client_short_marker : Client :=
  {| conn := conn0; pwd := [];
     reader :=
       pieces [20; 20]%nat
         (frames [ newPkt responseValue 41 (lit "test ");
                   newPkt responseValue 42 [];
                   newPkt responseValue 42 (lit "done") ]);
     reqID := 43; read := readMulti_fn; write := writeMulti_fn |}.

(** A client whose connection was reset: every write fails. *)
Definition client_reset : Client :=
  {| conn :=
       {| deadline_err := None;
          write_err := Some (net_Error "connection reset"); sent := [] |};
     pwd := []; reader := []; reqID := 7;
     read := readMulti_fn; write := writeMulti_fn |}.

(** A client whose server closed the connection without an answer. *)
Definition client_closed : Client :=
  {| conn := conn0; pwd := []; reader := []; reqID := 7;
     read := readSingle_fn; write := writePkt_fn |}.

(** A server that refuses the password: an auth-response with id -1. *)
Definition client_auth_refused : Client :=
  {| conn := conn0; pwd := lit "secret";
     reader := pieces [6]%nat (frames [newPkt authResponse (-1) []]);
     reqID := 0; read := readMulti_fn; write := writeMulti_fn |}.

(** What the mock server receives for "status" sent as request 5. *)
Definition request_status : stream :=
  pieces [10]%nat (frames [newPkt execCommand 5 (lit "status")]).

(** * Properties *)

(** ** Integers and bytes *)

Lemma wrap_small (z : Z) : Int32.InRange z -> Int32.wrap z = z.
Proof.
  unfold Int32.InRange, Int32.wrap, Int32.min, Int32.max. intros H.
  rewrite Z.mod_small; lia.
Qed.

Lemma wrap_range (z : Z) : Int32.InRange (Int32.wrap z).
Proof.
  unfold Int32.InRange, Int32.wrap, Int32.min, Int32.max.
  pose proof (Z.mod_pos_bound (z + 2 ^ 31) (2 ^ 32) ltac:(lia)). lia.
Qed.

Lemma byte_val_range (b : byte) : 0 <= byte_val b < 256.
Proof.
  unfold byte_val. pose proof (N_ascii_bounded b). lia.
Qed.

Lemma to_byte_val (b : byte) : to_byte (byte_val b) = b.
Proof.
  unfold to_byte. change 255 with (Z.ones 8).
  rewrite Z.land_ones by lia.
  rewrite Z.mod_small by (apply byte_val_range).
  unfold byte_val. rewrite N2Z.id. apply ascii_N_embedding.
Qed.

Lemma byte_val_to_byte (z : Z) : byte_val (to_byte z) = z mod 256.
Proof.
  unfold byte_val, to_byte. change 255 with (Z.ones 8).
  rewrite Z.land_ones by lia. change (2 ^ 8) with 256.
  pose proof (Z.mod_pos_bound z 256 ltac:(lia)).
  rewrite N_ascii_embedding by lia. lia.
Qed.

Lemma byte_eqb_eq (a b : byte) : byte_eqb a b = true <-> a = b.
Proof. apply Ascii.eqb_eq. Qed.

Lemma bytes_Equal_eq (a b : bytes) : bytes_Equal a b = true <-> a = b.
Proof.
  revert b; induction a as [|x a IH]; intros [|y b]; simpl;
    try (split; [discriminate | discriminate]); try tauto.
  rewrite andb_true_iff, byte_eqb_eq, IH. split.
  - intros [-> ->]; reflexivity.
  - intros E; injection E; auto.
Qed.

(** Two numbers with no common bit add up to their [lor]. *)
Lemma lor_shiftl_add (lo hi k : Z) :
  0 <= k -> 0 <= lo < 2 ^ k -> Z.lor lo (Z.shiftl hi k) = lo + hi * 2 ^ k.
Proof.
  intros Hk Hlo.
  rewrite <- Z.lxor_lor, <- Z.add_nocarry_lxor, Z.shiftl_mul_pow2; auto.
  all: apply Z.bits_inj'; intros n Hn; rewrite Z.land_spec, Z.bits_0.
  all: destruct (Z.lt_ge_cases n k) as [Hlt|Hge].
  all: try (rewrite (Z.shiftl_spec_low hi k n Hlt); apply andb_false_r).
  all: replace (Z.testbit lo n) with false; auto.
  all: symmetry; destruct (Z.eq_dec lo 0) as [->|Hne]; [apply Z.bits_0|].
  all: apply Z.bits_above_log2; [lia|].
  all: apply Z.lt_le_trans with k; auto; apply Z.log2_lt_pow2; lia.
Qed.

Lemma le32_length (v : Z) : length (le32 v) = 4%nat.
Proof. reflexivity. Qed.

(** Decoding the four bytes of an [int32] gives the number back. *)
Lemma le32_decode_le32 (v : Z) : Int32.InRange v -> le32_decode (le32 v) = v.
Proof.
  intros Hv. unfold le32, le32_decode. rewrite !byte_val_to_byte.
  rewrite !Z.shiftr_div_pow2 by lia.
  pose proof (Z.mod_pos_bound v 256 ltac:(lia)).
  pose proof (Z.mod_pos_bound (v / 2 ^ 8) 256 ltac:(lia)).
  pose proof (Z.mod_pos_bound (v / 2 ^ 16) 256 ltac:(lia)).
  pose proof (Z.mod_pos_bound (v / 2 ^ 24) 256 ltac:(lia)).
  rewrite (lor_shiftl_add (v mod 256)) by lia.
  rewrite (lor_shiftl_add (v mod 256 + _)) by lia.
  rewrite (lor_shiftl_add (v mod 256 + _ + _)) by lia.
  unfold Int32.wrap. unfold Int32.InRange, Int32.min, Int32.max in Hv.
  change (2 ^ 8) with 256 in *. change (2 ^ 16) with 65536 in *.
  change (2 ^ 24) with 16777216 in *. change (2 ^ 31) with 2147483648 in *.
  change (2 ^ 32) with 4294967296 in *.
  Z.div_mod_to_equations. lia.
Qed.

(** ** Reading from a stream *)

(** A read of [k > 0] bytes from a stream that still has [need ++ rest] to
    give, [need] not empty: no error, a prefix of [need ++ rest] of at most [k]
    bytes, and either an event less in the stream or all [k] bytes. *)
Lemma Read_available (r : stream) (k : nat) (x : byte) (more : bytes) :
  available r = x :: more ->
  exists chunk r',
    Read r k = (chunk, None, r') /\
    chunk ++ available r' = x :: more /\
    (length chunk <= k)%nat /\
    (length r' <= length r)%nat /\
    (length chunk = k \/ S (length r') = length r).
Proof.
  destruct r as [|[bs|e] r']; simpl; try discriminate.
  intros Hav. destruct (Nat.leb_spec (length bs) k) as [Hle|Hgt].
  - exists bs, r'. repeat split; auto.
  - exists (firstn k bs), (Data (skipn k bs) :: r'). simpl.
    rewrite app_assoc, firstn_skipn, length_firstn.
    repeat split; auto; lia.
Qed.

Lemma app_eq_prefix (a b c d : bytes) :
  a ++ b = c ++ d -> (length a <= length c)%nat ->
  exists c', c = a ++ c' /\ b = c' ++ d.
Proof.
  revert c; induction a as [|x a IH]; intros c E L; simpl in *.
  - exists c; auto.
  - destruct c as [|y c]; simpl in *; [lia|].
    injection E as -> E. destruct (IH c E ltac:(lia)) as (c' & -> & ->).
    exists c'; auto.
Qed.

(** [io.ReadFull] obtains the [k] bytes when the stream has them, however
    they are cut into pieces. *)
Lemma io_ReadFull_available (k : nat) :
  forall (fuel : nat) (r : stream) (got need rest : bytes),
    available r = need ++ rest ->
    (length got + length need = k)%nat ->
    (length r + 2 <= fuel)%nat \/ (need = [] /\ (1 <= fuel)%nat) ->
    exists r',
      io_ReadFull fuel r k got = (Ok (got ++ need), r') /\
      available r' = rest /\ (length r' <= length r)%nat.
Proof.
  induction fuel as [|fuel IH]; intros r got need rest Hav Hlen Hfuel;
    [lia|].
  simpl. destruct need as [|x need].
  - simpl in Hlen. replace (length got <? k)%nat with false
      by (symmetry; apply Nat.ltb_ge; lia).
    rewrite app_nil_r. exists r; auto.
  - simpl in Hlen. replace (length got <? k)%nat with true
      by (symmetry; apply Nat.ltb_lt; lia).
    destruct Hfuel as [Hfuel|[Hf _]]; [|discriminate].
    destruct (Read_available r (k - length got) x (need ++ rest) Hav)
      as (chunk & r' & -> & Hsplit & Hck & Hr' & Hprog).
    change (x :: need ++ rest) with ((x :: need) ++ rest) in Hsplit.
    destruct (app_eq_prefix chunk (available r') (x :: need) rest Hsplit)
      as (need' & Hneed & Hav'); [simpl; lia|].
    destruct (IH r' (got ++ chunk) need' rest Hav') as (r'' & E & A & L).
    + rewrite length_app. apply (f_equal (@length _)) in Hneed.
      rewrite length_app in Hneed. simpl in Hneed. lia.
    + destruct Hprog as [Hall|Hless]; [right|left; lia].
      apply (f_equal (@length _)) in Hneed.
      rewrite length_app in Hneed. simpl in Hneed.
      split; [destruct need'; simpl in *; auto; lia | lia].
    + exists r''. rewrite E, <- app_assoc, <- Hneed. repeat split; auto; lia.
Qed.

(** [binary.Read] of an [int32] whose four bytes the stream has. *)
Lemma binary_Read_available (fuel : nat) (r : stream) (v : Z) (rest : bytes) :
  Int32.InRange v ->
  available r = le32 v ++ rest ->
  (length r + 2 <= fuel)%nat ->
  exists r',
    binary_Read fuel r = (Ok v, r') /\
    available r' = rest /\ (length r' <= length r)%nat.
Proof.
  intros Hv Hav Hfuel. unfold binary_Read.
  destruct (io_ReadFull_available 4 fuel r [] (le32 v) rest Hav)
    as (r' & -> & A & L); auto.
  exists r'. simpl app. rewrite le32_decode_le32 by assumption. auto.
Qed.

(** ** Decoding a packet *)

Lemma firstn_length_app (a b : bytes) : firstn (length a) (a ++ b) = a.
Proof. induction a; simpl; congruence. Qed.

Lemma skipn_length_app (a b : bytes) (n : nat) :
  skipn (length a + n) (a ++ b) = skipn n b.
Proof. induction a; simpl; auto. Qed.

Lemma slice_from_app (a b : bytes) :
  slice_from (a ++ b) (Z.of_nat (length a)) = Some b.
Proof.
  unfold slice_from. rewrite length_app, Nat2Z.id.
  replace ((0 <=? Z.of_nat (length a))
           && (Z.of_nat (length a) <=? Z.of_nat (length a + length b)))
    with true by (symmetry; apply andb_true_iff; split; apply Z.leb_le; lia).
  f_equal. rewrite <- (Nat.add_0_r (length a)). apply skipn_length_app.
Qed.

Lemma store_app (a pad chunk : bytes) :
  store (a ++ pad) (Z.of_nat (length a)) chunk
  = (a ++ chunk) ++ skipn (length chunk) pad.
Proof.
  unfold store. rewrite Nat2Z.id, firstn_length_app, skipn_length_app.
  now rewrite app_assoc.
Qed.

(** The payload loop obtains the [Size - 8] bytes of the raw payload when the
    stream has them, and goes on to the trailer check. *)
Lemma ReadFrom_payload_available (size id type n : Z) :
  Int32.InRange size -> 10 <= size ->
  forall (fuel : nat) (r : stream) (filled pad need rest : bytes),
    length pad = length need ->
    Z.of_nat (length filled + length need) = size - 8 ->
    available r = need ++ rest ->
    (length r + 2 <= fuel)%nat \/ (need = [] /\ (1 <= fuel)%nat) ->
    exists r',
      ReadFrom_payload fuel r None
        {| Size := size; ID := id; Type_ := type; body := filled ++ pad |}
        n (Z.of_nat (length filled))
      = ReadFrom_trailer
          {| Size := size; ID := id; Type_ := type; body := filled ++ need |}
          n (size - 8) r'
      /\ available r' = rest /\ (length r' <= length r)%nat.
Proof.
  intros Hsize Hmin.
  assert (Hsub : Int32.sub size 8 = size - 8).
  { apply wrap_small. unfold Int32.InRange, Int32.min, Int32.max in *. lia. }
  induction fuel as [|fuel IH];
    intros r filled pad need rest Hpad Hlen Hav Hfuel; [lia|].
  cbn [ReadFrom_payload Size body]. rewrite Hsub.
  destruct need as [|x need].
  - destruct pad; [|discriminate]. simpl in Hlen.
    replace (Z.of_nat (length filled) <? size - 8) with false
      by (symmetry; apply Z.ltb_ge; lia).
    exists r. replace (size - 8) with (Z.of_nat (length filled)) by lia. auto.
  - replace (Z.of_nat (length filled) <? size - 8) with true
      by (symmetry; apply Z.ltb_lt; simpl in Hlen; lia).
    rewrite slice_from_app.
    destruct Hfuel as [Hfuel|[Hf _]]; [|discriminate].
    destruct (Read_available r (length pad) x (need ++ rest) Hav)
      as (chunk & r' & -> & Hsplit & Hck & Hr' & Hprog).
    change (x :: need ++ rest) with ((x :: need) ++ rest) in Hsplit.
    destruct (app_eq_prefix chunk (available r') (x :: need) rest Hsplit)
      as (need' & Hneed & Hav'); [lia|].
    assert (Hl : length (x :: need) = (length chunk + length need')%nat)
      by (rewrite Hneed; apply length_app).
    unfold set_body; cbn [Size ID Type_ body]. rewrite store_app.
    assert (Hadd : Int32.add (Z.of_nat (length filled))
                     (Z.of_nat (length chunk))
                   = Z.of_nat (length (filled ++ chunk))).
    { rewrite length_app, Nat2Z.inj_add. apply wrap_small.
      unfold Int32.InRange, Int32.min, Int32.max in *. lia. }
    rewrite Hadd.
    destruct (IH r' (filled ++ chunk) (skipn (length chunk) pad) need' rest)
      as (r'' & E & A & L).
    + rewrite length_skipn. lia.
    + rewrite length_app. lia.
    + exact Hav'.
    + destruct Hprog as [Hall|Hless]; [right|left; lia].
      split; [destruct need'; simpl in *; auto; lia | lia].
    + exists r''. rewrite E, Hneed, app_assoc. repeat split; auto; lia.
Qed.

(** [ReadFrom] on a stream that has a whole frame: header of three [int32]
    and [size - 8] bytes of raw payload, cut into pieces in any way. *)
Lemma ReadFrom_wire (fuel : nat) (r : stream) (size id type : Z)
    (raw rest : bytes) :
  Int32.InRange size -> Int32.InRange id -> Int32.InRange type ->
  10 <= size ->
  Z.of_nat (length raw) = size - 8 ->
  available r = wire size id type raw ++ rest ->
  (length r + 2 <= fuel)%nat ->
  exists r',
    ReadFrom fuel r = (size + 4, decoded size id type raw, r') /\
    available r' = rest /\ (length r' <= length r)%nat.
Proof.
  intros Hs Hi Ht Hmin Hraw Hav Hfuel. unfold wire in Hav.
  rewrite <- !app_assoc in Hav. unfold ReadFrom.
  destruct (binary_Read_available fuel r size _ Hs Hav Hfuel)
    as (r1 & -> & A1 & L1).
  replace (size <? 10) with false by (symmetry; apply Z.ltb_ge; lia).
  destruct (binary_Read_available fuel r1 id _ Hi A1 ltac:(lia))
    as (r2 & -> & A2 & L2).
  destruct (binary_Read_available fuel r2 type _ Ht A2 ltac:(lia))
    as (r3 & -> & A3 & L3).
  assert (Hsub : Int32.sub size 8 = size - 8).
  { apply wrap_small. unfold Int32.InRange, Int32.min, Int32.max in *. lia. }
  unfold make. rewrite Hsub.
  replace (size - 8 <? 0) with false by (symmetry; apply Z.ltb_ge; lia).
  destruct (ReadFrom_payload_available size id type (0 + 4 + 4 + 4) Hs Hmin
              fuel r3 [] (repeat zero_byte (Z.to_nat (size - 8))) raw rest)
    as (r4 & E & A4 & L4); auto.
  - rewrite repeat_length. lia.
  - left; lia.
  - simpl app in E. simpl length in E. change (Z.of_nat 0) with 0 in E.
    exists r4. rewrite E. split; [|split; [auto|lia]].
    unfold ReadFrom_trailer, decoded; cbn [body].
    assert (H2 : (2 <= length raw)%nat) by lia.
    unfold slice_from, slice_to.
    replace ((0 <=? Z.of_nat (length raw) - 2)
             && (Z.of_nat (length raw) - 2 <=? Z.of_nat (length raw)))
      with true by (symmetry; apply andb_true_iff; split; apply Z.leb_le; lia).
    replace (Z.to_nat (Z.of_nat (length raw) - 2)) with (length raw - 2)%nat
      by lia.
    replace (0 + 4 + 4 + 4 + (size - 8)) with (size + 4) by lia.
    destruct (bytes_Equal _ _); reflexivity.
Qed.

(** ** Safety of the decoder on arbitrary streams *)

Lemma Read_length (r : stream) (k : nat) :
  (length (fst (fst (Read r k))) <= k)%nat.
Proof.
  destruct r as [|[bs|e] r']; simpl; try lia.
  destruct (Nat.leb_spec (length bs) k); simpl; [lia|].
  rewrite length_firstn. lia.
Qed.

Lemma io_ReadFull_no_panic (k : nat) :
  forall (fuel : nat) (r : stream) (got : bytes),
    fst (io_ReadFull fuel r k got) <> Panic.
Proof.
  induction fuel as [|fuel IH]; intros r got; simpl; [discriminate|].
  destruct (length got <? k)%nat; [|discriminate].
  destruct (Read r (k - length got)) as [[chunk [e|]] r']; [|apply IH].
  destruct (k <=? length (got ++ chunk))%nat; [discriminate|].
  destruct (0 <? length (got ++ chunk))%nat; [|discriminate].
  destruct e; discriminate.
Qed.

(** A decoded [int32] is an [int32], and [binary.Read] does not panic. *)
Lemma binary_Read_cases (fuel : nat) (r : stream) :
  match fst (binary_Read fuel r) with
  | Ok v => Int32.InRange v
  | Panic => False
  | _ => True
  end.
Proof.
  unfold binary_Read. pose proof (io_ReadFull_no_panic 4 fuel r []) as NP.
  destruct (io_ReadFull fuel r 4 []) as [[bs| | |] r']; simpl in *; auto.
  unfold le32_decode.
  destruct bs as [|b0 [|b1 [|b2 [|b3 [|]]]]];
    try apply wrap_range; unfold Int32.InRange, Int32.min, Int32.max; lia.
Qed.

Lemma store_length (s : bytes) (i : Z) (chunk : bytes) :
  0 <= i -> (Z.to_nat i + length chunk <= length s)%nat ->
  length (store s i chunk) = length s.
Proof.
  intros Hi Hl. unfold store.
  rewrite !length_app, length_firstn, length_skipn. lia.
Qed.

Lemma ReadFrom_trailer_post (p : pkt) (n : Z) (r : stream) :
  10 <= Size p -> Z.of_nat (length (body p)) = Size p - 8 ->
  ReadFrom_post (snd (fst (ReadFrom_trailer p n (Size p - 8) r))).
Proof.
  intros Hmin Hlen. unfold ReadFrom_trailer, slice_from, slice_to.
  replace ((0 <=? Z.of_nat (length (body p)) - 2)
           && (Z.of_nat (length (body p)) - 2 <=? Z.of_nat (length (body p))))
    with true by (symmetry; apply andb_true_iff; split; apply Z.leb_le; lia).
  destruct (negb _); simpl; auto.
  rewrite length_firstn. lia.
Qed.

Lemma ReadFrom_payload_post :
  forall (fuel : nat) (r : stream) (p : pkt) (n i : Z),
    Int32.InRange (Size p) -> 10 <= Size p ->
    Z.of_nat (length (body p)) = Size p - 8 ->
    0 <= i <= Size p - 8 ->
    ReadFrom_post (snd (fst (ReadFrom_payload fuel r None p n i))).
Proof.
  induction fuel as [|fuel IH]; intros r p n i Hs Hmin Hlen Hi; simpl; auto.
  assert (Hsub : Int32.sub (Size p) 8 = Size p - 8).
  { apply wrap_small. unfold Int32.InRange, Int32.min, Int32.max in *. lia. }
  rewrite Hsub. destruct (Z.ltb_spec i (Size p - 8)) as [Hlt|Hge].
  - unfold slice_from.
    replace ((0 <=? i) && (i <=? Z.of_nat (length (body p)))) with true
      by (symmetry; apply andb_true_iff; split; apply Z.leb_le; lia).
    pose proof (Read_length r (length (skipn (Z.to_nat i) (body p)))) as Hk.
    destruct (Read r (length (skipn (Z.to_nat i) (body p))))
      as [[chunk err2] r'].
    simpl in Hk. rewrite length_skipn in Hk.
    assert (Hadd : Int32.add i (Z.of_nat (length chunk))
                   = i + Z.of_nat (length chunk)).
    { apply wrap_small. unfold Int32.InRange, Int32.min, Int32.max in *. lia. }
    rewrite Hadd. apply IH; simpl; auto; [|lia].
    rewrite store_length; auto; lia.
  - replace i with (Size p - 8) by lia.
    apply ReadFrom_trailer_post; auto.
Qed.

Lemma ReadFrom_post_holds (fuel : nat) (r : stream) :
  ReadFrom_post (snd (fst (ReadFrom fuel r))).
Proof.
  unfold ReadFrom.
  pose proof (binary_Read_cases fuel r) as H1.
  destruct (binary_Read fuel r) as [[size| | |] r1]; simpl in *; auto.
  destruct (Z.ltb_spec size 10) as [|Hmin]; simpl; auto.
  pose proof (binary_Read_cases fuel r1) as H2.
  destruct (binary_Read fuel r1) as [[id| | |] r2]; simpl in *; auto.
  pose proof (binary_Read_cases fuel r2) as H3.
  destruct (binary_Read fuel r2) as [[type| | |] r3]; simpl in *; auto.
  assert (Hsub : Int32.sub size 8 = size - 8).
  { apply wrap_small. unfold Int32.InRange, Int32.min, Int32.max in *. lia. }
  unfold make. rewrite Hsub.
  replace (size - 8 <? 0) with false by (symmetry; apply Z.ltb_ge; lia).
  apply ReadFrom_payload_post; simpl; auto; try lia.
  rewrite repeat_length. lia.
Qed.

(** ** Encoding *)

Lemma encode_newPkt (t id : Z) (b : bytes) :
  fits b ->
  encode (newPkt t id b)
  = Ok (wire (Z.of_nat (length b) + 10) id t (b ++ [zero_byte; zero_byte])).
Proof.
  unfold fits, Int32.max. intros Hb.
  unfold encode, newPkt; cbn [Size ID Type_ body].
  assert (Hs : Int32.wrap (Z.of_nat (length b) + 10)
               = Z.of_nat (length b) + 10).
  { apply wrap_small. unfold Int32.InRange, Int32.min, Int32.max. lia. }
  rewrite Hs. unfold Int32.add. rewrite wrap_small
    by (unfold Int32.InRange, Int32.min, Int32.max; lia).
  replace (Z.of_nat (length b) + 10 + 4 <? 0) with false
    by (symmetry; apply Z.ltb_ge; lia).
  reflexivity.
Qed.

Lemma decoded_terminated (size id type : Z) (b : bytes) :
  decoded size id type (b ++ [zero_byte; zero_byte])
  = Ok {| Size := size; ID := id; Type_ := type; body := b |}.
Proof.
  unfold decoded. rewrite length_app. cbn [length].
  replace (length b + 2 - 2)%nat with (length b) by lia.
  rewrite <- (Nat.add_0_r (length b)) at 1.
  rewrite skipn_length_app, firstn_length_app. reflexivity.
Qed.

(** A stream that has the encoding of a packet delivers the packet. *)
Lemma ReadFrom_encoded (fuel : nat) (r : stream) (t id : Z) (b rest : bytes) :
  Int32.InRange t -> Int32.InRange id -> fits b ->
  available r
  = wire (Z.of_nat (length b) + 10) id t (b ++ [zero_byte; zero_byte])
    ++ rest ->
  (length r + 2 <= fuel)%nat ->
  exists r',
    ReadFrom fuel r = (Z.of_nat (length b) + 14, Ok (newPkt t id b), r') /\
    available r' = rest /\ (length r' <= length r)%nat.
Proof.
  unfold fits, Int32.max. intros Ht Hi Hb Hav Hfuel.
  assert (Hs : Int32.InRange (Z.of_nat (length b) + 10))
    by (unfold Int32.InRange, Int32.min, Int32.max; lia).
  assert (Hraw : Z.of_nat (length (b ++ [zero_byte; zero_byte]))
                 = Z.of_nat (length b) + 10 - 8)
    by (rewrite length_app; simpl; lia).
  destruct (ReadFrom_wire fuel r _ id t _ rest Hs Hi Ht ltac:(lia) Hraw Hav
              Hfuel) as (r' & E & A & L).
  exists r'. rewrite E, decoded_terminated. unfold newPkt.
  rewrite (wrap_small _ Hs).
  replace (Z.of_nat (length b) + 10 + 4) with (Z.of_nat (length b) + 14) by lia.
  auto.
Qed.


(** ** Fuel *)

(** More fuel does not change an outcome that was reached. *)
Lemma io_ReadFull_mono (k : nat) :
  forall (fuel : nat) (r : stream) (got : bytes) (res : result bytes)
         (r' : stream),
    io_ReadFull fuel r k got = (res, r') -> res <> OutOfFuel ->
    forall fuel' : nat, (fuel <= fuel')%nat ->
      io_ReadFull fuel' r k got = (res, r').
Proof.
  induction fuel as [|fuel IH]; intros r got res r' E NF fuel' Hle.
  - simpl in E. injection E as <- <-. congruence.
  - destruct fuel' as [|fuel']; [lia|]. simpl in *.
    destruct (length got <? k)%nat; [|assumption].
    destruct (Read r (k - length got)) as [[chunk [e|]] r1]; [assumption|].
    apply IH; auto; lia.
Qed.

Lemma binary_Read_mono (fuel : nat) (r : stream) (res : result Z)
    (r' : stream) :
  binary_Read fuel r = (res, r') -> res <> OutOfFuel ->
  forall fuel' : nat, (fuel <= fuel')%nat -> binary_Read fuel' r = (res, r').
Proof.
  unfold binary_Read. intros E NF fuel' Hle.
  destruct (io_ReadFull fuel r 4 []) as [res0 r0] eqn:E0.
  assert (N0 : res0 <> OutOfFuel).
  { intros ->. injection E as <- <-. congruence. }
  rewrite (io_ReadFull_mono 4 fuel r [] res0 r0 E0 N0 fuel' Hle).
  assumption.
Qed.

Lemma ReadFrom_payload_mono :
  forall (fuel : nat) (r : stream) (err : option error) (p : pkt) (n i : Z)
         (out : Z * result pkt * stream),
    ReadFrom_payload fuel r err p n i = out ->
    snd (fst out) <> OutOfFuel ->
    forall fuel' : nat, (fuel <= fuel')%nat ->
      ReadFrom_payload fuel' r err p n i = out.
Proof.
  induction fuel as [|fuel IH]; intros r err p n i out E NF fuel' Hle.
  - simpl in E. subst out. simpl in NF. congruence.
  - destruct fuel' as [|fuel']; [lia|]. simpl in *.
    destruct (i <? Int32.sub (Size p) 8); [|assumption].
    destruct (slice_from (body p) i) as [dst|]; [|assumption].
    destruct (Read r (length dst)) as [[chunk err2] r1].
    destruct err; [assumption|].
    apply IH; auto; lia.
Qed.

Lemma ReadFrom_mono (fuel : nat) (r : stream) (out : Z * result pkt * stream) :
  ReadFrom fuel r = out -> snd (fst out) <> OutOfFuel ->
  forall fuel' : nat, (fuel <= fuel')%nat -> ReadFrom fuel' r = out.
Proof.
  unfold ReadFrom. intros E NF fuel' Hle.
  destruct (binary_Read fuel r) as [res1 r1] eqn:E1.
  assert (N1 : res1 <> OutOfFuel)
    by (intros ->; subst out; simpl in NF; congruence).
  rewrite (binary_Read_mono fuel r res1 r1 E1 N1 fuel' Hle).
  destruct res1 as [size| | |]; try assumption.
  destruct (size <? 10); [assumption|].
  destruct (binary_Read fuel r1) as [res2 r2] eqn:E2.
  assert (N2 : res2 <> OutOfFuel)
    by (intros ->; subst out; simpl in NF; congruence).
  rewrite (binary_Read_mono fuel r1 res2 r2 E2 N2 fuel' Hle).
  destruct res2 as [id| | |]; try assumption.
  destruct (binary_Read fuel r2) as [res3 r3] eqn:E3.
  assert (N3 : res3 <> OutOfFuel)
    by (intros ->; subst out; simpl in NF; congruence).
  rewrite (binary_Read_mono fuel r2 res3 r3 E3 N3 fuel' Hle).
  destruct res3 as [type| | |]; try assumption.
  destruct (make (Int32.sub size 8)); [|assumption].
  eapply ReadFrom_payload_mono; eauto.
Qed.

(** ** Running with enough fuel *)

Lemma delivers_all_split (ps qs : list pkt) :
  forall r r2, delivers_all r (ps ++ qs) r2 ->
    exists r1, delivers_all r ps r1 /\ delivers_all r1 qs r2.
Proof.
  induction ps as [|p ps IH]; simpl; intros r r2 H.
  - exists r. split; [constructor | assumption].
  - inversion H as [|? r1 ? ? ? Hp Hrest]; subst.
    destruct (IH _ _ Hrest) as (r1' & Hps & Hqs).
    exists r1'. split; [econstructor; eauto | assumption].
Qed.

Lemma delivers_eventually (r r' : stream) (p : pkt) :
  delivers r p r' ->
  exists n : Z, eventually (fun fuel => ReadFrom fuel r) (n, Ok p, r').
Proof.
  intros (f0 & n & E). exists n, f0. intros fuel Hf.
  apply (ReadFrom_mono f0 r _ E); [simpl; discriminate | assumption].
Qed.

Lemma readPkt_delivers (c : Client) (r' : stream) (p : pkt) :
  setDeadline c = None -> delivers (reader c) p r' ->
  eventually (fun fuel => readPkt fuel c) (Ok p, set_reader c r').
Proof.
  intros Hd D. destruct (delivers_eventually _ r' p D) as (n & f0 & H).
  exists f0. intros fuel Hf.
  unfold readPkt. rewrite Hd, (H fuel Hf). reflexivity.
Qed.

Lemma well_formed_newPkt (p : pkt) :
  well_formed p -> newPkt (Type_ p) (ID p) (body p) = p.
Proof.
  intros (_ & _ & Hf & Hs). destruct p as [s i t b]; simpl in *.
  unfold newPkt. rewrite wrap_small; [congruence|].
  unfold fits, Int32.InRange, Int32.min, Int32.max in *. lia.
Qed.

(** A stream that has the frames of [ps] delivers [ps]. *)
Lemma delivers_frames (ps : list pkt) :
  forall (r : stream) (rest : bytes),
    Forall well_formed ps ->
    available r = frames ps ++ rest ->
    exists r', delivers_all r ps r' /\ available r' = rest.
Proof.
  induction ps as [|p ps IH]; intros r rest Hwf Hav.
  - exists r. split; [constructor | assumption].
  - inversion Hwf as [|? ? Hp Hps]; subst. simpl in Hav.
    rewrite <- app_assoc in Hav.
    pose proof Hp as (Hi & Ht & Hf & Hs).
    destruct (ReadFrom_encoded (length r + 2) r _ _ _ _ Ht Hi Hf Hav
                ltac:(lia)) as (r1 & E & A1 & _).
    destruct (IH r1 rest Hps A1) as (r' & D & A').
    exists r'. split; [|assumption].
    econstructor; [|exact D].
    exists (length r + 2)%nat, (Z.of_nat (length (body p)) + 14).
    rewrite E, (well_formed_newPkt p Hp). reflexivity.
Qed.

(** ** The reassembly loop *)

Lemma add_one_neq (N : Z) : Int32.add N 1 <> N.
Proof.
  unfold Int32.add. intros E. pose proof (wrap_range (N + 1)) as R.
  rewrite E in R. revert E. unfold Int32.wrap.
  unfold Int32.InRange, Int32.min, Int32.max in R.
  change (2 ^ 31) with 2147483648 in *. change (2 ^ 32) with 4294967296.
  Z.div_mod_to_equations. lia.
Qed.

Lemma sentinel_not_data (N : Z) (p : pkt) :
  is_sentinel N p -> (ID p =? N) = false.
Proof.
  intros [_ E]. apply Z.eqb_neq. rewrite E. apply add_one_neq.
Qed.

(** One round of the loop, by the packet that arrives.  Each lemma reads:
    when the next packet is of the given kind, the loop from the current
    state returns what the loop returns from the next state. *)
Ltac loop_round Hd D k :=
  let f1 := fresh "f" in
  let H1 := fresh "H" in
  destruct (readPkt_delivers _ _ _ Hd D) as (f1 & H1);
  exists (S (Nat.max f1 k));
  intros [|fuel] Hfuel; [lia|];
  cbn [readMulti_loop]; rewrite H1 by lia.

Lemma readMulti_loop_data (c : Client) (N : Z) (r' : stream) (p : pkt)
    (buf : bytes) (cnt : Z) (out : result bytes * Client) :
  setDeadline c = None -> delivers (reader c) p r' -> is_data N p ->
  eventually
    (fun fuel => readMulti_loop fuel N (buf ++ body p) cnt (set_reader c r'))
    out ->
  eventually (fun fuel => readMulti_loop fuel N buf cnt c) out.
Proof.
  intros Hd D [Ht Hi] (f2 & H2). loop_round Hd D f2.
  rewrite Ht, Hi, !Z.eqb_refl. cbn [negb]. apply H2. lia.
Qed.

Lemma readMulti_loop_datas (N : Z) (ps : list pkt) :
  forall (c : Client) (r' : stream) (buf : bytes) (cnt : Z)
         (out : result bytes * Client),
    setDeadline c = None -> delivers_all (reader c) ps r' ->
    Forall (is_data N) ps ->
    eventually
      (fun fuel =>
         readMulti_loop fuel N (buf ++ concat (map body ps)) cnt
           (set_reader c r'))
      out ->
    eventually (fun fuel => readMulti_loop fuel N buf cnt c) out.
Proof.
  induction ps as [|p ps IH]; intros c r' buf cnt out Hd D Hall Hout.
  - inversion D; subst. simpl in Hout. rewrite app_nil_r in Hout.
    destruct c; exact Hout.
  - inversion D as [|? r1 ? ? ? Hp Hrest]; subst.
    inversion Hall as [|? ? Hdata Hall']; subst.
    apply (readMulti_loop_data c N r1 p buf cnt out Hd Hp Hdata).
    apply (IH (set_reader c r1) r' (buf ++ body p) cnt out Hd Hrest Hall').
    simpl in Hout. rewrite app_assoc in Hout. exact Hout.
Qed.

Lemma readMulti_loop_echo (c : Client) (N : Z) (r' : stream) (p : pkt)
    (buf : bytes) (out : result bytes * Client) :
  setDeadline c = None -> delivers (reader c) p r' -> is_sentinel N p ->
  body p = [] ->
  eventually (fun fuel => readMulti_loop fuel N buf 1 (set_reader c r')) out ->
  eventually (fun fuel => readMulti_loop fuel N buf 0 c) out.
Proof.
  intros Hd D S Hb (f2 & H2). loop_round Hd D f2.
  rewrite (sentinel_not_data N p S). destruct S as [Ht Hi].
  rewrite Ht, Hi, Hb, !Z.eqb_refl. cbn. apply H2. lia.
Qed.

Lemma readMulti_loop_marker (c : Client) (N : Z) (r' : stream) (p : pkt)
    (buf : bytes) :
  setDeadline c = None -> delivers (reader c) p r' -> is_sentinel N p ->
  body p = responseBody ->
  eventually (fun fuel => readMulti_loop fuel N buf 1 c)
    (Ok buf, set_reader c r').
Proof.
  intros Hd D S Hb. loop_round Hd D 0%nat.
  rewrite (sentinel_not_data N p S). destruct S as [Ht Hi].
  rewrite Ht, Hi, Hb, !Z.eqb_refl. reflexivity.
Qed.

Lemma readMulti_loop_bad_echo (c : Client) (N : Z) (r' : stream) (p : pkt)
    (buf : bytes) :
  setDeadline c = None -> delivers (reader c) p r' -> is_sentinel N p ->
  body p <> [] ->
  eventually (fun fuel => readMulti_loop fuel N buf 0 c)
    (Err (ErrMalformedResponse (Literal "non-empty body")), set_reader c r').
Proof.
  intros Hd D S Hb. loop_round Hd D 0%nat.
  rewrite (sentinel_not_data N p S). destruct S as [Ht Hi].
  rewrite Ht, Hi, !Z.eqb_refl. cbn [negb].
  change (0 + 1 =? 1) with true. cbv iota.
  destruct (body p); [congruence | reflexivity].
Qed.

Lemma readMulti_loop_bad_id (c : Client) (N : Z) (r' : stream) (p : pkt)
    (buf : bytes) (cnt : Z) :
  setDeadline c = None -> delivers (reader c) p r' ->
  Type_ p = responseValue -> ID p <> N -> ID p <> Int32.add N 1 ->
  eventually (fun fuel => readMulti_loop fuel N buf cnt c)
    (Err (ErrMalformedResponse
            (Sprintf "unexpected packet id %v" (OpInt32 (ID p)))),
     set_reader c r').
Proof.
  intros Hd D Ht Hn Hn1. loop_round Hd D 0%nat.
  rewrite Ht, Z.eqb_refl. cbn [negb].
  rewrite (proj2 (Z.eqb_neq _ _) Hn), (proj2 (Z.eqb_neq _ _) Hn1).
  reflexivity.
Qed.

Lemma readMulti_loop_bad_type (c : Client) (N : Z) (r' : stream) (p : pkt)
    (buf : bytes) (cnt : Z) :
  setDeadline c = None -> delivers (reader c) p r' ->
  Type_ p <> responseValue ->
  eventually (fun fuel => readMulti_loop fuel N buf cnt c)
    (Err (ErrMalformedResponse (Literal "unexpected type")), set_reader c r').
Proof.
  intros Hd D Ht. loop_round Hd D 0%nat.
  rewrite (proj2 (Z.eqb_neq _ _) Ht). reflexivity.
Qed.

(** ** Multi-packet mode *)

(** C1. In multi-packet mode, for a request sent with correlation id [N]:
    when the decoded response sequence consists of response-value packets
    with id [N], in any number, and two response-value packets with id
    [N+1], the first with an empty body and the second with the body
    [{0x00,0x01,0x00,0x00}], [readMulti] returns the concatenation of the
    bodies of the id-[N] packets in arrival order, and has consumed exactly
    that sequence.  ([N+1] is the [int32] sum; packets of the output may also
    arrive between the two sentinel packets.) *)
Theorem readMulti_reassembles (c : Client) (N : Z)
    (before between : list pkt) (s1 s2 : pkt) (r' : stream) :
  setDeadline c = None ->
  Forall (is_data N) before -> Forall (is_data N) between ->
  is_sentinel N s1 -> body s1 = [] ->
  is_sentinel N s2 -> body s2 = responseBody ->
  delivers_all (reader c) (before ++ [s1] ++ between ++ [s2]) r' ->
  eventually (fun fuel => readMulti fuel N c)
    (Ok (concat (map body (before ++ between))), set_reader c r').
Proof.
  intros Hd Hb Hm S1 B1 S2 B2 D.
  destruct (delivers_all_split _ _ _ _ D) as (r1 & D1 & D').
  inversion D' as [|? r2 ? ? ? Ds1 D'']; subst.
  destruct (delivers_all_split _ _ _ _ D'') as (r3 & D2 & D3).
  inversion D3 as [|? r4 ? ? ? Ds2 Dnil]; subst. inversion Dnil; subst.
  unfold readMulti.
  apply (readMulti_loop_datas N before c r1 [] 0 _ Hd D1 Hb).
  apply (readMulti_loop_echo (set_reader c r1) N r2 s1 _ _ Hd Ds1 S1 B1).
  apply (readMulti_loop_datas N between (set_reader c r2) r3 _ 1 _ Hd D2 Hm).
  rewrite map_app, concat_app. simpl app at 1.
  apply (readMulti_loop_marker (set_reader c r3) N r' s2 _ Hd Ds2 S2 B2).
Qed.

(** C6. In multi-packet mode, after response-value packets with id [N]:
    when the first decoded packet with id [N+1] is a response-value packet
    with a non-empty body, [readMulti] fails with the malformed-response
    error "non-empty body"; a decoded response-value packet whose id is
    neither [N] nor [N+1] fails with the malformed-response error that names
    the unexpected packet id, whether it arrives before the empty sentinel
    packet or after it; and a decoded packet of any other type fails with
    the malformed-response error "unexpected type" whatever its id and its
    body, before the empty sentinel packet or after it, the type being
    tested before the id. *)
Theorem readMulti_rejects (c : Client) (N : Z) (before : list pkt) :
  setDeadline c = None ->
  Forall (is_data N) before ->
  (forall (s : pkt) (r' : stream),
      is_sentinel N s -> body s <> [] ->
      delivers_all (reader c) (before ++ [s]) r' ->
      eventually (fun fuel => readMulti fuel N c)
        (Err (ErrMalformedResponse (Literal "non-empty body")),
         set_reader c r'))
  /\ (forall (p : pkt) (r' : stream),
      Type_ p = responseValue -> ID p <> N -> ID p <> Int32.add N 1 ->
      delivers_all (reader c) (before ++ [p]) r' ->
      eventually (fun fuel => readMulti fuel N c)
        (Err (ErrMalformedResponse
                (Sprintf "unexpected packet id %v" (OpInt32 (ID p)))),
         set_reader c r'))
  /\ (forall (s1 : pkt) (between : list pkt) (p : pkt) (r' : stream),
      is_sentinel N s1 -> body s1 = [] -> Forall (is_data N) between ->
      Type_ p = responseValue -> ID p <> N -> ID p <> Int32.add N 1 ->
      delivers_all (reader c) (before ++ [s1] ++ between ++ [p]) r' ->
      eventually (fun fuel => readMulti fuel N c)
        (Err (ErrMalformedResponse
                (Sprintf "unexpected packet id %v" (OpInt32 (ID p)))),
         set_reader c r'))
  /\ (forall (p : pkt) (r' : stream),
      Type_ p <> responseValue ->
      delivers_all (reader c) (before ++ [p]) r' ->
      eventually (fun fuel => readMulti fuel N c)
        (Err (ErrMalformedResponse (Literal "unexpected type")),
         set_reader c r'))
  /\ (forall (s1 : pkt) (between : list pkt) (p : pkt) (r' : stream),
      is_sentinel N s1 -> body s1 = [] -> Forall (is_data N) between ->
      Type_ p <> responseValue ->
      delivers_all (reader c) (before ++ [s1] ++ between ++ [p]) r' ->
      eventually (fun fuel => readMulti fuel N c)
        (Err (ErrMalformedResponse (Literal "unexpected type")),
         set_reader c r')).
Proof.
  intros Hd Hb. unfold readMulti. repeat split.
  - intros s r' S B D.
    destruct (delivers_all_split _ _ _ _ D) as (r1 & D1 & D').
    inversion D' as [|? r2 ? ? ? Ds Dnil]; subst. inversion Dnil; subst.
    apply (readMulti_loop_datas N before c r1 [] 0 _ Hd D1 Hb).
    apply (readMulti_loop_bad_echo (set_reader c r1) N r' s _ Hd Ds S B).
  - intros p r' T I I1 D.
    destruct (delivers_all_split _ _ _ _ D) as (r1 & D1 & D').
    inversion D' as [|? r2 ? ? ? Dp Dnil]; subst. inversion Dnil; subst.
    apply (readMulti_loop_datas N before c r1 [] 0 _ Hd D1 Hb).
    apply (readMulti_loop_bad_id (set_reader c r1) N r' p _ _ Hd Dp T I I1).
  - intros s1 between p r' S1 B1 Hm T I I1 D.
    destruct (delivers_all_split _ _ _ _ D) as (r1 & D1 & D').
    inversion D' as [|? r2 ? ? ? Ds1 D'']; subst.
    destruct (delivers_all_split _ _ _ _ D'') as (r3 & D2 & D3).
    inversion D3 as [|? r4 ? ? ? Dp Dnil]; subst. inversion Dnil; subst.
    apply (readMulti_loop_datas N before c r1 [] 0 _ Hd D1 Hb).
    apply (readMulti_loop_echo (set_reader c r1) N r2 s1 _ _ Hd Ds1 S1 B1).
    apply (readMulti_loop_datas N between (set_reader c r2) r3 _ 1 _ Hd D2 Hm).
    apply (readMulti_loop_bad_id (set_reader c r3) N r' p _ _ Hd Dp T I I1).
  - intros p r' T D.
    destruct (delivers_all_split _ _ _ _ D) as (r1 & D1 & D').
    inversion D' as [|? r2 ? ? ? Dp Dnil]; subst. inversion Dnil; subst.
    apply (readMulti_loop_datas N before c r1 [] 0 _ Hd D1 Hb).
    apply (readMulti_loop_bad_type (set_reader c r1) N r' p _ _ Hd Dp T).
  - intros s1 between p r' S1 B1 Hm T D.
    destruct (delivers_all_split _ _ _ _ D) as (r1 & D1 & D').
    inversion D' as [|? r2 ? ? ? Ds1 D'']; subst.
    destruct (delivers_all_split _ _ _ _ D'') as (r3 & D2 & D3).
    inversion D3 as [|? r4 ? ? ? Dp Dnil]; subst. inversion Dnil; subst.
    apply (readMulti_loop_datas N before c r1 [] 0 _ Hd D1 Hb).
    apply (readMulti_loop_echo (set_reader c r1) N r2 s1 _ _ Hd Ds1 S1 B1).
    apply (readMulti_loop_datas N between (set_reader c r2) r3 _ 1 _ Hd D2 Hm).
    apply (readMulti_loop_bad_type (set_reader c r3) N r' p _ _ Hd Dp T).
Qed.

(** ** Single-packet mode *)

(** C10. [readSingle] never looks at the type of the response packet: for a
    decoded packet of any type whose id is the expected one it returns the
    body; [readMulti] rejects a packet whose type is not response-value. *)
Theorem readSingle_ignores_type (c : Client) (expectedID : Z) (p : pkt)
    (r' : stream) :
  setDeadline c = None ->
  delivers (reader c) p r' ->
  (ID p = expectedID ->
   eventually (fun fuel => readSingle fuel expectedID c)
     (Ok (Body p), set_reader c r'))
  /\ (Type_ p <> responseValue ->
      eventually (fun fuel => readMulti fuel expectedID c)
        (Err (ErrMalformedResponse (Literal "unexpected type")),
         set_reader c r')).
Proof.
  intros Hd D. split.
  - intros Hi. destruct (readPkt_delivers c r' p Hd D) as (f0 & H).
    exists f0. intros fuel Hf. unfold readSingle.
    rewrite (H fuel Hf), Hi, Z.eqb_refl. reflexivity.
  - intros Ht. apply (readMulti_loop_bad_type c expectedID r' p [] 0 Hd D Ht).
Qed.

(** ** Runes and bytes *)

Lemma lor_ge_l (a b : Z) : 0 <= a -> 0 <= b -> a <= Z.lor a b.
Proof.
  intros Ha Hb. apply Z.ldiff_le.
  - apply Z.lor_nonneg; auto.
  - apply Z.bits_inj'; intros n Hn.
    rewrite Z.ldiff_spec, Z.lor_spec, Z.bits_0.
    destruct (Z.testbit a n), (Z.testbit b n); reflexivity.
Qed.

Lemma lor_ge_r (a b : Z) : 0 <= a -> 0 <= b -> b <= Z.lor a b.
Proof. intros. rewrite Z.lor_comm. apply lor_ge_l; auto. Qed.

Lemma land_mask (x k : Z) : 0 <= k -> Z.land x (Z.ones k) = x mod 2 ^ k.
Proof. apply Z.land_ones. Qed.

(** What [first] says of a leader: its size and the least second byte, with
    the leader's own payload bits not all zero unless the least second byte
    is raised. *)
Lemma first_Leader (b : Z) (sz : nat) (lo hi : Z) :
  0 <= b < 256 -> utf8.first b = utf8.Leader sz lo hi ->
  0x80 <= lo /\ hi <= 0xBF /\
  ((sz = 2%nat /\ 0xC2 <= b <= 0xDF)
   \/ (sz = 3%nat /\ b = 0xE0 /\ lo = 0xA0)
   \/ (sz = 3%nat /\ 0xE1 <= b <= 0xEF)
   \/ (sz = 4%nat /\ b = 0xF0 /\ lo = 0x90)
   \/ (sz = 4%nat /\ 0xF1 <= b <= 0xF4)).
Proof.
  intros Hb. unfold utf8.first, utf8.locb, utf8.hicb.
  repeat match goal with
         | |- context [if ?x <? ?y then _ else _] =>
             destruct (Z.ltb_spec x y)
         | |- context [if ?x =? ?y then _ else _] =>
             destruct (Z.eqb_spec x y)
         end;
    intros E; try discriminate; injection E as <- <- <-;
    (split; [|split]); lia.
Qed.

Lemma first_not_ascii (b : Z) : 0x80 <= b -> utf8.first b <> utf8.Ascii1.
Proof.
  intros Hb. unfold utf8.first.
  repeat match goal with
         | |- context [if ?x <? ?y then _ else _] =>
             destruct (Z.ltb_spec x y)
         | |- context [if ?x =? ?y then _ else _] =>
             destruct (Z.eqb_spec x y)
         end; try discriminate; lia.
Qed.

(** A string that starts with an ASCII byte starts with that rune, of width
    one. *)
Lemma DecodeRune_ascii (c0 : byte) (t : bytes) :
  byte_val c0 < 0x80 ->
  utf8.DecodeRuneInString (c0 :: t) = (byte_val c0, 1%nat).
Proof.
  intros H. unfold utf8.DecodeRuneInString, utf8.first.
  destruct (Z.ltb_spec (byte_val c0) 128); [reflexivity | lia].
Qed.

(** A string that starts with any other byte starts with a rune that is not
    ASCII: the error rune, or the rune of a valid sequence of two to four
    bytes. *)
Lemma DecodeRune_high (c0 : byte) (t : bytes) :
  0x80 <= byte_val c0 ->
  0x80 <= fst (utf8.DecodeRuneInString (c0 :: t)).
Proof.
  intros H. pose proof (byte_val_range c0) as R0.
  unfold utf8.DecodeRuneInString.
  destruct (utf8.first (byte_val c0)) as [| |sz lo hi] eqn:F.
  - exfalso. revert F. apply first_not_ascii. assumption.
  - simpl. unfold utf8.RuneError. lia.
  - destruct (first_Leader _ _ _ _ R0 F) as (Hlo & Hhi & Hcase).
    destruct (length (c0 :: t) <? sz)%nat; [simpl; unfold utf8.RuneError; lia|].
    destruct t as [|c1 t1]; [simpl; unfold utf8.RuneError; lia|].
    pose proof (byte_val_range c1) as R1.
    destruct (Z.ltb_spec (byte_val c1) lo);
      [simpl; unfold utf8.RuneError; lia|].
    destruct (Z.ltb_spec hi (byte_val c1));
      [simpl; unfold utf8.RuneError; lia|].
    cbn [orb].
    unfold utf8.mask2, utf8.mask3, utf8.mask4, utf8.maskx, utf8.locb,
      utf8.hicb.
    change 0x1F with (Z.ones 5). change 0x0F with (Z.ones 4).
    change 0x07 with (Z.ones 3). change 0x3F with (Z.ones 6).
    rewrite !land_mask, !Z.shiftl_mul_pow2 by lia.
    pose proof (Z.mod_pos_bound (byte_val c0) (2 ^ 5) ltac:(lia)).
    pose proof (Z.mod_pos_bound (byte_val c0) (2 ^ 4) ltac:(lia)).
    pose proof (Z.mod_pos_bound (byte_val c0) (2 ^ 3) ltac:(lia)).
    pose proof (Z.mod_pos_bound (byte_val c1) (2 ^ 6) ltac:(lia)).
    destruct Hcase as [(-> & Hb)|[(-> & Hb & Hl)|[(-> & Hb)|[(-> & Hb & Hl)
                      |(-> & Hb)]]]]; cbn [Nat.leb].
    + cbn [fst].
      pose proof (lor_ge_l (byte_val c0 mod 2 ^ 5 * 2 ^ 6)
                    (byte_val c1 mod 2 ^ 6) ltac:(lia) ltac:(lia)).
      change (2 ^ 5) with 32 in *. change (2 ^ 6) with 64 in *.
      Z.div_mod_to_equations. lia.
    + destruct t1 as [|c2 t2]; [simpl; unfold utf8.RuneError; lia|].
      destruct ((byte_val c2 <? 128) || (191 <? byte_val c2));
        [simpl; unfold utf8.RuneError; lia|].
      cbn [fst]. rewrite ?land_mask, ?Z.shiftl_mul_pow2 by lia.
      pose proof (byte_val_range c2).
      pose proof (Z.mod_pos_bound (byte_val c2) (2 ^ 6) ltac:(lia)).
      pose proof (lor_ge_r (byte_val c0 mod 2 ^ 4 * 2 ^ 12)
                    (byte_val c1 mod 2 ^ 6 * 2 ^ 6) ltac:(lia) ltac:(lia)).
      pose proof (lor_ge_l (Z.lor (byte_val c0 mod 2 ^ 4 * 2 ^ 12)
                                  (byte_val c1 mod 2 ^ 6 * 2 ^ 6))
                    (byte_val c2 mod 2 ^ 6) ltac:(lia) ltac:(lia)).
      change (2 ^ 4) with 16 in *. change (2 ^ 6) with 64 in *.
      change (2 ^ 12) with 4096 in *.
      Z.div_mod_to_equations. lia.
    + destruct t1 as [|c2 t2]; [simpl; unfold utf8.RuneError; lia|].
      destruct ((byte_val c2 <? 128) || (191 <? byte_val c2));
        [simpl; unfold utf8.RuneError; lia|].
      cbn [fst]. rewrite ?land_mask, ?Z.shiftl_mul_pow2 by lia.
      pose proof (byte_val_range c2).
      pose proof (Z.mod_pos_bound (byte_val c2) (2 ^ 6) ltac:(lia)).
      pose proof (lor_ge_l (byte_val c0 mod 2 ^ 4 * 2 ^ 12)
                    (byte_val c1 mod 2 ^ 6 * 2 ^ 6) ltac:(lia) ltac:(lia)).
      pose proof (lor_ge_l (Z.lor (byte_val c0 mod 2 ^ 4 * 2 ^ 12)
                                  (byte_val c1 mod 2 ^ 6 * 2 ^ 6))
                    (byte_val c2 mod 2 ^ 6) ltac:(lia) ltac:(lia)).
      change (2 ^ 4) with 16 in *. change (2 ^ 12) with 4096 in *.
      Z.div_mod_to_equations. lia.
    + destruct t1 as [|c2 t2]; [simpl; unfold utf8.RuneError; lia|].
      destruct ((byte_val c2 <? 128) || (191 <? byte_val c2));
        [simpl; unfold utf8.RuneError; lia|].
      destruct t2 as [|c3 t3]; [simpl; unfold utf8.RuneError; lia|].
      destruct ((byte_val c3 <? 128) || (191 <? byte_val c3));
        [simpl; unfold utf8.RuneError; lia|].
      cbn [fst]. rewrite ?land_mask, ?Z.shiftl_mul_pow2 by lia.
      pose proof (byte_val_range c2). pose proof (byte_val_range c3).
      pose proof (Z.mod_pos_bound (byte_val c2) (2 ^ 6) ltac:(lia)).
      pose proof (Z.mod_pos_bound (byte_val c3) (2 ^ 6) ltac:(lia)).
      pose proof (lor_ge_r (byte_val c0 mod 2 ^ 3 * 2 ^ 18)
                    (byte_val c1 mod 2 ^ 6 * 2 ^ 12) ltac:(lia) ltac:(lia)).
      pose proof (lor_ge_l (Z.lor (byte_val c0 mod 2 ^ 3 * 2 ^ 18)
                                  (byte_val c1 mod 2 ^ 6 * 2 ^ 12))
                    (byte_val c2 mod 2 ^ 6 * 2 ^ 6) ltac:(lia) ltac:(lia)).
      pose proof (lor_ge_l (Z.lor (Z.lor (byte_val c0 mod 2 ^ 3 * 2 ^ 18)
                                         (byte_val c1 mod 2 ^ 6 * 2 ^ 12))
                                  (byte_val c2 mod 2 ^ 6 * 2 ^ 6))
                    (byte_val c3 mod 2 ^ 6) ltac:(lia) ltac:(lia)).
      change (2 ^ 3) with 8 in *. change (2 ^ 6) with 64 in *.
      change (2 ^ 12) with 4096 in *. change (2 ^ 18) with 262144 in *.
      Z.div_mod_to_equations. lia.
    + destruct t1 as [|c2 t2]; [simpl; unfold utf8.RuneError; lia|].
      destruct ((byte_val c2 <? 128) || (191 <? byte_val c2));
        [simpl; unfold utf8.RuneError; lia|].
      destruct t2 as [|c3 t3]; [simpl; unfold utf8.RuneError; lia|].
      destruct ((byte_val c3 <? 128) || (191 <? byte_val c3));
        [simpl; unfold utf8.RuneError; lia|].
      cbn [fst]. rewrite ?land_mask, ?Z.shiftl_mul_pow2 by lia.
      pose proof (byte_val_range c2). pose proof (byte_val_range c3).
      pose proof (Z.mod_pos_bound (byte_val c2) (2 ^ 6) ltac:(lia)).
      pose proof (Z.mod_pos_bound (byte_val c3) (2 ^ 6) ltac:(lia)).
      pose proof (lor_ge_l (byte_val c0 mod 2 ^ 3 * 2 ^ 18)
                    (byte_val c1 mod 2 ^ 6 * 2 ^ 12) ltac:(lia) ltac:(lia)).
      pose proof (lor_ge_l (Z.lor (byte_val c0 mod 2 ^ 3 * 2 ^ 18)
                                  (byte_val c1 mod 2 ^ 6 * 2 ^ 12))
                    (byte_val c2 mod 2 ^ 6 * 2 ^ 6) ltac:(lia) ltac:(lia)).
      pose proof (lor_ge_l (Z.lor (Z.lor (byte_val c0 mod 2 ^ 3 * 2 ^ 18)
                                         (byte_val c1 mod 2 ^ 6 * 2 ^ 12))
                                  (byte_val c2 mod 2 ^ 6 * 2 ^ 6))
                    (byte_val c3 mod 2 ^ 6) ltac:(lia) ltac:(lia)).
      change (2 ^ 3) with 8 in *. change (2 ^ 18) with 262144 in *.
      Z.div_mod_to_equations. lia.
Qed.

Lemma non_ascii_range (s : bytes) :
  non_ascii (utf8.range 0 s) = existsb (fun b => 0x80 <=? byte_val b) s.
Proof.
  induction s as [|c0 t IH]; [reflexivity|].
  cbn [utf8.range existsb].
  destruct (Z.leb_spec 0x80 (byte_val c0)) as [Hhigh|Hlow].
  - pose proof (DecodeRune_high c0 t Hhigh) as Hr.
    destruct (utf8.DecodeRuneInString (c0 :: t)) as [r w]. cbn [fst] in Hr.
    cbn [non_ascii orb].
    destruct (Z.leb_spec 0x80 r); [reflexivity | lia].
  - rewrite (DecodeRune_ascii c0 t Hlow). cbn [non_ascii Nat.sub orb].
    destruct (Z.leb_spec 0x80 (byte_val c0)); [lia | exact IH].
Qed.

Lemma non_ascii_In (runes : list Z) :
  non_ascii runes = true <-> exists r, In r runes /\ 0x80 <= r.
Proof.
  induction runes as [|r rs IH]; simpl.
  - split; [discriminate | intros (r & [] & _)].
  - destruct (Z.leb_spec 0x80 r) as [Hr|Hr].
    + split; auto. intros _. exists r. auto.
    + rewrite IH. split.
      * intros (x & Hx & H). exists x. auto.
      * intros (x & [<-|Hx] & H); [lia|]. exists x. auto.
Qed.

(** A string has a byte of [0x80] or more exactly when ranging over it
    yields a rune of [0x80] or more. *)
Lemma non_ascii_bytes_runes (s : bytes) :
  (exists b, In b s /\ 0x80 <= byte_val b)
  <-> (exists r, In r (utf8.range 0 s) /\ 0x80 <= r).
Proof.
  rewrite <- non_ascii_In, non_ascii_range, existsb_exists.
  split; intros (b & Hin & Hb); exists b; split; auto;
    [apply Z.leb_le | apply Z.leb_le in Hb]; assumption.
Qed.

(** ** Rendering a command *)

Lemma doPrintln_succ (n : nat) (operands : list value) :
  doPrintln (S n) operands
  = concat (map (fun a => space ++ format_v a) operands).
Proof.
  revert n; induction operands as [|v rest IH]; intros n; simpl; auto.
  rewrite IH. reflexivity.
Qed.

Lemma bytes_Equal_refl (s : bytes) : bytes_Equal s s = true.
Proof. apply bytes_Equal_eq. reflexivity. Qed.

Lemma TrimSuffix_app (s suffix : bytes) :
  strings_TrimSuffix (s ++ suffix) suffix = s.
Proof.
  unfold strings_TrimSuffix, strings_HasSuffix. rewrite length_app.
  replace (length s + length suffix - length suffix)%nat with (length s)
    by lia.
  rewrite <- (Nat.add_0_r (length s)) at 2.
  rewrite skipn_length_app. cbn [skipn].
  rewrite bytes_Equal_refl, firstn_length_app.
  replace (length suffix <=? length s + length suffix)%nat with true
    by (symmetry; apply Nat.leb_le; lia).
  reflexivity.
Qed.

(** The verb, then every argument after one space. *)
Lemma Cmd_String_eq (c : Cmd) :
  Cmd_String c
  = cmd c ++ concat (map (fun a => space ++ format_v a) (args c)).
Proof.
  unfold Cmd_String, fmt_Sprintln. rewrite TrimSuffix_app.
  cbn [doPrintln format_v]. rewrite doPrintln_succ. reflexivity.
Qed.

Lemma Cmd_String_NewCmd (command : bytes) :
  Cmd_String (NewCmd command) = command.
Proof. rewrite Cmd_String_eq. simpl. apply app_nil_r. Qed.

(** ** The ASCII guard *)

(** C7. A command whose string has a byte of [0x80] or more, or equally a
    character of code point [0x80] or more, is refused by [ExecCmd] and by
    [Exec] with [ErrNonASCII], and the client is left as it was: no byte
    written, the request id unchanged. *)
Theorem ExecCmd_rejects_non_ascii (fuel : nat) (c : Client) :
  (forall cm : Cmd,
      (exists b, In b (Cmd_String cm) /\ 0x80 <= byte_val b)
      \/ (exists r, In r (utf8.range 0 (Cmd_String cm)) /\ 0x80 <= r) ->
      ExecCmd fuel cm c = (Err ErrNonASCII, c)
      /\ sent (conn (snd (ExecCmd fuel cm c))) = sent (conn c)
      /\ reqID (snd (ExecCmd fuel cm c)) = reqID c)
  /\ (forall command : bytes,
      (exists b, In b command /\ 0x80 <= byte_val b) ->
      Exec fuel command c = (Err ErrNonASCII, c)
      /\ sent (conn (snd (Exec fuel command c))) = sent (conn c)
      /\ reqID (snd (Exec fuel command c)) = reqID c)
  /\ (forall s : bytes,
      (exists b, In b s /\ 0x80 <= byte_val b)
      <-> (exists r, In r (utf8.range 0 s) /\ 0x80 <= r)).
Proof.
  assert (G : forall cm : Cmd,
             (exists b, In b (Cmd_String cm) /\ 0x80 <= byte_val b)
             \/ (exists r, In r (utf8.range 0 (Cmd_String cm)) /\ 0x80 <= r) ->
             ExecCmd fuel cm c = (Err ErrNonASCII, c)).
  { intros cm H. unfold ExecCmd.
    replace (non_ascii (utf8.range 0 (Cmd_String cm))) with true; auto.
    symmetry. destruct H as [(b & Hin & Hb)|H].
    - rewrite non_ascii_range. apply existsb_exists. exists b.
      split; [assumption | apply Z.leb_le; assumption].
    - apply non_ascii_In. assumption. }
  split; [|split].
  - intros cm H. rewrite (G cm H). auto.
  - intros command H. unfold Exec. rewrite G; auto.
    left. rewrite Cmd_String_NewCmd. assumption.
  - apply non_ascii_bytes_runes.
Qed.

Lemma has_trailing_space_app (a b : bytes) :
  b <> [] -> has_trailing_space (a ++ b) = has_trailing_space b.
Proof.
  intros Hb. induction a as [|x a IH]; [reflexivity|].
  simpl. destruct (a ++ b) eqn:E; [|assumption].
  destruct a, b; simpl in E; congruence.
Qed.

Lemma last_default (l : list bytes) (d d' : bytes) :
  l <> [] -> last l d = last l d'.
Proof.
  induction l as [|x l IH]; [congruence|]. intros _.
  destruct l as [|y l]; [reflexivity|].
  change (last (x :: y :: l) d) with (last (y :: l) d).
  change (last (x :: y :: l) d') with (last (y :: l) d').
  apply IH. discriminate.
Qed.

Lemma has_trailing_space_pieces (pieces : list bytes) (head : bytes) :
  Forall (fun piece => piece <> []) pieces ->
  has_trailing_space (head ++ concat pieces)
  = has_trailing_space (last pieces head).
Proof.
  revert head; induction pieces as [|piece rest IH]; intros head Hne.
  - simpl. rewrite app_nil_r. reflexivity.
  - inversion Hne as [|? ? Hp Hrest]; subst.
    cbn [concat]. rewrite app_assoc, IH by assumption.
    destruct rest as [|piece' rest].
    + cbn [last]. apply has_trailing_space_app. assumption.
    + f_equal. change (last (piece :: piece' :: rest) head)
        with (last (piece' :: rest) head).
      apply last_default. discriminate.
Qed.

(** C9, as the code has it. [Cmd.String] renders one string: the verb, then
    every argument in order, each after exactly one space, and nothing after
    the last of them (the newline [Sprintln] appends is trimmed).  White
    space at the end of the last operand stays: the result ends in white
    space exactly when its last piece does, the piece being the verb when
    there are no arguments and a space followed by the argument otherwise. *)
Theorem Cmd_String_renders (c : Cmd) :
  Cmd_String c
  = cmd c ++ concat (map (fun a => space ++ format_v a) (args c))
  /\ has_trailing_space (Cmd_String c)
     = has_trailing_space
         (last (map (fun a => space ++ format_v a) (args c)) (cmd c)).
Proof.
  split; [apply Cmd_String_eq|].
  rewrite Cmd_String_eq. apply has_trailing_space_pieces.
  apply Forall_forall. intros piece Hin. apply in_map_iff in Hin.
  destruct Hin as (a & <- & _). discriminate.
Qed.

(** ** The codec *)

(** C3, as the code has it. For every type and id and every body of at most
    [2^31 - 15] bytes, zero bytes included, [WriteTo] writes an encoding
    from which [ReadFrom] decodes, whatever the pieces it arrives in, a
    packet of the same type, id and body. *)
Theorem round_trip (t id : Z) (b : bytes) (w : Conn) :
  Int32.InRange t -> Int32.InRange id -> fits b -> write_err w = None ->
  exists buf : bytes,
    WriteTo (newPkt t id b) w
    = (Ok (Z.of_nat (length buf)),
       {| deadline_err := deadline_err w; write_err := write_err w;
          sent := sent w ++ buf |})
    /\ forall (fuel : nat) (r : stream) (rest : bytes),
        available r = buf ++ rest -> (length r + 2 <= fuel)%nat ->
        exists (n : Z) (p : pkt) (r' : stream),
          ReadFrom fuel r = (n, Ok p, r')
          /\ Type_ p = t /\ ID p = id /\ body p = b
          /\ available r' = rest.
Proof.
  intros Ht Hi Hb Hw.
  exists (wire (Z.of_nat (length b) + 10) id t (b ++ [zero_byte; zero_byte])).
  split.
  - unfold WriteTo. rewrite (encode_newPkt t id b Hb).
    unfold conn_Write. rewrite Hw. reflexivity.
  - intros fuel r rest Hav Hfuel.
    destruct (ReadFrom_encoded fuel r t id b rest Ht Hi Hb Hav Hfuel)
      as (r' & E & A & _).
    exists (Z.of_nat (length b) + 14), (newPkt t id b), r'. auto.
Qed.

(** C5. [ReadFrom] never panics, on any stream and with any fuel.  A size
    field under 10 gives the malformed-response error "size too small"; a raw
    payload whose last two bytes are not [0x00 0x00] gives "invalid trailer";
    and a packet that is returned has a size of at least 10 and a body of
    [size - 10] bytes. *)
Theorem ReadFrom_safe (fuel : nat) (r : stream) :
  snd (fst (ReadFrom fuel r)) <> Panic
  /\ (forall (size : Z) (rest : bytes),
        Int32.InRange size -> size < 10 ->
        available r = le32 size ++ rest -> (length r + 2 <= fuel)%nat ->
        snd (fst (ReadFrom fuel r))
        = Err (ErrMalformedResponse (Literal "size too small")))
  /\ (forall (size id type : Z) (raw rest : bytes),
        Int32.InRange size -> Int32.InRange id -> Int32.InRange type ->
        10 <= size -> Z.of_nat (length raw) = size - 8 ->
        available r = wire size id type raw ++ rest ->
        (length r + 2 <= fuel)%nat ->
        skipn (length raw - 2) raw <> [zero_byte; zero_byte] ->
        snd (fst (ReadFrom fuel r))
        = Err (ErrMalformedResponse (Literal "invalid trailer")))
  /\ (forall (n : Z) (p : pkt) (r' : stream),
        ReadFrom fuel r = (n, Ok p, r') ->
        10 <= Size p /\ Z.of_nat (length (body p)) = Size p - 10).
Proof.
  pose proof (ReadFrom_post_holds fuel r) as Post. repeat split.
  - intros E. rewrite E in Post. exact Post.
  - intros size rest Hs Hlt Hav Hfuel. unfold ReadFrom.
    destruct (binary_Read_available fuel r size rest Hs Hav Hfuel)
      as (r1 & -> & _).
    replace (size <? 10) with true by (symmetry; apply Z.ltb_lt; lia).
    reflexivity.
  - intros size id type raw rest Hs Hi Ht Hmin Hlen Hav Hfuel Htr.
    destruct (ReadFrom_wire fuel r size id type raw rest Hs Hi Ht Hmin Hlen
                Hav Hfuel) as (r' & -> & _).
    cbn [fst snd]. unfold decoded.
    destruct (bytes_Equal _ _) eqn:E; [|reflexivity].
    apply bytes_Equal_eq in E. contradiction.
  - rewrite H in Post. apply Post.
  - rewrite H in Post. apply Post.
Qed.

(** ** The payload loop at the end of the stream *)

(** The payload loop returns only by obtaining every byte it waits for.
    When the stream will never deliver that many, each fault and then the
    end of the stream ([io.EOF] on every read) just sends the loop round
    again: no amount of fuel brings it to a return. *)
Lemma ReadFrom_payload_starved :
  forall (fuel : nat) (r : stream) (p : pkt) (n i : Z),
    Int32.InRange (Size p) ->
    Z.of_nat (length (body p)) = Size p - 8 ->
    0 <= i ->
    i + Z.of_nat (length (all_data r)) < Size p - 8 ->
    snd (fst (ReadFrom_payload fuel r None p n i)) = OutOfFuel.
Proof.
  induction fuel as [|fuel IH]; intros r p n i Hs Hlen Hi Hshort;
    [reflexivity|].
  cbn [ReadFrom_payload].
  assert (Hsub : Int32.sub (Size p) 8 = Size p - 8).
  { apply wrap_small. unfold Int32.InRange, Int32.min, Int32.max in *. lia. }
  rewrite Hsub.
  replace (i <? Size p - 8) with true by (symmetry; apply Z.ltb_lt; lia).
  unfold slice_from.
  replace ((0 <=? i) && (i <=? Z.of_nat (length (body p)))) with true
    by (symmetry; apply andb_true_iff; split; apply Z.leb_le; lia).
  rewrite length_skipn.
  assert (Hadd : forall k : nat,
             (k <= length (all_data r))%nat ->
             Int32.add i (Z.of_nat k) = i + Z.of_nat k).
  { intros k Hk. apply wrap_small.
    unfold Int32.InRange, Int32.min, Int32.max in *. lia. }
  destruct r as [|[bs|e] r']; cbn [Read all_data] in *.
  - rewrite (Hadd (@length byte [])) by (simpl; lia).
    apply IH; cbn [Size body set_body]; auto.
    + rewrite store_length; simpl; lia.
    + simpl. lia.
    + simpl in *. lia.
  - rewrite length_app in Hshort.
    replace (length bs <=? length (body p) - Z.to_nat i)%nat with true
      by (symmetry; apply Nat.leb_le; lia).
    rewrite (Hadd (length bs)) by (rewrite length_app; lia).
    apply IH; cbn [Size body set_body]; auto; try lia.
    rewrite store_length; lia.
  - rewrite (Hadd (@length byte [])) by (simpl; lia).
    apply IH; cbn [Size body set_body]; auto.
    + rewrite store_length; simpl; lia.
    + simpl. lia.
    + simpl. lia.
Qed.

(** The header reads do stop at the end of the stream: [binary.Read] hands
    [io.EOF] back, or [io.ErrUnexpectedEOF] when the four bytes broke off. *)
Lemma ReadFrom_header_closed (fuel : nat) :
  ReadFrom (S fuel) [] = (0, Err io_EOF, []) /\
  ReadFrom (S (S fuel)) [Data (firstn 2 (le32 12))]
  = (0, Err io_ErrUnexpectedEOF, []).
Proof. split; reflexivity. Qed.

(** C2, the code at the failing input: on [truncated] the decode does not
    return, whatever the fuel. *)
Theorem ReadFrom_truncated_spins (fuel : nat) :
  snd (fst (ReadFrom fuel truncated)) = OutOfFuel.
Proof.
  destruct fuel as [|[|[|fuel]]]; [reflexivity | reflexivity | reflexivity |].
  unfold ReadFrom, truncated.
  destruct (binary_Read_available (S (S (S fuel)))
              [Data (le32 12 ++ le32 1 ++ le32 responseValue ++ lit "a")]
              12 (le32 1 ++ le32 responseValue ++ lit "a"))
    as (r1 & -> & A1 & L1);
    [unfold Int32.InRange, Int32.min, Int32.max; lia | reflexivity
    | simpl; lia |].
  cbn [Z.ltb Z.compare Pos.compare Pos.compare_cont].
  destruct (binary_Read_available (S (S (S fuel))) r1 1
              (le32 responseValue ++ lit "a"))
    as (r2 & -> & A2 & L2);
    [unfold Int32.InRange, Int32.min, Int32.max; lia | assumption
    | simpl in *; lia |].
  destruct (binary_Read_available (S (S (S fuel))) r2 responseValue (lit "a"))
    as (r3 & -> & A3 & L3);
    [unfold Int32.InRange, Int32.min, Int32.max, responseValue; lia
    | assumption | simpl in *; lia |].
  change (make (Int32.sub 12 8)) with (Some (repeat zero_byte 4)).
  destruct r3 as [|[bs|e] r3']; [discriminate| |discriminate].
  simpl in L3, L2, L1. destruct r3'; [|simpl in *; lia].
  simpl in A3. rewrite app_nil_r in A3. subst bs.
  apply ReadFrom_payload_starved; cbn [Size body].
  - unfold Int32.InRange, Int32.min, Int32.max. lia.
  - reflexivity.
  - lia.
  - simpl. lia.
Qed.

(** ** Writing a packet *)

Lemma writePkt_ok (c : Client) (t : Z) (b : bytes) :
  deadline_err (conn c) = None -> write_err (conn c) = None -> fits b ->
  writePkt t b c = (Ok tt, after_write c t b).
Proof.
  intros Hd Hw Hb. unfold writePkt, setDeadline, WriteTo.
  cbn [conn set_reqID]. rewrite Hd, (encode_newPkt t (reqID c) b Hb).
  unfold conn_Write, after_write. cbn [conn]. rewrite Hw. reflexivity.
Qed.

(** ** The handshake *)

(** C4. With a non-empty password configured and the auth packet written,
    the handshake succeeds when the decoded responses are a response-value
    packet with id 0 followed by an auth-response packet with id 0, and when
    the first decoded response is already an auth-response packet with id 0.
    It fails with [ErrAuthFailure] when the first packet's id is not 0; when,
    after a response-value first packet, the second packet's id is not 0 or
    its type is not auth-response; and when the first packet's type is
    neither response-value nor auth-response. *)
Theorem auth_handshake (c : Client) :
  pwd c <> [] -> fits (pwd c) ->
  deadline_err (conn c) = None -> write_err (conn c) = None ->
  (forall (p1 p2 : pkt) (r1 r2 : stream),
      delivers (reader c) p1 r1 -> delivers r1 p2 r2 ->
      ID p1 = 0 -> Type_ p1 = responseValue ->
      ID p2 = 0 -> Type_ p2 = authResponse ->
      eventually (fun fuel => auth fuel c)
        (Ok tt, set_reader (after_write c auth_type (pwd c)) r2))
  /\ (forall (p1 : pkt) (r1 : stream),
      delivers (reader c) p1 r1 ->
      ID p1 = 0 -> Type_ p1 = authResponse ->
      eventually (fun fuel => auth fuel c)
        (Ok tt, set_reader (after_write c auth_type (pwd c)) r1))
  /\ (forall (p1 : pkt) (r1 : stream),
      delivers (reader c) p1 r1 ->
      ID p1 <> 0 ->
      eventually (fun fuel => auth fuel c)
        (Err ErrAuthFailure, set_reader (after_write c auth_type (pwd c)) r1))
  /\ (forall (p1 p2 : pkt) (r1 r2 : stream),
      delivers (reader c) p1 r1 -> delivers r1 p2 r2 ->
      ID p1 = 0 -> Type_ p1 = responseValue ->
      ID p2 <> 0 \/ Type_ p2 <> authResponse ->
      eventually (fun fuel => auth fuel c)
        (Err ErrAuthFailure, set_reader (after_write c auth_type (pwd c)) r2))
  /\ (forall (p1 : pkt) (r1 : stream),
      delivers (reader c) p1 r1 ->
      Type_ p1 <> responseValue -> Type_ p1 <> authResponse ->
      eventually (fun fuel => auth fuel c)
        (Err ErrAuthFailure, set_reader (after_write c auth_type (pwd c)) r1)).
Proof.
  intros Hpwd Hfits Hd Hw.
  pose proof (writePkt_ok c auth_type (pwd c) Hd Hw Hfits) as Hwrite.
  set (c1 := after_write c auth_type (pwd c)) in *.
  assert (Hd1 : setDeadline c1 = None) by exact Hd.
  assert (Hstart : forall fuel,
             auth fuel c
             = match readPkt fuel c1 with
               | (Err e, c) => (Err e, c)
               | (Panic, c) => (Panic, c)
               | (OutOfFuel, c) => (OutOfFuel, c)
               | (Ok p, c) =>
                   if negb (ID p =? 0) then (Err ErrAuthFailure, c)
                   else if Type_ p =? responseValue then
                     match readPkt fuel c with
                     | (Err e, c) => (Err e, c)
                     | (Panic, c) => (Panic, c)
                     | (OutOfFuel, c) => (OutOfFuel, c)
                     | (Ok p, c) =>
                         if negb (ID p =? 0) || negb (Type_ p =? authResponse)
                         then (Err ErrAuthFailure, c)
                         else (Ok tt, c)
                     end
                   else if negb (Type_ p =? authResponse) then
                     (Err ErrAuthFailure, c)
                   else (Ok tt, c)
               end).
  { intros fuel. unfold auth. remember (pwd c) as pw eqn:E in |- * at 1.
    destruct pw; [congruence|]. rewrite Hwrite. reflexivity. }
  repeat split.
  - intros p1 p2 r1 r2 D1 D2 I1 T1 I2 T2.
    destruct (readPkt_delivers c1 r1 p1 Hd1 D1) as (f1 & H1).
    destruct (readPkt_delivers (set_reader c1 r1) r2 p2 Hd1 D2) as (f2 & H2).
    exists (Nat.max f1 f2). intros fuel Hf.
    rewrite Hstart, H1 by lia. rewrite I1, T1. cbn [Z.eqb negb].
    change (responseValue =? responseValue) with true. cbv iota.
    rewrite H2 by lia. rewrite I2, T2. reflexivity.
  - intros p1 r1 D1 I1 T1.
    destruct (readPkt_delivers c1 r1 p1 Hd1 D1) as (f1 & H1).
    exists f1. intros fuel Hf.
    rewrite Hstart, H1 by lia. rewrite I1, T1. reflexivity.
  - intros p1 r1 D1 I1.
    destruct (readPkt_delivers c1 r1 p1 Hd1 D1) as (f1 & H1).
    exists f1. intros fuel Hf.
    rewrite Hstart, H1 by lia.
    rewrite (proj2 (Z.eqb_neq _ _) I1). reflexivity.
  - intros p1 p2 r1 r2 D1 D2 I1 T1 Hbad.
    destruct (readPkt_delivers c1 r1 p1 Hd1 D1) as (f1 & H1).
    destruct (readPkt_delivers (set_reader c1 r1) r2 p2 Hd1 D2) as (f2 & H2).
    exists (Nat.max f1 f2). intros fuel Hf.
    rewrite Hstart, H1 by lia. rewrite I1, T1. cbn [Z.eqb negb].
    change (responseValue =? responseValue) with true. cbv iota.
    rewrite H2 by lia.
    replace (negb (ID p2 =? 0) || negb (Type_ p2 =? authResponse)) with true;
      [reflexivity|].
    symmetry. apply orb_true_iff.
    destruct Hbad as [H|H]; [left|right];
      rewrite (proj2 (Z.eqb_neq _ _) H); reflexivity.
  - intros p1 r1 D1 T1 T1'.
    destruct (readPkt_delivers c1 r1 p1 Hd1 D1) as (f1 & H1).
    exists f1. intros fuel Hf.
    rewrite Hstart, H1 by lia.
    rewrite (proj2 (Z.eqb_neq _ _) T1), (proj2 (Z.eqb_neq _ _) T1').
    destruct (negb (ID p1 =? 0)); reflexivity.
Qed.

(** ** A request in single-packet mode *)

(** Single-packet mode is what [DisableMultiPacket] sets: both
    function-valued fields, and nothing else. *)
Lemma DisableMultiPacket_mode (c : Client) :
  read (DisableMultiPacket c) = readSingle_fn
  /\ write (DisableMultiPacket c) = writePkt_fn
  /\ conn (DisableMultiPacket c) = conn c
  /\ reader (DisableMultiPacket c) = reader c
  /\ reqID (DisableMultiPacket c) = reqID c.
Proof. repeat split. Qed.


(** * Concrete runs *)

Lemma readMulti_reassembles_witness :
  eventually (fun fuel => readMulti fuel 41 client_test_me)
    (Ok (lit "test me"), set_reader client_test_me []).
Proof.
  apply (readMulti_reassembles client_test_me 41
           [newPkt responseValue 41 (lit "test ");
            newPkt responseValue 41 (lit "me")]
           []
           (newPkt responseValue 42 [])
           (newPkt responseValue 42 responseBody) []).
  - reflexivity.
  - repeat constructor.
  - constructor.
  - split; reflexivity.
  - reflexivity.
  - split; reflexivity.
  - reflexivity.
  - eapply delivers_cons; [exists 9%nat; eexists; reflexivity|].
    eapply delivers_cons; [exists 9%nat; eexists; reflexivity|].
    eapply delivers_cons; [exists 9%nat; eexists; reflexivity|].
    eapply delivers_cons; [exists 9%nat; eexists; reflexivity|].
    apply delivers_nil.
Defined.

Lemma readMulti_rejects_witness :
  eventually (fun fuel => readMulti fuel 41 client_bad_echo)
    (Err (ErrMalformedResponse (Literal "non-empty body")),
     set_reader client_bad_echo [])
  /\ eventually (fun fuel => readMulti fuel 41 client_stray_id)
       (Err (ErrMalformedResponse
               (Sprintf "unexpected packet id %v" (OpInt32 40))),
        set_reader client_stray_id [])
  /\ eventually (fun fuel => readMulti fuel 41 client_stray_id_late)
       (Err (ErrMalformedResponse
               (Sprintf "unexpected packet id %v" (OpInt32 40))),
        set_reader client_stray_id_late [])
  /\ eventually (fun fuel => readMulti fuel 41 client_exec_typed_echo)
       (Err (ErrMalformedResponse (Literal "unexpected type")),
        set_reader client_exec_typed_echo [])
  /\ eventually (fun fuel => readMulti fuel 41 client_exec_typed_late)
       (Err (ErrMalformedResponse (Literal "unexpected type")),
        set_reader client_exec_typed_late []).
Proof.
  assert (B : Forall (is_data 41) [newPkt responseValue 41 (lit "test ")])
    by (repeat constructor).
  assert (M : Forall (is_data 41) [newPkt responseValue 41 (lit "me")])
    by (repeat constructor).
  assert (S1 : is_sentinel 41 (newPkt responseValue 42 []))
    by (split; reflexivity).
  split; [|split; [|split; [|split]]].
  - apply (proj1 (readMulti_rejects client_bad_echo 41
                    [newPkt responseValue 41 (lit "test ")] eq_refl B)
             (newPkt responseValue 42 (lit "x")) []).
    + split; reflexivity.
    + discriminate.
    + eapply delivers_cons; [exists 9%nat; eexists; reflexivity|].
      eapply delivers_cons; [exists 9%nat; eexists; reflexivity|].
      apply delivers_nil.
  - apply (proj1 (proj2 (readMulti_rejects client_stray_id 41
                           [newPkt responseValue 41 (lit "test ")] eq_refl B))
             (newPkt responseValue 40 (lit "x")) []).
    + reflexivity.
    + discriminate.
    + discriminate.
    + eapply delivers_cons; [exists 9%nat; eexists; reflexivity|].
      eapply delivers_cons; [exists 9%nat; eexists; reflexivity|].
      apply delivers_nil.
  - apply (proj1 (proj2 (proj2
             (readMulti_rejects client_stray_id_late 41
                [newPkt responseValue 41 (lit "test ")] eq_refl B)))
             (newPkt responseValue 42 [])
             [newPkt responseValue 41 (lit "me")]
             (newPkt responseValue 40 (lit "x")) [] S1 eq_refl M).
    + reflexivity.
    + discriminate.
    + discriminate.
    + eapply delivers_cons; [exists 9%nat; eexists; reflexivity|].
      eapply delivers_cons; [exists 9%nat; eexists; reflexivity|].
      eapply delivers_cons; [exists 9%nat; eexists; reflexivity|].
      eapply delivers_cons; [exists 9%nat; eexists; reflexivity|].
      apply delivers_nil.
  - apply (proj1 (proj2 (proj2 (proj2
             (readMulti_rejects client_exec_typed_echo 41
                [newPkt responseValue 41 (lit "test ")] eq_refl B))))
             (newPkt execCommand 42 (lit "x")) []).
    + discriminate.
    + eapply delivers_cons; [exists 9%nat; eexists; reflexivity|].
      eapply delivers_cons; [exists 9%nat; eexists; reflexivity|].
      apply delivers_nil.
  - apply (proj2 (proj2 (proj2 (proj2
             (readMulti_rejects client_exec_typed_late 41
                [newPkt responseValue 41 (lit "test ")] eq_refl B))))
             (newPkt responseValue 42 []) []
             (newPkt execCommand 41 (lit "me")) [] S1 eq_refl).
    + constructor.
    + discriminate.
    + eapply delivers_cons; [exists 9%nat; eexists; reflexivity|].
      eapply delivers_cons; [exists 9%nat; eexists; reflexivity|].
      eapply delivers_cons; [exists 9%nat; eexists; reflexivity|].
      apply delivers_nil.
Defined.

Lemma readSingle_ignores_type_witness :
  eventually (fun fuel => readSingle fuel 3 client_single)
    (Ok (lit "hi"), set_reader client_single []).
Proof.
  assert (D : delivers (reader client_single)
                (newPkt auth_type 3 (lit "hi")) [])
    by (exists 9%nat, 16; reflexivity).
  apply (proj1 (readSingle_ignores_type client_single 3
                  (newPkt auth_type 3 (lit "hi")) [] eq_refl D)).
  reflexivity.
Defined.


Lemma auth_handshake_witness :
  eventually (fun fuel => auth fuel client_auth)
    (Ok tt,
     set_reader (after_write client_auth auth_type (lit "secret")) []).
Proof.
  assert (F : fits (pwd client_auth)) by (unfold fits, Int32.max; simpl; lia).
  assert (P : pwd client_auth <> []) by discriminate.
  apply (proj1 (auth_handshake client_auth P F eq_refl eq_refl)
           (newPkt responseValue 0 []) (newPkt authResponse 0 [])
           (pieces [1]%nat (frames [newPkt authResponse 0 []])) []).
  - exists 9%nat, 14. reflexivity.
  - exists 9%nat, 14. reflexivity.
  - reflexivity.
  - reflexivity.
  - reflexivity.
  - reflexivity.
Defined.

Lemma ExecCmd_rejects_non_ascii_witness :
  Exec 0 e_acute_cho client_single = (Err ErrNonASCII, client_single)
  /\ sent (conn (snd (Exec 0 e_acute_cho client_single))) = []
  /\ reqID (snd (Exec 0 e_acute_cho client_single)) = 3.
Proof.
  apply (proj1 (proj2 (ExecCmd_rejects_non_ascii 0 client_single))
           e_acute_cho).
  exists (to_byte 0xC3). split.
  - left. reflexivity.
  - vm_compute. discriminate.
Defined.

Lemma round_trip_witness :
  exists buf : bytes,
    WriteTo (newPkt responseValue 7 body_with_zero) conn0
    = (Ok (Z.of_nat (length buf)),
       {| deadline_err := None; write_err := None; sent := [] ++ buf |})
    /\ forall (fuel : nat) (r : stream) (rest : bytes),
        available r = buf ++ rest -> (length r + 2 <= fuel)%nat ->
        exists (n : Z) (p : pkt) (r' : stream),
          ReadFrom fuel r = (n, Ok p, r')
          /\ Type_ p = responseValue /\ ID p = 7 /\ body p = body_with_zero
          /\ available r' = rest.
Proof.
  apply (round_trip responseValue 7 body_with_zero conn0).
  - unfold Int32.InRange, Int32.min, Int32.max, responseValue. lia.
  - unfold Int32.InRange, Int32.min, Int32.max. lia.
  - unfold fits, Int32.max. simpl. lia.
  - reflexivity.
Defined.

Lemma ReadFrom_safe_witness :
  snd (fst (ReadFrom 3 undersized))
  = Err (ErrMalformedResponse (Literal "size too small"))
  /\ snd (fst (ReadFrom 5 bad_trailer))
     = Err (ErrMalformedResponse (Literal "invalid trailer")).
Proof.
  split.
  - apply (proj1 (proj2 (ReadFrom_safe 3 undersized)) 9 (lit "rest")).
    + unfold Int32.InRange, Int32.min, Int32.max. lia.
    + lia.
    + reflexivity.
    + simpl. lia.
  - apply (proj1 (proj2 (proj2 (ReadFrom_safe 5 bad_trailer)))
             12 1 responseValue (lit "ab" ++ [to_byte 0x62; zero_byte]) []).
    + unfold Int32.InRange, Int32.min, Int32.max. lia.
    + unfold Int32.InRange, Int32.min, Int32.max. lia.
    + unfold Int32.InRange, Int32.min, Int32.max, responseValue. lia.
    + lia.
    + reflexivity.
    + reflexivity.
    + simpl. lia.
    + discriminate.
Defined.

(** A whole request in multi-packet mode, run: the command and the
    sentinel are written with ids 0 and 1, the counter ends at 2, and the
    reply is reassembled. *)
Example ExecCmd_echo_test_me :
  let run :=
    ExecCmd 9 (WithArgs (NewCmd (lit "echo")) [VString (lit "test me")])
      client_echo in
  fst run = Ok (lit "test me")
  /\ sent (conn (snd run))
     = frames [ newPkt execCommand 0 (lit "echo test me");
                newPkt responseValue 1 [] ]
  /\ reqID (snd run) = 2
  /\ reader (snd run) = [].
Proof. repeat split; vm_compute; reflexivity. Qed.

(** ** Where the spec's words go further than the code *)

(** C3 as stated fails: a body of [2^31 - 14] bytes has a size that fits an
    [int32], but the capacity [Size + 4] of the buffer wraps to a negative
    number and [WriteTo] panics. *)
Lemma round_trip_counterexample :
  Int32.InRange (Size (newPkt responseValue 0
                         (repeat zero_byte (Z.to_nat (2 ^ 31 - 14)))))
  /\ fst (WriteTo (newPkt responseValue 0
                     (repeat zero_byte (Z.to_nat (2 ^ 31 - 14)))) conn0)
     = Panic.
Proof.
  assert (S : Size (newPkt responseValue 0
                      (repeat zero_byte (Z.to_nat (2 ^ 31 - 14))))
              = 2 ^ 31 - 4).
  { unfold newPkt; cbn [Size]. rewrite repeat_length, Z2Nat.id by lia.
    reflexivity. }
  split.
  - rewrite S. unfold Int32.InRange, Int32.min, Int32.max. lia.
  - unfold WriteTo, encode. rewrite S. reflexivity.
Qed.

Lemma eventually_unique {A : Type} (run : nat -> A) (v v' : A) :
  eventually run v -> eventually run v' -> v = v'.
Proof.
  intros (f & H) (f' & H').
  transitivity (run (Nat.max f f')); [symmetry; apply H | apply H']; lia.
Qed.

(** C6 as stated fails: the type of a packet is tested before its id.  A
    decoded packet of the exec type whose id, 40, is neither 41 nor 42 is
    rejected for its type, not for its id; and a packet of the exec type
    with id 42 and the body "x", the first decoded packet with that id, is
    rejected for its type, not for its body. *)
Lemma readMulti_rejects_counterexample :
  (delivers_all (reader client_exec_typed)
     [newPkt execCommand 40 (lit "x")] []
   /\ ID (newPkt execCommand 40 (lit "x")) <> 41
   /\ ID (newPkt execCommand 40 (lit "x")) <> Int32.add 41 1
   /\ eventually (fun fuel => readMulti fuel 41 client_exec_typed)
        (Err (ErrMalformedResponse (Literal "unexpected type")),
         set_reader client_exec_typed [])
   /\ forall c' : Client,
        ~ eventually (fun fuel => readMulti fuel 41 client_exec_typed)
            (Err (ErrMalformedResponse
                    (Sprintf "unexpected packet id %v" (OpInt32 40))), c'))
  /\ (delivers_all (reader client_exec_typed_echo)
        [newPkt responseValue 41 (lit "test ");
         newPkt execCommand 42 (lit "x")] []
      /\ ID (newPkt execCommand 42 (lit "x")) = Int32.add 41 1
      /\ body (newPkt execCommand 42 (lit "x")) <> []
      /\ eventually (fun fuel => readMulti fuel 41 client_exec_typed_echo)
           (Err (ErrMalformedResponse (Literal "unexpected type")),
            set_reader client_exec_typed_echo [])
      /\ forall c' : Client,
           ~ eventually
               (fun fuel => readMulti fuel 41 client_exec_typed_echo)
               (Err (ErrMalformedResponse (Literal "non-empty body")), c')).
Proof.
  assert (D1 : delivers_all (reader client_exec_typed)
                 [newPkt execCommand 40 (lit "x")] []).
  { eapply delivers_cons; [exists 9%nat; eexists; reflexivity|].
    apply delivers_nil. }
  assert (D2 : delivers_all (reader client_exec_typed_echo)
                 [newPkt responseValue 41 (lit "test ");
                  newPkt execCommand 42 (lit "x")] []).
  { eapply delivers_cons; [exists 9%nat; eexists; reflexivity|].
    eapply delivers_cons; [exists 9%nat; eexists; reflexivity|].
    apply delivers_nil. }
  assert (E1 : eventually (fun fuel => readMulti fuel 41 client_exec_typed)
                 (Err (ErrMalformedResponse (Literal "unexpected type")),
                  set_reader client_exec_typed [])).
  { inversion D1 as [|? r1 ? ? ? Dp Dnil]; subst. inversion Dnil; subst.
    apply (readMulti_loop_bad_type client_exec_typed 41 []
             (newPkt execCommand 40 (lit "x")) [] 0 eq_refl Dp).
    discriminate. }
  assert (E2 : eventually
                 (fun fuel => readMulti fuel 41 client_exec_typed_echo)
                 (Err (ErrMalformedResponse (Literal "unexpected type")),
                  set_reader client_exec_typed_echo [])).
  { inversion D2 as [|? r1 ? ? ? Dp D']; subst.
    inversion D' as [|? r2 ? ? ? Dq Dnil]; subst. inversion Dnil; subst.
    unfold readMulti.
    apply (readMulti_loop_data client_exec_typed_echo 41 r1
             (newPkt responseValue 41 (lit "test ")) [] 0 _ eq_refl Dp).
    { split; reflexivity. }
    apply (readMulti_loop_bad_type (set_reader client_exec_typed_echo r1) 41
             [] (newPkt execCommand 42 (lit "x")) _ 0 eq_refl Dq).
    discriminate. }
  split.
  - split; [exact D1|]. split; [discriminate|]. split; [discriminate|].
    split; [exact E1|].
    intros c' H. pose proof (eventually_unique _ _ _ E1 H) as U.
    discriminate U.
  - split; [exact D2|]. split; [reflexivity|]. split; [discriminate|].
    split; [exact E2|].
    intros c' H. pose proof (eventually_unique _ _ _ E2 H) as U.
    discriminate U.
Qed.

(** C9 as stated fails: an empty last argument leaves the separating space
    at the end, and a last argument that ends in a newline keeps it. *)
Lemma Cmd_String_counterexample :
  Cmd_String (WithArgs (NewCmd (lit "echo")) [VString []]) = lit "echo "
  /\ has_trailing_space
       (Cmd_String (WithArgs (NewCmd (lit "echo")) [VString []])) = true
  /\ has_trailing_space
       (Cmd_String
          (WithArgs (NewCmd (lit "say")) [VString (lit "hi" ++ newline)]))
     = true.
Proof. repeat split; reflexivity. Qed.

(** * More of the code *)

(** ** What a decoded packet says of the bytes consumed *)

Lemma Read_all_data (r : stream) (k : nat) :
  all_data r = fst (fst (Read r k)) ++ all_data (snd (Read r k)).
Proof.
  destruct r as [|[bs|e] r']; simpl; auto.
  destruct (length bs <=? k)%nat; simpl; auto.
  rewrite app_assoc, firstn_skipn. reflexivity.
Qed.

Lemma io_ReadFull_sound (k : nat) :
  forall (fuel : nat) (r : stream) (got bs : bytes) (r' : stream),
    (length got <= k)%nat ->
    io_ReadFull fuel r k got = (Ok bs, r') ->
    exists more : bytes,
      bs = got ++ more /\ all_data r = more ++ all_data r'
      /\ length bs = k.
Proof.
  induction fuel as [|fuel IH]; intros r got bs r' Hgot E; simpl in E;
    [discriminate|].
  destruct (Nat.ltb_spec (length got) k) as [Hlt|Hge].
  - pose proof (Read_all_data r (k - length got)) as Hall.
    pose proof (Read_length r (k - length got)) as Hlen.
    destruct (Read r (k - length got)) as [[chunk [e|]] r1]; simpl in *.
    + destruct (Nat.leb_spec k (length (got ++ chunk))) as [Hk|Hk].
      * injection E as <- <-. exists chunk. rewrite length_app in *.
        repeat split; auto; lia.
      * destruct (0 <? length (got ++ chunk))%nat; [destruct e|];
          discriminate.
    + destruct (IH r1 (got ++ chunk) bs r' ltac:(rewrite length_app; lia) E)
        as (more & -> & Hmore & Hl).
      exists (chunk ++ more). rewrite <- !app_assoc in *.
      rewrite Hall, Hmore. auto.
  - injection E as <- <-. exists []. rewrite app_nil_r.
    repeat split; auto; lia.
Qed.

(** Encoding the number four bytes decode to gives the four bytes back. *)
Lemma le32_le32_decode (b0 b1 b2 b3 : byte) :
  le32 (le32_decode [b0; b1; b2; b3]) = [b0; b1; b2; b3].
Proof.
  pose proof (byte_val_range b0) as R0. pose proof (byte_val_range b1) as R1.
  pose proof (byte_val_range b2) as R2. pose proof (byte_val_range b3) as R3.
  unfold le32_decode.
  rewrite (lor_shiftl_add (byte_val b0)) by lia.
  rewrite (lor_shiftl_add (byte_val b0 + _)) by lia.
  rewrite (lor_shiftl_add (byte_val b0 + _ + _)) by lia.
  set (v := Int32.wrap _).
  assert (H0 : v mod 256 = byte_val b0
               /\ (v / 2 ^ 8) mod 256 = byte_val b1
               /\ (v / 2 ^ 16) mod 256 = byte_val b2
               /\ (v / 2 ^ 24) mod 256 = byte_val b3).
  { subst v. unfold Int32.wrap.
    change (2 ^ 8) with 256. change (2 ^ 16) with 65536.
    change (2 ^ 24) with 16777216. change (2 ^ 31) with 2147483648.
    change (2 ^ 32) with 4294967296.
    Z.div_mod_to_equations. lia. }
  destruct H0 as (E0 & E1 & E2 & E3).
  unfold le32, to_byte. change 255 with (Z.ones 8).
  rewrite !Z.land_ones, !Z.shiftr_div_pow2 by lia.
  change (2 ^ 8) with 256 in *. rewrite E0, E1, E2, E3.
  unfold byte_val. rewrite !N2Z.id, !ascii_N_embedding. reflexivity.
Qed.

Lemma binary_Read_sound (fuel : nat) (r : stream) (v : Z) (r' : stream) :
  binary_Read fuel r = (Ok v, r') ->
  all_data r = le32 v ++ all_data r' /\ Int32.InRange v.
Proof.
  intros E. pose proof (binary_Read_cases fuel r) as C. rewrite E in C.
  split; [|exact C]. unfold binary_Read in E.
  destruct (io_ReadFull fuel r 4 []) as [[bs| | |] r1] eqn:F;
    try discriminate.
  injection E as <- <-.
  destruct (io_ReadFull_sound 4 fuel r [] bs r1 ltac:(simpl; lia) F)
    as (more & -> & Hall & Hl).
  simpl in Hl. destruct more as [|b0 [|b1 [|b2 [|b3 [|]]]]]; try discriminate.
  cbn [app] in *. rewrite le32_le32_decode. exact Hall.
Qed.

Lemma firstn_store (s : bytes) (i : Z) (chunk : bytes) :
  0 <= i -> (Z.to_nat i + length chunk <= length s)%nat ->
  firstn (Z.to_nat (i + Z.of_nat (length chunk))) (store s i chunk)
  = firstn (Z.to_nat i) s ++ chunk.
Proof.
  intros Hi Hl. unfold store. rewrite app_assoc.
  replace (Z.to_nat (i + Z.of_nat (length chunk)))
    with (length (firstn (Z.to_nat i) s ++ chunk))
    by (rewrite length_app, length_firstn; lia).
  apply firstn_length_app.
Qed.

Lemma ReadFrom_payload_sound :
  forall (fuel : nat) (r : stream) (p : pkt) (n i out : Z) (p' : pkt)
         (r' : stream),
    Int32.InRange (Size p) -> 10 <= Size p ->
    Z.of_nat (length (body p)) = Size p - 8 ->
    0 <= i <= Size p - 8 ->
    ReadFrom_payload fuel r None p n i = (out, Ok p', r') ->
    exists added : bytes,
      all_data r = added ++ all_data r'
      /\ body p' ++ [zero_byte; zero_byte]
         = firstn (Z.to_nat i) (body p) ++ added
      /\ Size p' = Size p /\ ID p' = ID p /\ Type_ p' = Type_ p
      /\ out = n + (Size p - 8).
Proof.
  induction fuel as [|fuel IH]; intros r p n i out p' r' Hs Hmin Hlen Hi E;
    simpl in E; [discriminate|].
  assert (Hsub : Int32.sub (Size p) 8 = Size p - 8).
  { apply wrap_small. unfold Int32.InRange, Int32.min, Int32.max in *. lia. }
  rewrite Hsub in E. destruct (Z.ltb_spec i (Size p - 8)) as [Hlt|Hge].
  - unfold slice_from in E.
    replace ((0 <=? i) && (i <=? Z.of_nat (length (body p)))) with true in E
      by (symmetry; apply andb_true_iff; split; apply Z.leb_le; lia).
    pose proof (Read_length r (length (skipn (Z.to_nat i) (body p)))) as Hk.
    pose proof (Read_all_data r (length (skipn (Z.to_nat i) (body p))))
      as Hall.
    destruct (Read r (length (skipn (Z.to_nat i) (body p))))
      as [[chunk err2] r1].
    simpl in Hk, Hall. rewrite length_skipn in Hk.
    assert (Hadd : Int32.add i (Z.of_nat (length chunk))
                   = i + Z.of_nat (length chunk)).
    { apply wrap_small. unfold Int32.InRange, Int32.min, Int32.max in *. lia. }
    rewrite Hadd in E.
    assert (Hlen1 : Z.of_nat (length (store (body p) i chunk)) = Size p - 8)
      by (rewrite store_length; [exact Hlen | lia | lia]).
    destruct (IH r1 (set_body p (store (body p) i chunk)) n
                (i + Z.of_nat (length chunk)) out p' r' Hs Hmin Hlen1
                ltac:(cbn [Size set_body]; lia) E)
      as (added & Hdata & Hbody & HS & HI & HT & Hout).
    cbn [body set_body Size ID Type_] in *.
    rewrite firstn_store in Hbody by lia.
    exists (chunk ++ added). rewrite Hall, Hdata, <- !app_assoc in *.
    repeat split; auto.
  - assert (Hi' : i = Z.of_nat (length (body p))) by lia.
    unfold ReadFrom_trailer, slice_from, slice_to in E.
    replace ((0 <=? Z.of_nat (length (body p)) - 2)
             && (Z.of_nat (length (body p)) - 2 <=? Z.of_nat (length (body p))))
      with true in E
      by (symmetry; apply andb_true_iff; split; apply Z.leb_le; lia).
    destruct (bytes_Equal _ _) eqn:T; simpl in E; [|discriminate].
    injection E as <- <- <-. apply bytes_Equal_eq in T.
    exists []. cbn [body set_body Size ID Type_]. rewrite !app_nil_r, <- T.
    rewrite firstn_skipn, Hi', Nat2Z.id, firstn_all.
    repeat split; auto. lia.
Qed.

(** Whatever [ReadFrom] decodes, the bytes it took from the stream are the
    three little-endian fields, the body and two zero bytes. *)
Lemma ReadFrom_sound (fuel : nat) (r : stream) (n : Z) (p : pkt)
    (r' : stream) :
  ReadFrom fuel r = (n, Ok p, r') ->
  all_data r
  = wire (Size p) (ID p) (Type_ p) (body p ++ [zero_byte; zero_byte])
    ++ all_data r'
  /\ n = Size p + 4
  /\ Int32.InRange (Size p) /\ Int32.InRange (ID p)
  /\ Int32.InRange (Type_ p).
Proof.
  unfold ReadFrom. intros E.
  destruct (binary_Read fuel r) as [[size| | |] r1] eqn:E1; try discriminate.
  destruct (binary_Read_sound _ _ _ _ E1) as (A1 & R1).
  destruct (Z.ltb_spec size 10) as [|Hmin]; [discriminate|].
  destruct (binary_Read fuel r1) as [[id| | |] r2] eqn:E2; try discriminate.
  destruct (binary_Read_sound _ _ _ _ E2) as (A2 & R2).
  destruct (binary_Read fuel r2) as [[type| | |] r3] eqn:E3; try discriminate.
  destruct (binary_Read_sound _ _ _ _ E3) as (A3 & R3).
  assert (Hsub : Int32.sub size 8 = size - 8).
  { apply wrap_small. unfold Int32.InRange, Int32.min, Int32.max in *. lia. }
  unfold make in E. rewrite Hsub in E.
  replace (size - 8 <? 0) with false in E by (symmetry; apply Z.ltb_ge; lia).
  assert (Hlen0 : Z.of_nat (length (repeat zero_byte (Z.to_nat (size - 8))))
                  = size - 8) by (rewrite repeat_length; lia).
  destruct (ReadFrom_payload_sound fuel r3
              {| Size := size; ID := id; Type_ := type;
                 body := repeat zero_byte (Z.to_nat (size - 8)) |}
              (0 + 4 + 4 + 4) 0 n p r' R1 Hmin Hlen0
              ltac:(cbn [Size]; lia) E)
    as (added & Hdata & Hbody & HS & HI & HT & Hout).
  cbn [body Size ID Type_ firstn Z.to_nat app] in *.
  rewrite HS, HI, HT, Hbody. unfold wire.
  rewrite A1, A2, A3, Hdata, <- !app_assoc.
  repeat split; auto; try lia;
    try apply R1; try apply R2; try apply R3.
Qed.

(** ** Streams without faults *)

Lemma no_fault_all_data (r : stream) : no_fault r -> all_data r = available r.
Proof.
  induction 1 as [|[bs|e] r H _ IH]; simpl; [reflexivity| |contradiction].
  now rewrite IH.
Qed.

Lemma Read_no_fault (r : stream) (k : nat) :
  no_fault r -> no_fault (snd (Read r k)).
Proof.
  intros H. destruct H as [|[bs|e] r H Hr]; simpl; [constructor| |contradiction].
  destruct (length bs <=? k)%nat; simpl; [assumption|].
  constructor; [exact I | assumption].
Qed.

Lemma io_ReadFull_no_fault (k : nat) :
  forall (fuel : nat) (r : stream) (got : bytes),
    no_fault r -> no_fault (snd (io_ReadFull fuel r k got)).
Proof.
  induction fuel as [|fuel IH]; intros r got H; simpl; [assumption|].
  destruct (length got <? k)%nat; [|assumption].
  pose proof (Read_no_fault r (k - length got) H) as H1.
  destruct (Read r (k - length got)) as [[chunk [e|]] r1]; simpl in H1.
  - destruct (k <=? length (got ++ chunk))%nat; [assumption|].
    destruct (0 <? length (got ++ chunk))%nat; [destruct e|]; assumption.
  - apply IH. assumption.
Qed.

Lemma binary_Read_no_fault (fuel : nat) (r : stream) :
  no_fault r -> no_fault (snd (binary_Read fuel r)).
Proof.
  intros H. pose proof (io_ReadFull_no_fault 4 fuel r [] H) as H1.
  unfold binary_Read. destruct (io_ReadFull fuel r 4 []) as [[bs| | |] r1];
    assumption.
Qed.

Lemma ReadFrom_payload_no_fault :
  forall (fuel : nat) (r : stream) (p : pkt) (n i : Z),
    no_fault r -> no_fault (snd (ReadFrom_payload fuel r None p n i)).
Proof.
  induction fuel as [|fuel IH]; intros r p n i H; simpl; [assumption|].
  destruct (i <? Int32.sub (Size p) 8).
  - destruct (slice_from (body p) i) as [dst|]; [|assumption].
    pose proof (Read_no_fault r (length dst) H) as H1.
    destruct (Read r (length dst)) as [[chunk err2] r1]. apply IH. assumption.
  - unfold ReadFrom_trailer.
    destruct (slice_from _ _); [|assumption].
    destruct (negb _); [assumption|].
    destruct (slice_to _ _); assumption.
Qed.

Lemma ReadFrom_no_fault (fuel : nat) (r : stream) :
  no_fault r -> no_fault (snd (ReadFrom fuel r)).
Proof.
  intros H. unfold ReadFrom.
  pose proof (binary_Read_no_fault fuel r H) as H1.
  destruct (binary_Read fuel r) as [[size| | |] r1]; try assumption.
  destruct (size <? 10); [assumption|]. simpl in H1.
  pose proof (binary_Read_no_fault fuel r1 H1) as H2.
  destruct (binary_Read fuel r1) as [[id| | |] r2]; try assumption.
  simpl in H2.
  pose proof (binary_Read_no_fault fuel r2 H2) as H3.
  destruct (binary_Read fuel r2) as [[type| | |] r3]; try assumption.
  simpl in H3.
  destruct (make _); [|assumption].
  apply ReadFrom_payload_no_fault. assumption.
Qed.

(** At the end of a stream without faults the header read reports
    [io.EOF]. *)
Lemma ReadFrom_at_end :
  forall (r : stream) (fuel : nat),
    no_fault r -> available r = [] -> (length r + 1 <= fuel)%nat ->
    ReadFrom fuel r = (0, Err io_EOF, []).
Proof.
  assert (G : forall (r : stream) (fuel : nat),
             no_fault r -> available r = [] -> (length r + 1 <= fuel)%nat ->
             io_ReadFull fuel r 4 [] = (Err io_EOF, [])).
  { induction r as [|[bs|e] r IH]; intros fuel H A L;
      (destruct fuel as [|fuel]; [simpl in L; lia|]).
    - reflexivity.
    - simpl in A. apply app_eq_nil in A. destruct A as [-> A].
      inversion H; subst. simpl. apply IH; auto. simpl in L. lia.
    - inversion H; subst. contradiction. }
  intros r fuel H A L. unfold ReadFrom, binary_Read.
  rewrite (G r fuel H A L). reflexivity.
Qed.

(** X1. Whenever [ReadFrom] returns a packet, the bytes it consumed from the
    stream are exactly the packet's frame (size, id and type in little
    endian, the body, two zero bytes), the count it returns is [Size + 4],
    and, the size leaving room for the buffer capacity, [WriteTo] would
    assemble those same bytes from the packet. *)
Theorem ReadFrom_consumes_frame (fuel : nat) (r : stream) (n : Z) (p : pkt)
    (r' : stream) :
  ReadFrom fuel r = (n, Ok p, r') ->
  all_data r
  = wire (Size p) (ID p) (Type_ p) (body p ++ [zero_byte; zero_byte])
    ++ all_data r'
  /\ n = Size p + 4
  /\ (Size p + 4 <= Int32.max ->
      encode p
      = Ok (wire (Size p) (ID p) (Type_ p)
              (body p ++ [zero_byte; zero_byte]))).
Proof.
  intros E. destruct (ReadFrom_sound fuel r n p r' E) as (A & Hn & RS & _).
  pose proof (ReadFrom_post_holds fuel r) as Post. rewrite E in Post.
  destruct Post as [Hmin _]. repeat split; auto.
  intros Hmax. unfold encode, Int32.add.
  rewrite wrap_small by (unfold Int32.InRange, Int32.min, Int32.max in *; lia).
  replace (Size p + 4 <? 0) with false by (symmetry; apply Z.ltb_ge; lia).
  reflexivity.
Qed.

Lemma ReadFrom_consumes_frame_witness :
  all_data (reader client_single)
  = wire 12 3 auth_type (lit "hi" ++ [zero_byte; zero_byte]) ++ all_data []
  /\ 16 = 12 + 4
  /\ (12 + 4 <= Int32.max ->
      encode (newPkt auth_type 3 (lit "hi"))
      = Ok (wire 12 3 auth_type (lit "hi" ++ [zero_byte; zero_byte]))).
Proof.
  apply (ReadFrom_consumes_frame 9 (reader client_single) 16
           (newPkt auth_type 3 (lit "hi")) []).
  reflexivity.
Defined.

(** ** More of the reassembly loop *)

Lemma readMulti_loop_bad_marker (c : Client) (N : Z) (r' : stream) (p : pkt)
    (buf : bytes) :
  setDeadline c = None -> delivers (reader c) p r' -> is_sentinel N p ->
  body p <> responseBody ->
  eventually (fun fuel => readMulti_loop fuel N buf 1 c)
    (Err (ErrMalformedResponse
            (Sprintf "unexpected body %q" (OpString (Body p)))),
     set_reader c r').
Proof.
  intros Hd D S Hb. loop_round Hd D 0%nat.
  rewrite (sentinel_not_data N p S). destruct S as [Ht Hi].
  rewrite Ht, Hi, !Z.eqb_refl. cbn [negb].
  change (1 + 1 =? 1) with false. change (1 + 1 =? 2) with true. cbv iota.
  destruct (bytes_Equal (body p) responseBody) eqn:E; [|reflexivity].
  apply bytes_Equal_eq in E. contradiction.
Qed.

(** X2. In multi-packet mode, when the second packet with id [N+1] does not
    carry exactly the marker [{0x00,0x01,0x00,0x00}], [readMulti] fails with
    the malformed-response error built from "unexpected body %q" and that
    packet's body, whatever output was collected before. *)
Theorem readMulti_bad_marker (c : Client) (N : Z) (before between : list pkt)
    (s1 s2 : pkt) (r' : stream) :
  setDeadline c = None ->
  Forall (is_data N) before -> Forall (is_data N) between ->
  is_sentinel N s1 -> body s1 = [] ->
  is_sentinel N s2 -> body s2 <> responseBody ->
  delivers_all (reader c) (before ++ [s1] ++ between ++ [s2]) r' ->
  eventually (fun fuel => readMulti fuel N c)
    (Err (ErrMalformedResponse
            (Sprintf "unexpected body %q" (OpString (body s2)))),
     set_reader c r').
Proof.
  intros Hd Hb Hm S1 B1 S2 B2 D.
  destruct (delivers_all_split _ _ _ _ D) as (r1 & D1 & D').
  inversion D' as [|? r2 ? ? ? Ds1 D'']; subst.
  destruct (delivers_all_split _ _ _ _ D'') as (r3 & D2 & D3).
  inversion D3 as [|? r4 ? ? ? Ds2 Dnil]; subst. inversion Dnil; subst.
  unfold readMulti.
  apply (readMulti_loop_datas N before c r1 [] 0 _ Hd D1 Hb).
  apply (readMulti_loop_echo (set_reader c r1) N r2 s1 _ _ Hd Ds1 S1 B1).
  apply (readMulti_loop_datas N between (set_reader c r2) r3 _ 1 _ Hd D2 Hm).
  apply (readMulti_loop_bad_marker (set_reader c r3) N r' s2 _ Hd Ds2 S2 B2).
Qed.

Lemma readMulti_bad_marker_witness :
  eventually (fun fuel => readMulti fuel 41 client_short_marker)
    (Err (ErrMalformedResponse
            (Sprintf "unexpected body %q" (OpString (lit "done")))),
     set_reader client_short_marker []).
Proof.
  assert (B : Forall (is_data 41) [newPkt responseValue 41 (lit "test ")])
    by (repeat constructor).
  apply (readMulti_bad_marker client_short_marker 41
           [newPkt responseValue 41 (lit "test ")] []
           (newPkt responseValue 42 [])
           (newPkt responseValue 42 (lit "done")) [] eq_refl B).
  - constructor.
  - split; reflexivity.
  - reflexivity.
  - split; reflexivity.
  - discriminate.
  - eapply delivers_cons; [exists 9%nat; eexists; reflexivity|].
    eapply delivers_cons; [exists 9%nat; eexists; reflexivity|].
    eapply delivers_cons; [exists 9%nat; eexists; reflexivity|].
    apply delivers_nil.
Defined.

(** What a successful [readPkt] says. *)
Lemma readPkt_Ok (fuel : nat) (c c1 : Client) (p : pkt) :
  readPkt fuel c = (Ok p, c1) ->
  setDeadline c = None /\ delivers (reader c) p (reader c1)
  /\ c1 = set_reader c (reader c1).
Proof.
  unfold readPkt. destruct (setDeadline c); [discriminate|].
  destruct (ReadFrom fuel (reader c)) as [[n res] r1] eqn:E.
  intros H. injection H as -> <-. cbn [reader set_reader].
  repeat split; auto. exists fuel, n. exact E.
Qed.

Ltac conjs :=
  repeat match goal with |- _ /\ _ => split end.

(** The loop returns a string only at the marker. *)
Lemma readMulti_loop_Ok_1 (N : Z) :
  forall (fuel : nat) (c c' : Client) (buf out : bytes),
    readMulti_loop fuel N buf 1 c = (Ok out, c') ->
    exists (between : list pkt) (s2 : pkt),
      delivers_all (reader c) (between ++ [s2]) (reader c')
      /\ Forall (is_data N) between
      /\ is_sentinel N s2 /\ body s2 = responseBody
      /\ out = buf ++ concat (map body between)
      /\ c' = set_reader c (reader c').
Proof.
  induction fuel as [|fuel IH]; intros c c' buf out E; [discriminate|].
  cbn [readMulti_loop] in E.
  destruct (readPkt (S fuel) c) as [[p| | |] c1] eqn:R; try discriminate.
  destruct (readPkt_Ok _ _ _ _ R) as (Hd & D & Hc1).
  destruct (Z.eqb_spec (Type_ p) responseValue) as [Ht|]; [|discriminate].
  cbn [negb] in E.
  destruct (Z.eqb_spec (ID p) N) as [Hi|Hn].
  - destruct (IH c1 c' _ out E) as (between & s2 & Dall & Hb & S2 & B2 & Ho & Hc).
    exists (p :: between), s2. conjs; auto.
    + simpl. econstructor; eauto.
    + constructor; [split|]; assumption.
    + cbn [map concat]. rewrite Ho, app_assoc. reflexivity.
    + rewrite Hc, Hc1. reflexivity.
  - destruct (Z.eqb_spec (ID p) (Int32.add N 1)) as [Hi1|]; [|discriminate].
    change (1 + 1 =? 1) with false in E. change (1 + 1 =? 2) with true in E.
    cbv iota in E.
    destruct (bytes_Equal (body p) responseBody) eqn:B; [|discriminate].
    injection E as <- <-. apply bytes_Equal_eq in B.
    exists [], p. conjs; auto.
    + simpl. econstructor; [exact D | constructor].
    + split; assumption.
    + simpl. rewrite app_nil_r. reflexivity.
Qed.

Lemma readMulti_loop_Ok_0 (N : Z) :
  forall (fuel : nat) (c c' : Client) (buf out : bytes),
    readMulti_loop fuel N buf 0 c = (Ok out, c') ->
    exists (before : list pkt) (s1 : pkt) (between : list pkt) (s2 : pkt),
      delivers_all (reader c) (before ++ [s1] ++ between ++ [s2]) (reader c')
      /\ Forall (is_data N) before /\ Forall (is_data N) between
      /\ is_sentinel N s1 /\ body s1 = []
      /\ is_sentinel N s2 /\ body s2 = responseBody
      /\ out = buf ++ concat (map body (before ++ between))
      /\ c' = set_reader c (reader c').
Proof.
  induction fuel as [|fuel IH]; intros c c' buf out E; [discriminate|].
  cbn [readMulti_loop] in E.
  destruct (readPkt (S fuel) c) as [[p| | |] c1] eqn:R; try discriminate.
  destruct (readPkt_Ok _ _ _ _ R) as (Hd & D & Hc1).
  destruct (Z.eqb_spec (Type_ p) responseValue) as [Ht|]; [|discriminate].
  cbn [negb] in E.
  destruct (Z.eqb_spec (ID p) N) as [Hi|Hn].
  - destruct (IH c1 c' _ out E)
      as (before & s1 & between & s2 & Dall & Hb & Hm & S1 & B1 & S2 & B2
          & Ho & Hc).
    exists (p :: before), s1, between, s2. conjs; auto.
    + simpl. econstructor; eauto.
    + constructor; [split|]; assumption.
    + cbn [app map concat]. rewrite Ho, app_assoc. reflexivity.
    + rewrite Hc, Hc1. reflexivity.
  - destruct (Z.eqb_spec (ID p) (Int32.add N 1)) as [Hi1|]; [|discriminate].
    change (0 + 1 =? 1) with true in E. cbv iota in E.
    destruct (body p) as [|x l] eqn:B; [|discriminate].
    cbn [length Z.of_nat Z.eqb negb] in E.
    destruct (readMulti_loop_Ok_1 N fuel c1 c' buf out E)
      as (between & s2 & Dall & Hm & S2 & B2 & Ho & Hc).
    exists [], p, between, s2. conjs; auto.
    + simpl. econstructor; eauto.
    + split; assumption.
    + rewrite Hc, Hc1. reflexivity.
Qed.

(** X3. [readMulti] returns a string only at the marker: whenever it
    succeeds, what it decoded is a run of response-value packets with id
    [N], the empty sentinel packet with id [N+1], a further run with id [N],
    and the marker packet with id [N+1]; the string is the concatenation of
    the id-[N] bodies in order; and only the reader of the client moved. *)
Theorem readMulti_succeeds_only_at_marker (fuel : nat) (N : Z) (c c' : Client)
    (out : bytes) :
  readMulti fuel N c = (Ok out, c') ->
  exists (before : list pkt) (s1 : pkt) (between : list pkt) (s2 : pkt),
    delivers_all (reader c) (before ++ [s1] ++ between ++ [s2]) (reader c')
    /\ Forall (is_data N) before /\ Forall (is_data N) between
    /\ is_sentinel N s1 /\ body s1 = []
    /\ is_sentinel N s2 /\ body s2 = responseBody
    /\ out = concat (map body (before ++ between))
    /\ c' = set_reader c (reader c').
Proof.
  unfold readMulti. intros E.
  destruct (readMulti_loop_Ok_0 N fuel c c' [] out E)
    as (before & s1 & between & s2 & H). 
  exists before, s1, between, s2. exact H.
Qed.

Lemma readMulti_succeeds_only_at_marker_witness :
  exists (before : list pkt) (s1 : pkt) (between : list pkt) (s2 : pkt),
    delivers_all (reader client_test_me)
      (before ++ [s1] ++ between ++ [s2]) []
    /\ Forall (is_data 41) before /\ Forall (is_data 41) between
    /\ is_sentinel 41 s1 /\ body s1 = []
    /\ is_sentinel 41 s2 /\ body s2 = responseBody
    /\ lit "test me" = concat (map body (before ++ between))
    /\ set_reader client_test_me [] = set_reader client_test_me [].
Proof.
  apply (readMulti_succeeds_only_at_marker 9 41 client_test_me
           (set_reader client_test_me []) (lit "test me")).
  reflexivity.
Defined.

(** ** More of the handshake *)

Lemma writePkt_Ok (t : Z) (b : bytes) (c c1 : Client) :
  writePkt t b c = (Ok tt, c1) ->
  deadline_err (conn c) = None /\ write_err (conn c) = None
  /\ exists buf : bytes,
       encode (newPkt t (reqID c) b) = Ok buf
       /\ c1 = {| conn :=
                    {| deadline_err := deadline_err (conn c);
                       write_err := write_err (conn c);
                       sent := sent (conn c) ++ buf |};
                  pwd := pwd c; reader := reader c;
                  reqID := Int32.add (reqID c) 1;
                  read := read c; write := write c |}.
Proof.
  unfold writePkt, setDeadline, WriteTo. cbn [conn set_reqID].
  destruct (deadline_err (conn c)) eqn:Hd; [discriminate|].
  destruct (encode (newPkt t (reqID c) b)) as [buf| | |] eqn:He;
    try discriminate.
  unfold conn_Write. destruct (write_err (conn c)) eqn:Hw; [discriminate|].
  intros E. injection E as <-. conjs; auto.
  exists buf. split; [reflexivity|].
  unfold set_conn, set_reqID. cbn. rewrite Hd. reflexivity.
Qed.

(** X4. The handshake reports success only in two cases: no password is
    configured, and then nothing is written or read; or the auth packet was
    written (one frame, the counter one further) and either the first decoded
    packet is an auth-response with id 0, or it is a response-value with id 0
    and the packet after it is an auth-response with id 0. *)
Theorem auth_succeeds_only_if (fuel : nat) (c c' : Client) :
  auth fuel c = (Ok tt, c') ->
  (pwd c = [] /\ c' = c)
  \/ (pwd c <> []
      /\ exists (buf : bytes) (p1 : pkt) (r1 : stream),
           encode (newPkt auth_type (reqID c) (pwd c)) = Ok buf
           /\ sent (conn c') = sent (conn c) ++ buf
           /\ reqID c' = Int32.add (reqID c) 1
           /\ delivers (reader c) p1 r1 /\ ID p1 = 0
           /\ ((Type_ p1 = authResponse /\ reader c' = r1)
               \/ (Type_ p1 = responseValue
                   /\ exists p2 : pkt,
                        delivers r1 p2 (reader c')
                        /\ ID p2 = 0 /\ Type_ p2 = authResponse))).
Proof.
  unfold auth. destruct (pwd c) as [|x l] eqn:P.
  - intros E. injection E as <-. left. auto.
  - rewrite <- P.
    destruct (writePkt auth_type (pwd c) c) as [[[]| | |] c1] eqn:W;
      try discriminate.
    destruct (writePkt_Ok _ _ _ _ W) as (_ & _ & buf & He & Hc1).
    destruct (readPkt fuel c1) as [[p1| | |] c2] eqn:R1; try discriminate.
    destruct (readPkt_Ok _ _ _ _ R1) as (_ & D1 & Hc2).
    destruct (Z.eqb_spec (ID p1) 0) as [I1|]; [|discriminate].
    cbn [negb]. intros E. right. split; [rewrite P; discriminate|].
    exists buf, p1, (reader c2).
    assert (Hr1 : reader c1 = reader c) by (rewrite Hc1; reflexivity).
    rewrite Hr1 in D1.
    destruct (Z.eqb_spec (Type_ p1) responseValue) as [T1|T1].
    + destruct (readPkt fuel c2) as [[p2| | |] c3] eqn:R2; try discriminate.
      destruct (readPkt_Ok _ _ _ _ R2) as (_ & D2 & Hc3).
      destruct (Z.eqb_spec (ID p2) 0) as [I2|]; [|discriminate].
      destruct (Z.eqb_spec (Type_ p2) authResponse) as [T2|]; [|discriminate].
      injection E as <-. rewrite Hc3, Hc2, Hc1. cbn.
      conjs; auto. right. split; [assumption|]. exists p2.
      rewrite Hc3 in D2. cbn in D2. auto.
    + destruct (Z.eqb_spec (Type_ p1) authResponse) as [T2|]; [|discriminate].
      injection E as <-. rewrite Hc2, Hc1. cbn. conjs; auto.
Qed.

Lemma auth_succeeds_only_if_witness :
  (pwd client_auth = []
   /\ set_reader (after_write client_auth auth_type (lit "secret")) []
      = client_auth)
  \/ (pwd client_auth <> []
      /\ exists (buf : bytes) (p1 : pkt) (r1 : stream),
           encode (newPkt auth_type 0 (lit "secret")) = Ok buf
           /\ sent (conn (set_reader
                            (after_write client_auth auth_type (lit "secret"))
                            []))
              = [] ++ buf
           /\ 1 = Int32.add 0 1
           /\ delivers (reader client_auth) p1 r1 /\ ID p1 = 0
           /\ ((Type_ p1 = authResponse /\ [] = r1)
               \/ (Type_ p1 = responseValue
                   /\ exists p2 : pkt,
                        delivers r1 p2 [] /\ ID p2 = 0
                        /\ Type_ p2 = authResponse))).
Proof.
  apply (auth_succeeds_only_if 9 client_auth
           (set_reader (after_write client_auth auth_type (lit "secret")) [])).
  reflexivity.
Defined.

(** ** More of the command model *)

(** X5. [Cmd.String] does no quoting: an argument with a space in it
    renders as two arguments do, and a verb with a space in it as a verb
    with an argument, so the string sent does not tell them apart. *)
Theorem Cmd_String_no_quoting (verb a b : bytes) (before rest : list value) :
  Cmd_String
    (WithArgs (NewCmd verb) (before ++ VString (a ++ space ++ b) :: rest))
  = Cmd_String
      (WithArgs (NewCmd verb) (before ++ VString a :: VString b :: rest))
  /\ Cmd_String (NewCmd (verb ++ space ++ a))
     = Cmd_String (WithArgs (NewCmd verb) [VString a]).
Proof.
  rewrite !Cmd_String_eq. cbn [cmd args WithArgs NewCmd]. split.
  - rewrite !map_app, !concat_app. cbn [map concat format_v].
    rewrite <- !app_assoc. reflexivity.
  - cbn [map concat format_v]. rewrite !app_nil_r. reflexivity.
Qed.

(** ** More of a request *)

Lemma fits_nil : fits [].
Proof. unfold fits, Int32.max. simpl. lia. Qed.

Lemma writeMulti_ok (c : Client) (t : Z) (b : bytes) :
  deadline_err (conn c) = None -> write_err (conn c) = None -> fits b ->
  writeMulti t b c
  = (Ok tt, after_write (after_write c t b) responseValue []).
Proof.
  intros Hd Hw Hb. unfold writeMulti.
  rewrite (writePkt_ok c t b Hd Hw Hb).
  apply writePkt_ok; [exact Hd | exact Hw | exact fits_nil].
Qed.

(** A body of ASCII bytes passes the guard of [ExecCmd]. *)
Lemma ascii_passes (b : bytes) :
  Forall (fun x => byte_val x < 0x80) b -> non_ascii (utf8.range 0 b) = false.
Proof.
  intros H. rewrite non_ascii_range.
  induction H as [|x l Hx _ IH]; [reflexivity|]. simpl.
  rewrite IH. destruct (Z.leb_spec 0x80 (byte_val x)); [lia | reflexivity].
Qed.

(** X6. A whole request in multi-packet mode.  For an ASCII command and a
    working transport, [ExecCmd] writes two frames, the command with the
    current id [N] and an empty response-value packet with id [N+1], moves
    the counter by two, and, when the responses are id-[N] packets around
    the empty and the marker packet with id [N+1], returns the concatenated
    bodies having read exactly those packets. *)
Theorem ExecCmd_multi (c : Client) (cm : Cmd) (before between : list pkt)
    (s1 s2 : pkt) (r' : stream) :
  read c = readMulti_fn -> write c = writeMulti_fn ->
  deadline_err (conn c) = None -> write_err (conn c) = None ->
  Forall (fun x => byte_val x < 0x80) (Cmd_String cm) ->
  fits (Cmd_String cm) ->
  Forall (is_data (reqID c)) before -> Forall (is_data (reqID c)) between ->
  is_sentinel (reqID c) s1 -> body s1 = [] ->
  is_sentinel (reqID c) s2 -> body s2 = responseBody ->
  delivers_all (reader c) (before ++ [s1] ++ between ++ [s2]) r' ->
  exists c' : Client,
    eventually (fun fuel => ExecCmd fuel cm c)
      (Ok (concat (map body (before ++ between))), c')
    /\ sent (conn c')
       = sent (conn c)
         ++ frames [ newPkt execCommand (reqID c) (Cmd_String cm);
                     newPkt responseValue (Int32.add (reqID c) 1) [] ]
    /\ reqID c' = Int32.add (Int32.add (reqID c) 1) 1
    /\ reader c' = r'.
Proof.
  intros Hr Hw Hd Hwe Hascii Hfits Hb Hm S1 B1 S2 B2 D.
  set (b := Cmd_String cm) in *.
  set (c2 := after_write (after_write c execCommand b) responseValue []).
  assert (Hd2 : setDeadline c2 = None) by exact Hd.
  exists (set_reader c2 r'). conjs.
  - destruct (delivers_all_split _ _ _ _ D) as (r1 & D1 & D').
    inversion D' as [|? r2 ? ? ? Ds1 D'']; subst.
    destruct (delivers_all_split _ _ _ _ D'') as (r3 & D2 & D3).
    inversion D3 as [|? r4 ? ? ? Ds2 Dnil]; subst. inversion Dnil; subst.
    assert (L : eventually
                  (fun fuel => readMulti_loop fuel (reqID c) [] 0 c2)
                  (Ok (concat (map body (before ++ between))),
                   set_reader c2 r')).
    { apply (readMulti_loop_datas _ before c2 r1 [] 0 _ Hd2 D1 Hb).
      apply (readMulti_loop_echo (set_reader c2 r1) _ r2 s1 _ _ Hd2 Ds1 S1 B1).
      apply (readMulti_loop_datas _ between (set_reader c2 r2) r3 _ 1 _ Hd2
               D2 Hm).
      rewrite map_app, concat_app. simpl app at 1.
      apply (readMulti_loop_marker (set_reader c2 r3) _ r' s2 _ Hd2 Ds2 S2
               B2). }
    destruct L as (f0 & L). exists f0. intros fuel Hf.
    unfold ExecCmd. fold b. rewrite (ascii_passes b Hascii).
    unfold call_write. rewrite Hw, (writeMulti_ok c execCommand b Hd Hwe Hfits).
    fold c2. unfold call_read. change (read c2) with (read c). rewrite Hr.
    apply L. exact Hf.
  - cbn [sent conn set_reader c2 after_write reqID frames body ID Type_
           newPkt].
    rewrite <- !app_assoc, app_nil_r. reflexivity.
  - reflexivity.
  - reflexivity.
Qed.

Lemma ExecCmd_multi_witness :
  exists c' : Client,
    eventually
      (fun fuel =>
         ExecCmd fuel
           (WithArgs (NewCmd (lit "echo")) [VString (lit "test me")])
           client_echo)
      (Ok (lit "test me"), c')
    /\ sent (conn c')
       = frames [ newPkt execCommand 0 (lit "echo test me");
                  newPkt responseValue 1 [] ]
    /\ reqID c' = 2
    /\ reader c' = [].
Proof.
  assert (A : Forall (fun x => byte_val x < 0x80)
                (Cmd_String
                   (WithArgs (NewCmd (lit "echo")) [VString (lit "test me")])))
    by (repeat constructor).
  assert (F : fits (Cmd_String
                      (WithArgs (NewCmd (lit "echo"))
                         [VString (lit "test me")])))
    by (unfold fits, Int32.max; simpl; lia).
  assert (B : Forall (is_data (reqID client_echo))
                [newPkt responseValue 0 (lit "test me")])
    by (repeat constructor).
  apply (ExecCmd_multi client_echo
           (WithArgs (NewCmd (lit "echo")) [VString (lit "test me")])
           [newPkt responseValue 0 (lit "test me")] []
           (newPkt responseValue 1 []) (newPkt responseValue 1 responseBody)
           [] eq_refl eq_refl eq_refl eq_refl A F B).
  - constructor.
  - split; reflexivity.
  - reflexivity.
  - split; reflexivity.
  - reflexivity.
  - eapply delivers_cons; [exists 9%nat; eexists; reflexivity|].
    eapply delivers_cons; [exists 9%nat; eexists; reflexivity|].
    eapply delivers_cons; [exists 9%nat; eexists; reflexivity|].
    apply delivers_nil.
Defined.

(** X7. When the transport refuses the write, because the deadline cannot
    be set or because the write fails, [ExecCmd] returns that error in either
    mode without sending or reading anything, and the request id is used up
    all the same: the counter is one further.  In multi-packet mode the
    sentinel packet is not attempted. *)
Theorem ExecCmd_write_failure (fuel : nat) (c : Client) (cm : Cmd) (e : error) :
  Forall (fun x => byte_val x < 0x80) (Cmd_String cm) ->
  (deadline_err (conn c) = Some e ->
   ExecCmd fuel cm c = (Err e, set_reqID c (Int32.add (reqID c) 1)))
  /\ (deadline_err (conn c) = None -> write_err (conn c) = Some e ->
      fits (Cmd_String cm) ->
      ExecCmd fuel cm c = (Err e, set_reqID c (Int32.add (reqID c) 1))).
Proof.
  intros Hascii.
  assert (W1 : forall t b, deadline_err (conn c) = Some e ->
                 writePkt t b c = (Err e, set_reqID c (Int32.add (reqID c) 1))).
  { intros t b Hd. unfold writePkt, setDeadline. cbn [conn set_reqID].
    rewrite Hd. reflexivity. }
  assert (W2 : forall t b, deadline_err (conn c) = None ->
                 write_err (conn c) = Some e -> fits b ->
                 writePkt t b c = (Err e, set_reqID c (Int32.add (reqID c) 1))).
  { intros t b Hd Hw Hb. unfold writePkt, setDeadline, WriteTo.
    cbn [conn set_reqID]. rewrite Hd, (encode_newPkt t (reqID c) b Hb).
    unfold conn_Write. rewrite Hw. reflexivity. }
  split.
  - intros Hd. unfold ExecCmd. rewrite (ascii_passes _ Hascii).
    unfold call_write, writeMulti. destruct (write c); rewrite W1; auto.
  - intros Hd Hw Hb. unfold ExecCmd. rewrite (ascii_passes _ Hascii).
    unfold call_write, writeMulti. destruct (write c); rewrite W2; auto.
Qed.

Lemma ExecCmd_write_failure_witness :
  ExecCmd 0 echo_hi client_reset
  = (Err (net_Error "connection reset"),
     set_reqID client_reset (Int32.add 7 1)).
Proof.
  assert (A : Forall (fun x => byte_val x < 0x80) (Cmd_String echo_hi))
    by (repeat constructor).
  apply (proj2 (ExecCmd_write_failure 0 client_reset echo_hi
                  (net_Error "connection reset") A)).
  - reflexivity.
  - reflexivity.
  - unfold fits, Int32.max. simpl. lia.
Defined.

Lemma call_read_error (fuel : nat) (c : Client) (id n : Z) (e : error)
    (r1 : stream) :
  setDeadline c = None ->
  ReadFrom (S fuel) (reader c) = (n, Err e, r1) ->
  call_read (S fuel) c id = (Err e, set_reader c r1).
Proof.
  intros Hd E. unfold call_read, readSingle, readMulti.
  cbn [readMulti_loop]. unfold readPkt. rewrite Hd, E.
  destruct (read c); reflexivity.
Qed.

(** X8. An error of the first decode of a response reaches the caller of
    [ExecCmd] as it is, in either mode, after the request was written: the
    command's frame, and in multi-packet mode the sentinel's frame after it,
    are on the wire, the counter is past the ids used, and the reader is
    where the failed decode left it.  So for a transport fault before the
    first byte, for [io.EOF] when the connection is closed with nothing sent
    back, and for [io.ErrUnexpectedEOF] when it is closed inside the size
    field. *)
Theorem ExecCmd_read_failure (c : Client) (cm : Cmd) :
  deadline_err (conn c) = None -> write_err (conn c) = None ->
  Forall (fun x => byte_val x < 0x80) (Cmd_String cm) ->
  fits (Cmd_String cm) ->
  (forall (fuel : nat) (n : Z) (e : error) (r1 : stream),
      ReadFrom (S fuel) (reader c) = (n, Err e, r1) ->
      written_then_failed c (Cmd_String cm) e r1 (ExecCmd (S fuel) cm c))
  /\ (forall (fuel : nat) (e : error) (r' : stream),
      reader c = Fault e :: r' ->
      written_then_failed c (Cmd_String cm) e r' (ExecCmd (S fuel) cm c))
  /\ (forall fuel : nat,
      reader c = [] ->
      written_then_failed c (Cmd_String cm) io_EOF []
        (ExecCmd (S fuel) cm c))
  /\ (forall (fuel : nat) (bs : bytes),
      reader c = [Data bs] -> (0 < length bs < 4)%nat ->
      written_then_failed c (Cmd_String cm) io_ErrUnexpectedEOF []
        (ExecCmd (S (S fuel)) cm c)).
Proof.
  intros Hd Hw Hascii Hfits.
  assert (G : forall (fuel : nat) (n : Z) (e : error) (r1 : stream),
             ReadFrom (S fuel) (reader c) = (n, Err e, r1) ->
             written_then_failed c (Cmd_String cm) e r1
               (ExecCmd (S fuel) cm c)).
  { intros fuel n e r1 E. unfold ExecCmd, written_then_failed.
    rewrite (ascii_passes _ Hascii). set (b := Cmd_String cm) in *.
    unfold call_write. destruct (write c) eqn:W.
    - rewrite (writePkt_ok c execCommand b Hd Hw Hfits).
      rewrite (call_read_error fuel (after_write c execCommand b) (reqID c)
                 n e r1 Hd E).
      unfold set_reader, after_write.
      cbn [fst snd conn pwd reader reqID read write sent deadline_err
             write_err frames body ID Type_ newPkt].
      rewrite app_nil_r. conjs; auto.
    - rewrite (writeMulti_ok c execCommand b Hd Hw Hfits).
      rewrite (call_read_error fuel
                 (after_write (after_write c execCommand b) responseValue [])
                 (reqID c) n e r1 Hd E).
      unfold set_reader, after_write.
      cbn [fst snd conn pwd reader reqID read write sent deadline_err
             write_err frames body ID Type_ newPkt].
      rewrite <- !app_assoc, app_nil_r. conjs; auto. }
  conjs.
  - exact G.
  - intros fuel e r' Hr. apply (G fuel 0 e r'). rewrite Hr. reflexivity.
  - intros fuel Hr. apply (G fuel 0 io_EOF []). rewrite Hr. reflexivity.
  - intros fuel bs Hr Hl. apply (G (S fuel) 0 io_ErrUnexpectedEOF []).
    rewrite Hr. destruct bs as [|x [|y [|z [|]]]]; simpl in Hl; try lia;
      reflexivity.
Qed.

Lemma ExecCmd_read_failure_witness :
  written_then_failed client_closed (Cmd_String echo_hi) io_EOF []
    (ExecCmd 1 echo_hi client_closed).
Proof.
  assert (A : Forall (fun x => byte_val x < 0x80) (Cmd_String echo_hi))
    by (repeat constructor).
  assert (F : fits (Cmd_String echo_hi))
    by (unfold fits, Int32.max; simpl; lia).
  apply (proj1 (proj2 (proj2
           (ExecCmd_read_failure client_closed echo_hi eq_refl eq_refl A F)))
           0%nat).
  reflexivity.
Defined.

(** ** The mock server's writes *)

Lemma encode_servable (p : pkt) (id : Z) :
  servable p ->
  encode (set_ID p id)
  = Ok (wire (Z.of_nat (length (body p)) + 10) id (Type_ p)
          (body p ++ [zero_byte; zero_byte])).
Proof.
  intros (Ht & Hf & Hs). rewrite <- (encode_newPkt (Type_ p) id (body p) Hf).
  unfold newPkt, set_ID. rewrite Hs, wrap_small; [reflexivity|].
  unfold fits, Int32.InRange, Int32.min, Int32.max in *. lia.
Qed.

Lemma server_write_ok (id : Z) (pkts : list pkt) :
  forall w : Conn,
    write_err w = None -> Forall servable pkts ->
    server_write w id pkts
    = (Ok tt,
       {| deadline_err := deadline_err w; write_err := write_err w;
          sent := sent w ++ frames (map (fun p => set_ID p id) pkts) |},
       map (fun p => set_ID p id) pkts).
Proof.
  induction pkts as [|p rest IH]; intros w Hw Hall.
  - simpl. rewrite app_nil_r. destruct w; reflexivity.
  - inversion Hall as [|? ? Hp Hrest]; subst.
    cbn [server_write]. unfold WriteTo.
    rewrite (encode_servable p id Hp). unfold conn_Write. rewrite Hw.
    rewrite IH by (cbn; auto). cbn [map frames sent deadline_err write_err
                                      set_ID body ID Type_].
    rewrite <- app_assoc. reflexivity.
Qed.

(** X9. [server.write] on a working connection sends, in order, the frames
    of its packets with every id replaced by the request's id, and leaves
    the packets so stamped; a stream that carries those frames, cut into
    pieces in any way, decodes to exactly those packets.  On a connection
    that refuses writes it stops at the first packet, which it has stamped
    already. *)
Theorem server_write_frames (w : Conn) (id : Z) (pkts : list pkt) :
  Int32.InRange id -> Forall servable pkts ->
  (write_err w = None ->
   server_write w id pkts
   = (Ok tt,
      {| deadline_err := deadline_err w; write_err := write_err w;
         sent := sent w ++ frames (map (fun p => set_ID p id) pkts) |},
      map (fun p => set_ID p id) pkts)
   /\ forall (r : stream) (rest : bytes),
       available r = frames (map (fun p => set_ID p id) pkts) ++ rest ->
       exists r' : stream,
         delivers_all r (map (fun p => set_ID p id) pkts) r'
         /\ available r' = rest)
  /\ (forall (e : error) (p : pkt) (others : list pkt),
       write_err w = Some e -> pkts = p :: others ->
       server_write w id pkts = (Err e, w, set_ID p id :: others)).
Proof.
  intros Hid Hall. split.
  - intros Hw. split; [apply server_write_ok; assumption|].
    intros r rest Hav. apply delivers_frames; [|exact Hav].
    apply Forall_forall. intros q Hq. apply in_map_iff in Hq.
    destruct Hq as (p & <- & Hp).
    rewrite Forall_forall in Hall. destruct (Hall p Hp) as (Ht & Hf & Hs).
    unfold well_formed. cbn [set_ID ID Type_ body Size]. auto.
  - intros e p others Hw ->. inversion Hall as [|? ? Hp _]; subst.
    cbn [server_write]. unfold WriteTo.
    rewrite (encode_servable p id Hp). unfold conn_Write. rewrite Hw.
    reflexivity.
Qed.

Lemma server_write_frames_witness :
  server_write conn0 42
    [newPkt responseValue 1 []; newPkt responseValue 1 responseBody]
  = (Ok tt,
     {| deadline_err := None; write_err := None;
        sent := frames [ newPkt responseValue 42 [];
                         newPkt responseValue 42 responseBody ] |},
     [newPkt responseValue 42 []; newPkt responseValue 42 responseBody])
  /\ forall (r : stream) (rest : bytes),
      available r
      = frames [ newPkt responseValue 42 [];
                 newPkt responseValue 42 responseBody ] ++ rest ->
      exists r' : stream,
        delivers_all r
          [newPkt responseValue 42 []; newPkt responseValue 42 responseBody]
          r'
        /\ available r' = rest.
Proof.
  assert (R : Int32.InRange 42)
    by (unfold Int32.InRange, Int32.min, Int32.max; lia).
  assert (S : Forall servable
                [newPkt responseValue 1 [];
                 newPkt responseValue 1 responseBody]).
  { apply Forall_cons; [|apply Forall_cons; [|apply Forall_nil]];
      (split; [|split; [|reflexivity]]);
      unfold fits, Int32.InRange, Int32.min, Int32.max, responseValue;
      simpl; lia. }
  apply (proj1 (server_write_frames conn0 42
                  [newPkt responseValue 1 [];
                   newPkt responseValue 1 responseBody] R S)).
  reflexivity.
Defined.

(** ** Constructing a client *)

Lemma apply_options_succeeds (before rest : list (option func_option)) :
  Forall succeeds before ->
  forall s : Setup,
    exists s' : Setup,
      apply_options (before ++ rest) s = apply_options rest s'.
Proof.
  induction 1 as [|o before (f & -> & Hf) _ IH]; intros s.
  - exists s. reflexivity.
  - cbn [app apply_options]. specialize (Hf s).
    destruct (f s) as [[e|] s1]; simpl in Hf; [discriminate|].
    apply IH.
Qed.

(** X10. A nil option, or an option that returns an error, after options
    that succeed makes [NewClient] return [ErrNilOption], or that error,
    before any network activity: nothing is dialed, whatever the network
    would have answered and whatever options follow. *)
Theorem NewClient_bad_option
    (DialTimeout : bytes -> Z -> result (Conn * stream)) (fuel : nat)
    (a : bytes) (before after : list (option func_option)) :
  Forall succeeds before ->
  NewClient DialTimeout fuel a (before ++ None :: after)
  = (Err ErrNilOption, {| dialed := None; closed := false |})
  /\ forall (f : func_option) (e : error),
      (forall s : Setup, fst (f s) = Some e) ->
      NewClient DialTimeout fuel a (before ++ Some f :: after)
      = (Err e, {| dialed := None; closed := false |}).
Proof.
  intros Hb. split.
  - unfold NewClient.
    destruct (apply_options_succeeds before (None :: after) Hb
                (initial_setup a)) as (s' & E).
    unfold initial_setup in E. rewrite E. reflexivity.
  - intros f e Hf. unfold NewClient.
    destruct (apply_options_succeeds before (Some f :: after) Hb
                (initial_setup a)) as (s' & E).
    unfold initial_setup in E. rewrite E. cbn [apply_options].
    specialize (Hf s'). destruct (f s') as [[e'|] s1]; simpl in Hf;
      [|discriminate].
    injection Hf as ->. reflexivity.
Qed.

Lemma NewClient_bad_option_witness :
  NewClient (fun _ _ => Err (net_Error "unreachable")) 0 (lit "example")
    ([Some (Password (lit "secret")); Some DisableMultiPacket_option]
       ++ None :: [Some (Timeout 5)])
  = (Err ErrNilOption, {| dialed := None; closed := false |})
  /\ forall (f : func_option) (e : error),
      (forall s : Setup, fst (f s) = Some e) ->
      NewClient (fun _ _ => Err (net_Error "unreachable")) 0 (lit "example")
        ([Some (Password (lit "secret")); Some DisableMultiPacket_option]
           ++ Some f :: [Some (Timeout 5)])
      = (Err e, {| dialed := None; closed := false |}).
Proof.
  apply (NewClient_bad_option (fun _ _ => Err (net_Error "unreachable")) 0
           (lit "example")
           [Some (Password (lit "secret")); Some DisableMultiPacket_option]
           [Some (Timeout 5)]).
  apply Forall_cons; [|apply Forall_cons; [|apply Forall_nil]].
  - exists (Password (lit "secret")). split; reflexivity.
  - exists DisableMultiPacket_option. split; reflexivity.
Defined.

Lemma apply_options_settings (xs : list setting) :
  forall s : Setup, apply_options (map to_option xs) s = Ok (configure xs s).
Proof.
  induction xs as [|x xs IH]; intros s; [reflexivity|].
  destruct x; cbn [map to_option apply_options configure Timeout Password
                     DisableMultiPacket_option]; apply IH.
Qed.

(** The provided options touch neither the address nor the connection, the
    reader and the counter of the client. *)
Lemma configure_keeps (xs : list setting) :
  forall s : Setup,
    addr (configure xs s) = addr s
    /\ conn (client (configure xs s)) = conn (client s)
    /\ reader (client (configure xs s)) = reader (client s)
    /\ reqID (client (configure xs s)) = reqID (client s).
Proof.
  induction xs as [|x xs IH]; intros s; [auto|].
  destruct x; cbn [configure];
    match goal with |- context [configure xs ?s'] =>
      destruct (IH s') as (A & B & C & D); rewrite A, B, C, D end;
    auto.
Qed.

Lemma dial_addr_colon (a : bytes) : contains_colon (dial_addr a) = true.
Proof.
  unfold dial_addr. destruct (contains_colon a) eqn:E; [exact E|].
  cbn [negb]. unfold contains_colon. rewrite existsb_app.
  apply orb_true_iff. right. reflexivity.
Qed.

Lemma NewClient_after_options
    (DialTimeout : bytes -> Z -> result (Conn * stream)) (fuel : nat)
    (a : bytes) (xs : list setting) :
  NewClient DialTimeout fuel a (map to_option xs)
  = let s := configure xs (initial_setup a) in
    let target := dial_addr a in
    match DialTimeout target (timeout s) with
    | Err e => (Err e, {| dialed := Some (target, timeout s); closed := false |})
    | Panic => (Panic, {| dialed := Some (target, timeout s); closed := false |})
    | OutOfFuel =>
        (OutOfFuel, {| dialed := Some (target, timeout s); closed := false |})
    | Ok (w, r) =>
        match auth fuel
                {| conn := w; pwd := pwd (client s); reader := r; reqID := 0;
                   read := read (client s); write := write (client s) |} with
        | (Ok _, cl) =>
            (Ok cl, {| dialed := Some (target, timeout s); closed := false |})
        | (Err e, _) =>
            (Err e, {| dialed := Some (target, timeout s); closed := true |})
        | (Panic, _) =>
            (Panic, {| dialed := Some (target, timeout s); closed := false |})
        | (OutOfFuel, _) =>
            (OutOfFuel,
             {| dialed := Some (target, timeout s); closed := false |})
        end
    end.
Proof.
  unfold NewClient. fold (initial_setup a).
  rewrite (apply_options_settings xs (initial_setup a)).
  destruct (configure_keeps xs (initial_setup a)) as (A & _ & _ & D).
  cbn [addr initial_setup client reqID] in A, D. rewrite A, D. reflexivity.
Qed.

(** X11. With the provided options, [NewClient] dials the address as given
    when it has a colon and with ":27015" appended when it has none, with the
    timeout the options left (ten seconds by default).  A dial error is
    returned as it is.  Without a password the client comes back bound to
    the connection with nothing written or read and the counter at 0.  And
    the connection it opened is closed exactly when it returns an error. *)
Theorem NewClient_dials
    (DialTimeout : bytes -> Z -> result (Conn * stream)) (fuel : nat)
    (a : bytes) (xs : list setting) :
  (forall e : error,
      DialTimeout (dial_addr a) (timeout (configure xs (initial_setup a)))
      = Err e ->
      NewClient DialTimeout fuel a (map to_option xs)
      = (Err e,
         {| dialed :=
              Some (dial_addr a, timeout (configure xs (initial_setup a)));
            closed := false |}))
  /\ (forall (w : Conn) (r : stream),
      DialTimeout (dial_addr a) (timeout (configure xs (initial_setup a)))
      = Ok (w, r) ->
      pwd (client (configure xs (initial_setup a))) = [] ->
      NewClient DialTimeout fuel a (map to_option xs)
      = (Ok {| conn := w; pwd := []; reader := r; reqID := 0;
               read := read (client (configure xs (initial_setup a)));
               write := write (client (configure xs (initial_setup a))) |},
         {| dialed :=
              Some (dial_addr a, timeout (configure xs (initial_setup a)));
            closed := false |}))
  /\ (forall (w : Conn) (r : stream),
      DialTimeout (dial_addr a) (timeout (configure xs (initial_setup a)))
      = Ok (w, r) ->
      ((exists e : error,
           fst (NewClient DialTimeout fuel a (map to_option xs)) = Err e)
       <-> closed (snd (NewClient DialTimeout fuel a (map to_option xs)))
           = true))
  /\ contains_colon (dial_addr a) = true
  /\ (contains_colon a = true -> dial_addr a = a)
  /\ (contains_colon a = false -> dial_addr a = a ++ lit ":27015")
  /\ timeout (configure [] (initial_setup a)) = 10 * 1000000000.
Proof.
  rewrite (NewClient_after_options DialTimeout fuel a xs). cbv zeta. conjs.
  - intros e ->. reflexivity.
  - intros w r -> P. rewrite P. reflexivity.
  - intros w r ->.
    destruct (auth fuel _) as [[[]| | |] cl]; cbn [fst snd closed]; split;
      try discriminate; try (intros (e' & H); discriminate);
      try reflexivity; eauto.
  - apply dial_addr_colon.
  - intros H. unfold dial_addr. rewrite H. reflexivity.
  - intros H. unfold dial_addr. rewrite H. reflexivity.
  - reflexivity.
Qed.

Lemma NewClient_dials_witness :
  NewClient
    (fun target t =>
       if bytes_Equal target (lit "example:27015") then Ok (conn0, [])
       else Err (net_Error "unreachable"))
    0 (lit "example") (map to_option [SinglePacket; UseTimeout 5])
  = (Ok {| conn := conn0; pwd := []; reader := []; reqID := 0;
           read := readSingle_fn; write := writePkt_fn |},
     {| dialed := Some (lit "example:27015", 5); closed := false |}).
Proof.
  apply (proj1 (proj2
           (NewClient_dials
              (fun target t =>
                 if bytes_Equal target (lit "example:27015")
                 then Ok (conn0, [])
                 else Err (net_Error "unreachable"))
              0 (lit "example") [SinglePacket; UseTimeout 5]))
           conn0 []).
  - reflexivity.
  - reflexivity.
Defined.

Lemma configure_app (xs ys : list setting) :
  forall s : Setup, configure (xs ++ ys) s = configure ys (configure xs s).
Proof.
  induction xs as [|x xs IH]; intros s; [reflexivity|].
  cbn [app configure]. apply IH.
Qed.

(** X12. The provided options compose in order: the last [Timeout] and the
    last [Password] of the list are the ones in force, and single-packet
    mode, once [DisableMultiPacket] is among the options, stays whatever
    follows; without it the client is in multi-packet mode. *)
Theorem options_compose (a : bytes) (xs ys : list setting) :
  (forall t : Z,
      Forall (fun y => forall t', y <> UseTimeout t') ys ->
      exists s : Setup,
        apply_options (map to_option (xs ++ UseTimeout t :: ys))
          (initial_setup a) = Ok s
        /\ timeout s = t)
  /\ (forall p : bytes,
      Forall (fun y => forall p', y <> UsePassword p') ys ->
      exists s : Setup,
        apply_options (map to_option (xs ++ UsePassword p :: ys))
          (initial_setup a) = Ok s
        /\ pwd (client s) = p)
  /\ (exists s : Setup,
        apply_options (map to_option (xs ++ SinglePacket :: ys))
          (initial_setup a) = Ok s
        /\ read (client s) = readSingle_fn
        /\ write (client s) = writePkt_fn)
  /\ (Forall (fun y => y <> SinglePacket) xs ->
      exists s : Setup,
        apply_options (map to_option xs) (initial_setup a) = Ok s
        /\ read (client s) = readMulti_fn
        /\ write (client s) = writeMulti_fn).
Proof.
  assert (T : forall zs s, Forall (fun y => forall t', y <> UseTimeout t') zs ->
                timeout (configure zs s) = timeout s).
  { induction zs as [|z zs IH]; intros s H; [reflexivity|].
    inversion H as [|? ? Hz Hzs]; subst. cbn [configure].
    rewrite IH by assumption. destruct z; try reflexivity.
    exfalso. apply (Hz t). reflexivity. }
  assert (P : forall zs s, Forall (fun y => forall p', y <> UsePassword p') zs ->
                pwd (client (configure zs s)) = pwd (client s)).
  { induction zs as [|z zs IH]; intros s H; [reflexivity|].
    inversion H as [|? ? Hz Hzs]; subst. cbn [configure].
    rewrite IH by assumption. destruct z; try reflexivity.
    exfalso. apply (Hz p). reflexivity. }
  assert (S1 : forall zs s, read (client s) = readSingle_fn ->
                 write (client s) = writePkt_fn ->
                 read (client (configure zs s)) = readSingle_fn
                 /\ write (client (configure zs s)) = writePkt_fn).
  { induction zs as [|z zs IH]; intros s Hr Hw; [auto|].
    cbn [configure]. apply IH; destruct z; auto. }
  assert (S0 : forall zs s, Forall (fun y => y <> SinglePacket) zs ->
                 read (client (configure zs s)) = read (client s)
                 /\ write (client (configure zs s)) = write (client s)).
  { induction zs as [|z zs IH]; intros s H; [auto|].
    inversion H as [|? ? Hz Hzs]; subst. cbn [configure].
    destruct (IH (match z with
                  | UseTimeout t =>
                      {| addr := addr s; timeout := t; client := client s |}
                  | UsePassword p =>
                      {| addr := addr s; timeout := timeout s;
                         client :=
                           {| conn := conn (client s); pwd := p;
                              reader := reader (client s);
                              reqID := reqID (client s);
                              read := read (client s);
                              write := write (client s) |} |}
                  | SinglePacket =>
                      {| addr := addr s; timeout := timeout s;
                         client := DisableMultiPacket (client s) |}
                  end) Hzs) as (A & B).
    rewrite A, B. destruct z; auto. congruence. }
  conjs.
  - intros t H. eexists. rewrite apply_options_settings.
    split; [reflexivity|]. rewrite configure_app. cbn [configure].
    rewrite T by assumption. reflexivity.
  - intros p H. eexists. rewrite apply_options_settings.
    split; [reflexivity|]. rewrite configure_app. cbn [configure].
    rewrite P by assumption. reflexivity.
  - eexists. rewrite apply_options_settings.
    split; [reflexivity|]. rewrite configure_app. cbn [configure].
    apply S1; reflexivity.
  - intros H. eexists. rewrite apply_options_settings.
    split; [reflexivity|]. destruct (S0 xs (initial_setup a) H) as (A & B).
    rewrite A, B. split; reflexivity.
Qed.

Lemma options_compose_witness :
  exists s : Setup,
    apply_options
      (map to_option
         ([UsePassword (lit "old")] ++ UsePassword (lit "new")
            :: [SinglePacket; UseTimeout 5]))
      (initial_setup (lit "example")) = Ok s
    /\ pwd (client s) = lit "new".
Proof.
  apply (proj1 (proj2
           (options_compose (lit "example") [UsePassword (lit "old")]
              [SinglePacket; UseTimeout 5]))
           (lit "new")).
  repeat constructor; discriminate.
Defined.

Lemma auth_first_packet (c : Client) (p1 : pkt) (r1 : stream) :
  pwd c <> [] -> fits (pwd c) ->
  deadline_err (conn c) = None -> write_err (conn c) = None ->
  delivers (reader c) p1 r1 ->
  (ID p1 = 0 -> Type_ p1 = authResponse ->
   eventually (fun fuel => auth fuel c)
     (Ok tt, set_reader (after_write c auth_type (pwd c)) r1))
  /\ (ID p1 <> 0 ->
      eventually (fun fuel => auth fuel c)
        (Err ErrAuthFailure,
         set_reader (after_write c auth_type (pwd c)) r1)).
Proof.
  intros Hpwd Hfits Hd Hw D.
  pose proof (writePkt_ok c auth_type (pwd c) Hd Hw Hfits) as Hwrite.
  assert (Hd1 : setDeadline (after_write c auth_type (pwd c)) = None)
    by exact Hd.
  destruct (readPkt_delivers (after_write c auth_type (pwd c)) r1 p1 Hd1 D)
    as (f1 & H1).
  split; intros; exists f1; intros fuel Hf; unfold auth;
    (remember (pwd c) as pw eqn:E in |- * at 1);
    (destruct pw; [congruence|]); rewrite Hwrite, (H1 fuel Hf).
  - rewrite H, H0. reflexivity.
  - rewrite (proj2 (Z.eqb_neq _ _) H). reflexivity.
Qed.

(** X13. With a password among the provided options and a connection in
    working order, [NewClient] performs the handshake on it: when the server
    answers with an auth-response packet with id 0, the client is returned
    with the one auth frame written (id 0, the password as body), the counter
    at 1 and the connection open; when the first packet's id is not 0,
    [ErrAuthFailure] is returned and the connection has been closed. *)
Theorem NewClient_authenticates
    (DialTimeout : bytes -> Z -> result (Conn * stream))
    (a : bytes) (xs : list setting) (w : Conn) (r : stream) (p1 : pkt)
    (r1 : stream) :
  pwd (client (configure xs (initial_setup a))) <> [] ->
  fits (pwd (client (configure xs (initial_setup a)))) ->
  DialTimeout (dial_addr a) (timeout (configure xs (initial_setup a)))
  = Ok (w, r) ->
  deadline_err w = None -> write_err w = None ->
  delivers r p1 r1 ->
  (ID p1 = 0 -> Type_ p1 = authResponse ->
   eventually (fun fuel => NewClient DialTimeout fuel a (map to_option xs))
     (Ok {| conn :=
              {| deadline_err := None; write_err := None;
                 sent :=
                   sent w
                   ++ frames
                        [newPkt auth_type 0
                           (pwd (client (configure xs (initial_setup a))))] |};
            pwd := pwd (client (configure xs (initial_setup a)));
            reader := r1; reqID := 1;
            read := read (client (configure xs (initial_setup a)));
            write := write (client (configure xs (initial_setup a))) |},
      {| dialed :=
           Some (dial_addr a, timeout (configure xs (initial_setup a)));
         closed := false |}))
  /\ (ID p1 <> 0 ->
      eventually (fun fuel => NewClient DialTimeout fuel a (map to_option xs))
        (Err ErrAuthFailure,
         {| dialed :=
              Some (dial_addr a, timeout (configure xs (initial_setup a)));
            closed := true |})).
Proof.
  intros Hpwd Hfits Hdial Hd Hw D.
  set (s := configure xs (initial_setup a)) in *.
  set (cl := {| conn := w; pwd := pwd (client s); reader := r; reqID := 0;
                read := read (client s); write := write (client s) |}).
  destruct (auth_first_packet cl p1 r1 Hpwd Hfits Hd Hw D) as (Hok & Hbad).
  split.
  - intros I T. destruct (Hok I T) as (f0 & H). exists f0. intros fuel Hf.
    rewrite (NewClient_after_options DialTimeout fuel a xs). cbv zeta.
    fold s. rewrite Hdial. fold cl. rewrite (H fuel Hf).
    subst cl. unfold set_reader, after_write.
    cbn [conn pwd reader reqID read write deadline_err write_err sent].
    rewrite Hd, Hw. cbn [frames body ID Type_ newPkt]. rewrite app_nil_r.
    reflexivity.
  - intros I. destruct (Hbad I) as (f0 & H). exists f0. intros fuel Hf.
    rewrite (NewClient_after_options DialTimeout fuel a xs). cbv zeta.
    fold s. rewrite Hdial. fold cl. rewrite (H fuel Hf). reflexivity.
Qed.

Lemma NewClient_authenticates_witness :
  eventually
    (fun fuel =>
       NewClient (fun _ _ => Ok (conn0, reader client_auth_refused)) fuel
         (lit "example:27016") (map to_option [UsePassword (lit "secret")]))
    (Err ErrAuthFailure,
     {| dialed := Some (lit "example:27016", DefaultTimeout);
        closed := true |}).
Proof.
  assert (P : pwd (client (configure [UsePassword (lit "secret")]
                             (initial_setup (lit "example:27016")))) <> [])
    by discriminate.
  assert (F : fits (pwd (client (configure [UsePassword (lit "secret")]
                                   (initial_setup (lit "example:27016"))))))
    by (unfold fits, Int32.max; simpl; lia).
  assert (D : delivers (reader client_auth_refused)
                (newPkt authResponse (-1) []) [])
    by (exists 9%nat, 14; reflexivity).
  apply (proj2 (NewClient_authenticates
                  (fun _ _ => Ok (conn0, reader client_auth_refused))
                  (lit "example:27016") [UsePassword (lit "secret")]
                  conn0 (reader client_auth_refused)
                  (newPkt authResponse (-1) []) []
                  P F eq_refl eq_refl eq_refl D)).
  discriminate.
Defined.

(** ** The mock server's handler *)

Lemma stamp_erase (i : Z) (v : list pkt) :
  map (fun q => set_ID q i) v
  = map (fun q => set_ID q i) (map (fun q => set_ID q 0) v).
Proof. rewrite map_map. reflexivity. Qed.

Lemma lookup_erase (key : bytes) (t : table) :
  lookup key (erase_ids t)
  = option_map (map (fun q => set_ID q 0)) (lookup key t).
Proof.
  induction t as [|[k v] t IH]; [reflexivity|]. simpl.
  destruct (bytes_Equal key k); [reflexivity | exact IH].
Qed.

Lemma erase_update (key : bytes) (v v' : list pkt) (t : table) :
  lookup key t = Some v ->
  map (fun q => set_ID q 0) v' = map (fun q => set_ID q 0) v ->
  erase_ids (update key v' t) = erase_ids t.
Proof.
  induction t as [|[k v0] t IH]; intros L E; [discriminate|]. simpl in *.
  destruct (bytes_Equal key k).
  - injection L as ->. simpl. rewrite E. reflexivity.
  - simpl. rewrite IH by assumption. reflexivity.
Qed.

Lemma lookup_servable (key : bytes) (v : list pkt) (t : table) :
  table_servable t -> lookup key t = Some v -> Forall servable v.
Proof.
  induction 1 as [|[k v0] t Hv _ IH]; simpl; [discriminate|].
  destruct (bytes_Equal key k); [|exact IH].
  intros L. injection L as <-. exact Hv.
Qed.

Lemma update_servable (key : bytes) (v : list pkt) (t : table) :
  table_servable t -> Forall servable v -> table_servable (update key v t).
Proof.
  induction 1 as [|[k v0] t Hv Ht IH]; intros Hnew; simpl; [constructor|].
  destruct (bytes_Equal key k); constructor; simpl; auto.
  apply IH. exact Hnew.
Qed.

Lemma frames_app (a b : list pkt) : frames (a ++ b) = frames a ++ frames b.
Proof.
  induction a as [|p a IH]; [reflexivity|].
  cbn [app frames]. rewrite IH, <- !app_assoc. reflexivity.
Qed.

Lemma servable_stamped (i : Z) (v : list pkt) :
  Forall servable v -> Forall servable (map (fun q => set_ID q i) v).
Proof.
  intros H. apply Forall_forall. intros q Hq. apply in_map_iff in Hq.
  destruct Hq as (q0 & <- & Hq0). rewrite Forall_forall in H.
  exact (H q0 Hq0).
Qed.

(** The handler answers every request the stream delivers, in order, and
    ends at the first decode that fails.  What it sends is what the table as
    it was first says, though it writes the ids into the table's packets. *)
Lemma handle_loop_serves (t0 : table) (ps : list pkt) :
  forall (r r' r'' : stream) (w : Conn) (t : table),
    write_err w = None ->
    erase_ids t = erase_ids t0 -> table_servable t ->
    delivers_all r ps r' -> closes r' r'' ->
    Forall
      (fun p =>
         lookup (request_key (Type_ p) (Body p)) t0 = None ->
         fits (lit "unknown command " ++ request_key (Type_ p) (Body p)))
      ps ->
    exists t' : table,
      eventually (fun fuel => handle_loop fuel r w t)
        (Ok tt, r'',
         {| deadline_err := deadline_err w; write_err := write_err w;
            sent := sent w ++ frames (flat_map (reply_for t0) ps) |}, t')
      /\ erase_ids t' = erase_ids t0 /\ table_servable t'.
Proof.
  induction ps as [|p ps IH]; intros r r' r'' w t Hw Ht Hs D C Hfit.
  - inversion D; subst. destruct C as (f0 & n & e & E).
    exists t. conjs; auto. exists (S f0). intros [|fuel] Hf; [lia|].
    cbn [handle_loop].
    rewrite (ReadFrom_mono f0 r' _ E ltac:(simpl; discriminate) (S fuel)
               ltac:(lia)).
    cbn [flat_map frames]. rewrite app_nil_r. destruct w; reflexivity.
  - inversion D as [|? r1 ? ? ? Dp Drest]; subst.
    inversion Hfit as [|? ? Hp Hrest]; subst.
    destruct (delivers_eventually r r1 p Dp) as (n & f1 & H1).
    pose proof (lookup_erase (request_key (Type_ p) (Body p)) t) as L.
    rewrite Ht, lookup_erase in L.
    destruct (lookup (request_key (Type_ p) (Body p)) t) as [resp|] eqn:Lt;
      destruct (lookup (request_key (Type_ p) (Body p)) t0) as [resp0|]
        eqn:Lt0; try discriminate.
    + injection L as L.
      pose proof (lookup_servable _ _ _ Hs Lt) as Hresp.
      pose proof (server_write_ok (ID p) resp w Hw Hresp) as Wr.
      destruct (IH r1 r' r''
                  {| deadline_err := deadline_err w; write_err := write_err w;
                     sent := sent w
                             ++ frames (map (fun q => set_ID q (ID p)) resp) |}
                  (update (request_key (Type_ p) (Body p))
                     (map (fun q => set_ID q (ID p)) resp) t))
        as (t' & (f2 & H2) & Ht' & Hs'); auto.
      * rewrite (erase_update _ resp _ t Lt); [exact Ht|].
        rewrite map_map. reflexivity.
      * apply update_servable; [exact Hs | apply servable_stamped; exact Hresp].
      * exists t'. conjs; auto. exists (S (Nat.max f1 f2)).
        intros [|fuel] Hf; [lia|]. cbn [handle_loop].
        rewrite (H1 (S fuel)) by lia. rewrite Lt, Wr, H2 by lia.
        cbn [deadline_err write_err sent flat_map]. unfold reply_for at 2.
        rewrite Lt0, (stamp_erase (ID p) resp0), L,
          <- (stamp_erase (ID p) resp), frames_app, app_assoc.
        reflexivity.
    + assert (Hunk : Forall servable
                       [newPkt responseValue (ID p)
                          (lit "unknown command "
                           ++ request_key (Type_ p) (Body p))]).
      { constructor; [|constructor]. specialize (Hp eq_refl).
        unfold servable, newPkt; cbn [Type_ body Size]. conjs; auto.
        - unfold Int32.InRange, Int32.min, Int32.max, responseValue. lia.
        - apply wrap_small.
          unfold fits, Int32.InRange, Int32.min, Int32.max in *. lia. }
      pose proof (server_write_ok (ID p) _ w Hw Hunk) as Wr.
      destruct (IH r1 r' r''
                  {| deadline_err := deadline_err w; write_err := write_err w;
                     sent := sent w
                             ++ frames
                                  (map (fun q => set_ID q (ID p))
                                     [newPkt responseValue (ID p)
                                        (lit "unknown command "
                                         ++ request_key (Type_ p) (Body p))])
                  |} t)
        as (t' & (f2 & H2) & Ht' & Hs'); auto.
      exists t'. conjs; auto. exists (S (Nat.max f1 f2)).
      intros [|fuel] Hf; [lia|]. cbn [handle_loop].
      rewrite (H1 (S fuel)) by lia. rewrite Lt, Wr, H2 by lia.
      cbn [deadline_err write_err sent flat_map]. unfold reply_for at 2.
      rewrite Lt0, frames_app, app_assoc. reflexivity.
Qed.

Lemma reply_for_erase (t t' : table) (p : pkt) :
  erase_ids t' = erase_ids t -> reply_for t' p = reply_for t p.
Proof.
  intros E. unfold reply_for.
  pose proof (lookup_erase (request_key (Type_ p) (Body p)) t') as L.
  rewrite E, lookup_erase in L.
  destruct (lookup _ t) as [v|], (lookup _ t') as [v'|]; try discriminate;
    [|reflexivity].
  injection L as L.
  rewrite (stamp_erase (ID p) v), (stamp_erase (ID p) v'), L. reflexivity.
Qed.

(** X14. The handler of the mock server answers every request its
    connection delivers, in order, and returns at the first decode that
    fails: what it has sent is, request after request, the frames of the
    table's packets under the request's key with the request's id, or of
    the one "unknown command" packet.  It writes the ids into the packets
    of the shared table, yet the table it leaves answers every request as
    the table it found; and with [failConn] set it serves nothing. *)
Theorem handle_serves (t : table) (ps : list pkt) (r r' r'' : stream)
    (w : Conn) :
  write_err w = None -> table_servable t ->
  delivers_all r ps r' -> closes r' r'' ->
  Forall
    (fun p =>
       lookup (request_key (Type_ p) (Body p)) t = None ->
       fits (lit "unknown command " ++ request_key (Type_ p) (Body p)))
    ps ->
  (exists t' : table,
      eventually (fun fuel => handle fuel false r w t)
        (Ok tt, r'',
         {| deadline_err := deadline_err w; write_err := write_err w;
            sent := sent w ++ frames (flat_map (reply_for t) ps) |}, t')
      /\ forall p : pkt, reply_for t' p = reply_for t p)
  /\ forall fuel : nat, handle fuel true r w t = (Ok tt, r, w, t).
Proof.
  intros Hw Hs D C Hfit. split; [|reflexivity].
  destruct (handle_loop_serves t ps r r' r'' w t Hw eq_refl Hs D C Hfit)
    as (t' & Hrun & Ht' & _).
  exists t'. split; [exact Hrun|].
  intros p. apply reply_for_erase. exact Ht'.
Qed.

Lemma commands_servable : table_servable commands.
Proof.
  repeat (apply Forall_cons || apply Forall_nil);
    (split; [|split; [|reflexivity]]);
    unfold fits, Int32.InRange, Int32.min, Int32.max, responseValue;
    simpl; lia.
Qed.

Lemma handle_serves_witness :
  exists t' : table,
    eventually (fun fuel => handle fuel false request_status conn0 commands)
      (Ok tt, [],
       {| deadline_err := None; write_err := None;
          sent :=
            frames [newPkt responseValue 5 (lit "unknown command 2:status")] |},
       t')
    /\ forall p : pkt, reply_for t' p = reply_for commands p.
Proof.
  assert (D : delivers_all request_status
                [newPkt execCommand 5 (lit "status")] [])
    by (eapply delivers_cons;
        [exists 9%nat; eexists; reflexivity | apply delivers_nil]).
  assert (C : closes [] []) by (exists 1%nat, 0, io_EOF; reflexivity).
  assert (F : Forall
                (fun p =>
                   lookup (request_key (Type_ p) (Body p)) commands = None ->
                   fits (lit "unknown command "
                         ++ request_key (Type_ p) (Body p)))
                [newPkt execCommand 5 (lit "status")]).
  { apply Forall_cons; [|apply Forall_nil]. intros _.
    unfold fits, Int32.max. simpl. lia. }
  apply (proj1 (handle_serves commands [newPkt execCommand 5 (lit "status")]
                  request_status [] [] conn0 eq_refl commands_servable
                  D C F)).
Defined.

(** ** The client against the mock server *)

Lemma delivers_all_no_fault (r r' : stream) (ps : list pkt) :
  delivers_all r ps r' -> no_fault r -> no_fault r'.
Proof.
  induction 1 as [|r r1 r2 p ps (fuel & n & E) _ IH]; auto.
  intros H. apply IH. pose proof (ReadFrom_no_fault fuel r H) as H1.
  rewrite E in H1. exact H1.
Qed.

Lemma reply_command (N : Z) (command : bytes) :
  reply_for commands (newPkt execCommand N command)
  = [ if bytes_Equal command (lit "echo test me")
      then newPkt responseValue N (lit "test me")
      else newPkt responseValue N (lit "unknown command 2:" ++ command) ].
Proof.
  unfold reply_for. cbn [Type_ Body body ID newPkt].
  unfold commands, request_key.
  change (format_v (VInt execCommand)) with (lit "2").
  change (format_v (VInt responseValue)) with (lit "0").
  cbn [lookup lit list_ascii_of_string app bytes_Equal].
  change (byte_eqb "2"%char "2"%char) with true.
  change (byte_eqb ":"%char ":"%char) with true.
  change (byte_eqb "2"%char "0"%char) with false. cbn [andb].
  destruct (bytes_Equal command _); reflexivity.
Qed.

Lemma reply_sentinel (M : Z) :
  reply_for commands (newPkt responseValue M [])
  = [newPkt responseValue M []; newPkt responseValue M responseBody].
Proof. reflexivity. Qed.

(** X15. The client and the mock server together, in multi-packet mode.
    For an ASCII command, [Exec] writes the command frame and the sentinel
    frame; the mock server, given those bytes, answers and stops at the end
    of the stream; and on the server's answer, in whatever pieces it
    arrives, [Exec] returns "test me" for the command "echo test me" and
    "unknown command 2:" followed by the command for any other. *)
Theorem Exec_against_mock_server (c : Client) (command : bytes) :
  read c = readMulti_fn -> write c = writeMulti_fn ->
  deadline_err (conn c) = None -> write_err (conn c) = None ->
  Int32.InRange (reqID c) ->
  Forall (fun x => byte_val x < 0x80) command ->
  Z.of_nat (length command) + 32 <= Int32.max ->
  exists (reply : bytes) (t' : table),
    eventually
      (fun fuel =>
         handle fuel false
           [Data (frames [ newPkt execCommand (reqID c) command;
                           newPkt responseValue (Int32.add (reqID c) 1) [] ])]
           conn0 commands)
      (Ok tt, [],
       {| deadline_err := None; write_err := None; sent := reply |}, t')
    /\ (available (reader c) = reply ->
        exists c' : Client,
          eventually (fun fuel => Exec fuel command c)
            (Ok (if bytes_Equal command (lit "echo test me")
                 then lit "test me"
                 else lit "unknown command 2:" ++ command), c')
          /\ sent (conn c')
             = sent (conn c)
               ++ frames [ newPkt execCommand (reqID c) command;
                           newPkt responseValue (Int32.add (reqID c) 1) [] ]
          /\ reqID c' = Int32.add (Int32.add (reqID c) 1) 1).
Proof.
  intros Hr Hw Hd Hwe HN Hascii Hlen.
  set (N := reqID c) in *.
  set (answer := if bytes_Equal command (lit "echo test me")
                 then newPkt responseValue N (lit "test me")
                 else newPkt responseValue N
                        (lit "unknown command 2:" ++ command)).
  set (request := [ newPkt execCommand N command;
                    newPkt responseValue (Int32.add N 1) [] ]).
  set (replies := [ answer; newPkt responseValue (Int32.add N 1) [];
                    newPkt responseValue (Int32.add N 1) responseBody ]).
  assert (Hfits : fits command) by (unfold fits, Int32.max in *; lia).
  assert (HN1 : Int32.InRange (Int32.add N 1)) by apply wrap_range.
  assert (Hsz : forall b : bytes,
             fits b ->
             Int32.wrap (Z.of_nat (length b) + 10) = Z.of_nat (length b) + 10).
  { intros b Hb. apply wrap_small.
    unfold fits, Int32.InRange, Int32.min, Int32.max in *. lia. }
  assert (R0 : Int32.InRange responseValue /\ Int32.InRange execCommand)
    by (unfold Int32.InRange, Int32.min, Int32.max, responseValue,
          execCommand; lia).
  assert (Hreplies : flat_map (reply_for commands) request = replies).
  { unfold request. cbn [flat_map].
    rewrite reply_command, reply_sentinel. reflexivity. }
  (* the server *)
  assert (Wreq : Forall well_formed request).
  { unfold request. apply Forall_cons; [|apply Forall_cons; [|apply Forall_nil]];
      unfold well_formed, newPkt; cbn [ID Type_ body Size]; conjs;
      try tauto; auto using fits_nil. }
  destruct (delivers_frames request [Data (frames request)] [] Wreq)
    as (r' & Dreq & Ar'); [simpl; rewrite !app_nil_r; reflexivity|].
  assert (NF : no_fault r').
  { apply (delivers_all_no_fault _ _ _ Dreq). repeat constructor. }
  assert (C : closes r' []).
  { exists (length r' + 1)%nat, 0, io_EOF. apply ReadFrom_at_end; auto. }
  assert (Funk : Forall
                   (fun p =>
                      lookup (request_key (Type_ p) (Body p)) commands = None ->
                      fits (lit "unknown command "
                            ++ request_key (Type_ p) (Body p)))
                   request).
  { unfold request. apply Forall_cons; [|apply Forall_cons; [|apply Forall_nil]].
    - intros _. cbn [Type_ Body body newPkt]. unfold request_key, fits.
      change (format_v (VInt execCommand)) with (lit "2").
      rewrite !length_app. unfold Int32.max in *. simpl length. lia.
    - cbn [Type_ Body body newPkt]. intros L. discriminate L. }
  destruct (handle_loop_serves commands request _ r' [] conn0 commands
              eq_refl eq_refl commands_servable Dreq C Funk)
    as (t' & Hrun & _ & _).
  rewrite Hreplies in Hrun. cbn [sent conn0 app deadline_err write_err] in Hrun.
  exists (frames replies), t'. split; [exact Hrun|].
  (* the client *)
  intros Hav.
  set (c2 := after_write (after_write c execCommand command) responseValue []).
  assert (Hd2 : setDeadline c2 = None) by exact Hd.
  assert (Fans : fits (body answer)).
  { unfold answer. destruct (bytes_Equal command _); cbn [body newPkt].
    - unfold fits, Int32.max. simpl. lia.
    - unfold fits. rewrite length_app. unfold Int32.max in *. simpl length.
      lia. }
  assert (Wrep : Forall well_formed replies).
  { unfold replies.
    apply Forall_cons;
      [|apply Forall_cons; [|apply Forall_cons; [|apply Forall_nil]]].
    - unfold well_formed. conjs; auto.
      + unfold answer. destruct (bytes_Equal command _); exact HN.
      + unfold answer. destruct (bytes_Equal command _); tauto.
      + revert Fans. unfold answer.
        destruct (bytes_Equal command _); cbn [body Size newPkt];
          intros F; apply Hsz; exact F.
    - unfold well_formed, newPkt; cbn [ID Type_ body Size]; conjs;
        try tauto; auto using fits_nil.
    - unfold well_formed, newPkt; cbn [ID Type_ body Size]; conjs;
        try tauto; try reflexivity; unfold fits, Int32.max; simpl; lia. }
  destruct (delivers_frames replies (reader c) [] Wrep)
    as (rc & Drep & _); [rewrite app_nil_r; exact Hav|].
  inversion Drep as [|? r1 ? ? ? Da D1]; subst.
  inversion D1 as [|? r2 ? ? ? Ds1 D2]; subst.
  inversion D2 as [|? r3 ? ? ? Ds2 D3]; subst. inversion D3; subst.
  assert (Ia : is_data N answer).
  { unfold answer. destruct (bytes_Equal command _); split; reflexivity. }
  assert (L : eventually (fun fuel => readMulti_loop fuel N [] 0 c2)
                (Ok (body answer), set_reader c2 rc)).
  { apply (readMulti_loop_data c2 N r1 answer [] 0 _ Hd2 Da Ia).
    apply (readMulti_loop_echo (set_reader c2 r1) N r2 _ _ _ Hd2 Ds1);
      [split; reflexivity | reflexivity |].
    apply (readMulti_loop_marker (set_reader c2 r2) N rc _ _ Hd2 Ds2);
      [split; reflexivity | reflexivity]. }
  exists (set_reader c2 rc). conjs.
  - destruct L as (f0 & L). exists f0. intros fuel Hf.
    unfold Exec, ExecCmd. rewrite Cmd_String_NewCmd.
    rewrite (ascii_passes command Hascii).
    unfold call_write.
    rewrite Hw, (writeMulti_ok c execCommand command Hd Hwe Hfits).
    fold c2. unfold call_read. change (read c2) with (read c). rewrite Hr.
    unfold readMulti. fold N. rewrite (L fuel Hf). f_equal. f_equal.
    unfold answer. destruct (bytes_Equal command _); reflexivity.
  - unfold c2, set_reader, after_write.
    cbn [sent conn reqID frames body ID Type_ newPkt request].
    rewrite <- !app_assoc, app_nil_r. reflexivity.
  - reflexivity.
Qed.

Lemma Exec_against_mock_server_witness :
  exists (reply : bytes) (t' : table),
    eventually
      (fun fuel =>
         handle fuel false
           [Data (frames [ newPkt execCommand 0 (lit "echo test me");
                           newPkt responseValue (Int32.add 0 1) [] ])]
           conn0 commands)
      (Ok tt, [],
       {| deadline_err := None; write_err := None; sent := reply |}, t')
    /\ (available (reader client_echo) = reply ->
        exists c' : Client,
          eventually (fun fuel => Exec fuel (lit "echo test me") client_echo)
            (Ok (lit "test me"), c')
          /\ sent (conn c')
             = [] ++ frames [ newPkt execCommand 0 (lit "echo test me");
                              newPkt responseValue (Int32.add 0 1) [] ]
          /\ reqID c' = Int32.add (Int32.add 0 1) 1).
Proof.
  apply (Exec_against_mock_server client_echo (lit "echo test me")).
  - reflexivity.
  - reflexivity.
  - reflexivity.
  - reflexivity.
  - unfold Int32.InRange, Int32.min, Int32.max. simpl. lia.
  - repeat constructor.
  - unfold Int32.max. simpl. lia.
Defined.

(** ** Faults inside the payload *)

Lemma ReadFrom_payload_all_data (size id type n : Z) :
  Int32.InRange size -> 10 <= size ->
  forall (fuel : nat) (r : stream) (filled pad need rest : bytes),
    length pad = length need ->
    Z.of_nat (length filled + length need) = size - 8 ->
    all_data r = need ++ rest ->
    (length r + 2 <= fuel)%nat \/ (need = [] /\ (1 <= fuel)%nat) ->
    exists r',
      ReadFrom_payload fuel r None
        {| Size := size; ID := id; Type_ := type; body := filled ++ pad |}
        n (Z.of_nat (length filled))
      = ReadFrom_trailer
          {| Size := size; ID := id; Type_ := type; body := filled ++ need |}
          n (size - 8) r'
      /\ all_data r' = rest.
Proof.
  intros Hsize Hmin.
  assert (Hsub : Int32.sub size 8 = size - 8).
  { apply wrap_small. unfold Int32.InRange, Int32.min, Int32.max in *. lia. }
  induction fuel as [|fuel IH];
    intros r filled pad need rest Hpad Hlen Hav Hfuel; [lia|].
  cbn [ReadFrom_payload Size body]. rewrite Hsub.
  destruct need as [|x need].
  - destruct pad; [|discriminate]. simpl in Hlen.
    replace (Z.of_nat (length filled) <? size - 8) with false
      by (symmetry; apply Z.ltb_ge; lia).
    exists r. replace (size - 8) with (Z.of_nat (length filled)) by lia. auto.
  - replace (Z.of_nat (length filled) <? size - 8) with true
      by (symmetry; apply Z.ltb_lt; simpl in Hlen; lia).
    rewrite slice_from_app.
    destruct Hfuel as [Hfuel|[Hf _]]; [|discriminate].
    pose proof (Read_all_data r (length pad)) as Hall.
    pose proof (Read_length r (length pad)) as Hk.
    assert (Hprog : (length (fst (fst (Read r (length pad)))) = length pad
                     \/ S (length (snd (Read r (length pad)))) = length r)).
    { destruct r as [|[bs|e] r0]; simpl in Hav |- *; [discriminate| |auto].
      destruct (Nat.leb_spec (length bs) (length pad)); simpl; [auto|].
      left. rewrite length_firstn. lia. }
    destruct (Read r (length pad)) as [[chunk err2] r1].
    cbn [fst snd] in Hall, Hk, Hprog.
    rewrite Hav in Hall.
    destruct (app_eq_prefix chunk (all_data r1) (x :: need) rest
                (eq_sym Hall)) as (need' & Hneed & Hav'); [lia|].
    assert (Hl : length (x :: need) = (length chunk + length need')%nat)
      by (rewrite Hneed; apply length_app).
    unfold set_body; cbn [Size ID Type_ body]. rewrite store_app.
    assert (Hadd : Int32.add (Z.of_nat (length filled))
                     (Z.of_nat (length chunk))
                   = Z.of_nat (length (filled ++ chunk))).
    { rewrite length_app, Nat2Z.inj_add. apply wrap_small.
      unfold Int32.InRange, Int32.min, Int32.max in *. lia. }
    rewrite Hadd.
    destruct (IH r1 (filled ++ chunk) (skipn (length chunk) pad) need' rest)
      as (r'' & E & A).
    + rewrite length_skipn. lia.
    + rewrite length_app. lia.
    + exact Hav'.
    + destruct Hprog as [Hall'|Hless]; [right|left; lia].
      split; [destruct need'; simpl in *; auto; lia | lia].
    + exists r''. rewrite E, Hneed, app_assoc. auto.
Qed.

(** X16. A read error inside the payload does not end the decode: the loop
    tests the function's named result, not the error of the read, so when
    the rest of the payload arrives after a transport fault [ReadFrom]
    returns the packet as if nothing had happened and the fault is lost. *)
Theorem ReadFrom_swallows_payload_fault (size id type : Z)
    (part1 part2 : bytes) (e : error) (tail : stream) (fuel : nat) :
  Int32.InRange size -> Int32.InRange id -> Int32.InRange type ->
  10 <= size ->
  Z.of_nat (length (part1 ++ part2)) = size - 8 ->
  (length tail + 5 <= fuel)%nat ->
  exists r' : stream,
    ReadFrom fuel
      (Data (le32 size ++ le32 id ++ le32 type ++ part1)
         :: Fault e :: Data part2 :: tail)
    = (size + 4, decoded size id type (part1 ++ part2), r')
    /\ all_data r' = all_data tail.
Proof.
  intros Hs Hi Ht Hmin Hlen Hfuel.
  set (r := Data (le32 size ++ le32 id ++ le32 type ++ part1)
              :: Fault e :: Data part2 :: tail).
  assert (Hav : available r = le32 size ++ le32 id ++ le32 type ++ part1).
  { unfold r. cbn [available]. rewrite app_nil_r. reflexivity. }
  assert (Hall : all_data r
                 = le32 size ++ le32 id ++ le32 type ++ part1 ++ part2
                   ++ all_data tail).
  { unfold r. cbn [all_data]. rewrite <- !app_assoc. reflexivity. }
  assert (Lr : length r = (length tail + 3)%nat) by (unfold r; simpl; lia).
  unfold ReadFrom.
  destruct (binary_Read_available fuel r size _ Hs Hav ltac:(lia))
    as (r1 & E1 & A1 & L1).
  pose proof (binary_Read_sound _ _ _ _ E1) as (D1 & _). rewrite E1.
  replace (size <? 10) with false by (symmetry; apply Z.ltb_ge; lia).
  destruct (binary_Read_available fuel r1 id _ Hi A1 ltac:(lia))
    as (r2 & E2 & A2 & L2).
  pose proof (binary_Read_sound _ _ _ _ E2) as (D2 & _). rewrite E2.
  destruct (binary_Read_available fuel r2 type _ Ht A2 ltac:(lia))
    as (r3 & E3 & A3 & L3).
  pose proof (binary_Read_sound _ _ _ _ E3) as (D3 & _). rewrite E3.
  assert (Hall3 : all_data r3 = (part1 ++ part2) ++ all_data tail).
  { rewrite Hall, D2, D3 in D1.
    apply app_inv_head in D1. apply app_inv_head in D1.
    apply app_inv_head in D1. rewrite <- D1, <- app_assoc. reflexivity. }
  assert (Hsub : Int32.sub size 8 = size - 8).
  { apply wrap_small. unfold Int32.InRange, Int32.min, Int32.max in *. lia. }
  unfold make. rewrite Hsub.
  replace (size - 8 <? 0) with false by (symmetry; apply Z.ltb_ge; lia).
  destruct (ReadFrom_payload_all_data size id type (0 + 4 + 4 + 4) Hs Hmin
              fuel r3 [] (repeat zero_byte (Z.to_nat (size - 8)))
              (part1 ++ part2) (all_data tail))
    as (r4 & E & A4); auto.
  - rewrite repeat_length. lia.
  - left. lia.
  - simpl app in E. simpl length in E. change (Z.of_nat 0) with 0 in E.
    exists r4. rewrite E. split; [|exact A4].
    unfold ReadFrom_trailer, decoded; cbn [body].
    assert (H2 : (2 <= length (part1 ++ part2))%nat) by lia.
    unfold slice_from, slice_to.
    replace ((0 <=? Z.of_nat (length (part1 ++ part2)) - 2)
             && (Z.of_nat (length (part1 ++ part2)) - 2
                 <=? Z.of_nat (length (part1 ++ part2))))
      with true by (symmetry; apply andb_true_iff; split; apply Z.leb_le; lia).
    replace (Z.to_nat (Z.of_nat (length (part1 ++ part2)) - 2))
      with (length (part1 ++ part2) - 2)%nat by lia.
    replace (0 + 4 + 4 + 4 + (size - 8)) with (size + 4) by lia.
    destruct (bytes_Equal _ _); reflexivity.
Qed.

Lemma ReadFrom_swallows_payload_fault_witness :
  exists r' : stream,
    ReadFrom 5
      (Data (le32 12 ++ le32 1 ++ le32 responseValue ++ lit "h")
         :: Fault (net_Error "i/o timeout")
         :: Data (lit "i" ++ [zero_byte; zero_byte]) :: [])
    = (12 + 4,
       decoded 12 1 responseValue
         (lit "h" ++ (lit "i" ++ [zero_byte; zero_byte])), r')
    /\ all_data r' = all_data [].
Proof.
  apply (ReadFrom_swallows_payload_fault 12 1 responseValue (lit "h")
           (lit "i" ++ [zero_byte; zero_byte]) (net_Error "i/o timeout") []
           5).
  - unfold Int32.InRange, Int32.min, Int32.max. lia.
  - unfold Int32.InRange, Int32.min, Int32.max. lia.
  - unfold Int32.InRange, Int32.min, Int32.max, responseValue. lia.
  - lia.
  - reflexivity.
  - simpl. lia.
Defined.
